(** * Live trade-count widget: daily counter, aggregation and public reader

    A shallow embedding of the JavaScript of the implementation guide
    (the Redis model [trade_stats], the [create_trade] hook, the public
    service and controller, the rate limiter configuration), together with
    the parts of the platform those functions run on: JavaScript numbers,
    strings and [parseInt], the [Date] object in UTC, and a Redis store with
    string values and expiry deadlines.

    Modelling conventions.
    - A JavaScript number is [NaN] or an integer [z], which stands for the
      double of that value.  Up to [JS.MAX_SAFE_INTEGER], 2^53 - 1, every
      integer is a double, [parseInt] reads it exactly and [+] adds without
      rounding; beyond it the doubles round, which is not modelled.  The
      statements that give the numbers computed by the code as exact sums
      assume, through [window_safe], that the sums stay in this range.
    - A string is a [string] of bytes.
    - A [Date] is its time value: milliseconds since the epoch, or invalid.
    - Every [new Date()] evaluated during one call reads the same instant,
      which is passed to the call as [now].
    - A Redis command may fail; the failures are decided by a schedule
      carried in the world, one entry per command issued. *)

From Stdlib Require Import ZArith Lia Ascii.
From stdpp Require Import base gmap strings list fin_maps.

Local Open Scope Z_scope.

(** ** JavaScript numbers, strings and [parseInt] *)

Module JS.

Inductive number := NaN | Int (z : Z).

(** [Number.MAX_SAFE_INTEGER]: up to it the integers are doubles and their
    sums are exact. *)
Definition MAX_SAFE_INTEGER : Z := 2 ^ 53 - 1.

Definition add (a b : number) : number :=
  match a, b with
  | Int x, Int y => Int (x + y)
  | _, _ => NaN
  end.

(** [a <= b] of JavaScript: false as soon as one side is [NaN]. *)
Definition le (a b : number) : bool :=
  match a, b with
  | Int x, Int y => x <=? y
  | _, _ => false
  end.

(** [a === b] on numbers. *)
Definition strict_eq (a b : number) : bool :=
  match a, b with
  | Int x, Int y => x =? y
  | _, _ => false
  end.

(** The values that reach [parseInt] in this program: a reply of the store
    ([null] or a string) or a number literal. *)
Inductive value := Null | Str (s : string) | Num (n : number).

Definition of_reply (r : option string) : value :=
  match r with
  | None => Null
  | Some s => Str s
  end.

Definition truthy (v : value) : bool :=
  match v with
  | Null => false
  | Str "" => false
  | Str _ => true
  | Num NaN => false
  | Num (Int z) => negb (z =? 0)
  end.

(** [a || b]. *)
Definition or (a b : value) : value := if truthy a then a else b.

Definition digit_char (d : Z) : ascii := ascii_of_nat (48 + Z.to_nat d).

(** Decimal digits of [n], most significant first, in front of [acc]. *)
Fixpoint digits_of (fuel : nat) (n : Z) (acc : string) : string :=
  let acc' := String (digit_char (n mod 10)) acc in
  match fuel with
  | O => acc'
  | S f => if n <? 10 then acc' else digits_of f (n / 10) acc'
  end.

Definition string_of_nonneg (n : Z) : string :=
  digits_of (Z.to_nat (Z.log2 n)) n "".

Definition string_of_Z (z : Z) : string :=
  if z <? 0 then String "-" (string_of_nonneg (- z)) else string_of_nonneg z.

(** [ToString] on the values above. *)
Definition to_string (v : value) : string :=
  match v with
  | Null => "null"
  | Str s => s
  | Num NaN => "NaN"
  | Num (Int z) => string_of_Z z
  end.

Definition is_white_space (c : ascii) : bool :=
  let n := nat_of_ascii c in
  ((9 <=? n)%nat && (n <=? 13)%nat) || (n =? 32)%nat.

Fixpoint trim_start (s : string) : string :=
  match s with
  | String c r => if is_white_space c then trim_start r else s
  | EmptyString => s
  end.

(** Value of a character as a digit: 0-9, then a-z and A-Z for 10-35. *)
Definition digit_value (c : ascii) : option Z :=
  let n := Z.of_nat (nat_of_ascii c) in
  if (48 <=? n) && (n <=? 57) then Some (n - 48)
  else if (97 <=? n) && (n <=? 122) then Some (n - 87)
  else if (65 <=? n) && (n <=? 90) then Some (n - 55)
  else None.

Definition radix_digit (radix : Z) (c : ascii) : option Z :=
  match digit_value c with
  | Some d => if d <? radix then Some d else None
  | None => None
  end.

(** Reads the longest prefix of radix digits, accumulating its value; the
    boolean tells whether a digit was read. *)
Fixpoint read_digits (radix : Z) (s : string) (acc : Z) (seen : bool) : Z * bool :=
  match s with
  | String c r =>
      match radix_digit radix c with
      | Some d => read_digits radix r (acc * radix + d) true
      | None => (acc, seen)
      end
  | EmptyString => (acc, seen)
  end.

Definition strip_hex_prefix (s : string) : string :=
  match s with
  | String "0" (String "x" r) => r
  | String "0" (String "X" r) => r
  | _ => s
  end.

(** [parseInt(v, radix)] for an integer radix. *)
Definition parseInt (v : value) (radix : Z) : number :=
  let s := trim_start (to_string v) in
  let '(sign, s) :=
    match s with
    | String "-" r => (-1, r)
    | String "+" r => (1, r)
    | _ => (1, s)
    end in
  if (radix =? 0) || ((2 <=? radix) && (radix <=? 36)) then
    let r := if radix =? 0 then 10 else radix in
    let s := if (radix =? 0) || (radix =? 16) then strip_hex_prefix s else s in
    match read_digits r s 0 false with
    | (n, true) => Int (sign * n)
    | (_, false) => NaN
    end
  else NaN.

End JS.

(** ** The [Date] object, in UTC *)

Module Date.

Definition msPerDay : Z := 86400000.

Definition Day (t : Z) : Z := t / msPerDay.
Definition TimeWithinDay (t : Z) : Z := t mod msPerDay.

(** Year, month (1-12) and day of month (1-31) of a day number counted from
    1970-01-01, in the proleptic Gregorian calendar.  The computation works
    on 400-year eras of 146097 days that start on a 1st of March. *)
Definition civil_from_days (z : Z) : Z * Z * Z :=
  let z := z + 719468 in
  let era := z / 146097 in
  let doe := z mod 146097 in
  let yoe := (doe - doe / 1460 + doe / 36524 - doe / 146096) / 365 in
  let doy := doe - (365 * yoe + yoe / 4 - yoe / 100) in
  let mp := (5 * doy + 2) / 153 in
  let d := doy - (153 * mp + 2) / 5 + 1 in
  let m := if mp <? 10 then mp + 3 else mp - 9 in
  (yoe + era * 400 + (if m <=? 2 then 1 else 0), m, d).

(** Day number of the [d]-th day (any integer) of month [m] (1-12) of year [y]. *)
Definition days_from_civil (y m d : Z) : Z :=
  let y := if m <=? 2 then y - 1 else y in
  let era := y / 400 in
  let yoe := y mod 400 in
  let doy := (153 * (if 2 <? m then m - 3 else m + 9) + 2) / 5 + d - 1 in
  let doe := yoe * 365 + yoe / 4 - yoe / 100 + doy in
  era * 146097 + doe - 719468.

Definition YearFromTime (t : Z) : Z := (civil_from_days (Day t)).1.1.
(** Months are numbered from 0. *)
Definition MonthFromTime (t : Z) : Z := (civil_from_days (Day t)).1.2 - 1.
Definition DateFromTime (t : Z) : Z := (civil_from_days (Day t)).2.

Definition MakeDay (year month date : Z) : Z :=
  let ym := year + month / 12 in
  let mn := month mod 12 in
  days_from_civil ym (mn + 1) 1 + date - 1.

Definition MakeDate (day time : Z) : Z := day * msPerDay + time.

(** A Date object: its time value. *)
Inductive t := Invalid | Time (tv : Z).

Definition maxTime : Z := 8640000000000000.

Definition TimeClip (tv : Z) : t :=
  if Z.abs tv <=? maxTime then Time tv else Invalid.

(** [new Date()] when the clock reads [now]. *)
Definition current (now : Z) : t := TimeClip now.

(** [date.getUTCDate()]; [None] stands for [NaN]. *)
Definition getUTCDate (date : t) : option Z :=
  match date with
  | Invalid => None
  | Time tv => Some (DateFromTime tv)
  end.

(** [date.setUTCDate(dt)] for an integer [dt]: the date after the call. *)
Definition setUTCDate (date : t) (dt : option Z) : t :=
  match date, dt with
  | Time tv, Some dt =>
      TimeClip (MakeDate (MakeDay (YearFromTime tv) (MonthFromTime tv) dt)
                         (TimeWithinDay tv))
  | _, _ => Invalid
  end.

(** [n] written with exactly [width] decimal digits, in front of [acc]. *)
Fixpoint pad (width : nat) (n : Z) (acc : string) : string :=
  match width with
  | O => acc
  | S w => pad w (n / 10) (String (JS.digit_char (n mod 10)) acc)
  end.

Definition year_string (y : Z) : string :=
  if (0 <=? y) && (y <=? 9999) then pad 4 y ""
  else if y <? 0 then String "-" (pad 6 (- y) "")
  else String "+" (pad 6 y "").

Definition date_string (z : Z) : string :=
  let '(y, m, d) := civil_from_days z in
  year_string y +:+ String "-" (pad 2 m (String "-" (pad 2 d ""))).

Definition time_string (ms : Z) : string :=
  pad 2 (ms / 3600000)
    (String ":" (pad 2 (ms / 60000 mod 60)
      (String ":" (pad 2 (ms / 1000 mod 60)
        (String "." (pad 3 (ms mod 1000) "")))))).

(** [date.toISOString()]; [None] stands for the RangeError thrown on an
    invalid date. *)
Definition toISOString (date : t) : option string :=
  match date with
  | Invalid => None
  | Time tv =>
      Some (date_string (Day tv) +:+ String "T" (time_string (TimeWithinDay tv) +:+ "Z"))
  end.

End Date.

(** [s.split(sep)] for a separator of one character. *)
Fixpoint split (sep : ascii) (s : string) : list string :=
  match s with
  | EmptyString => [EmptyString]
  | String c r =>
      if Ascii.eqb c sep then EmptyString :: split sep r
      else match split sep r with
           | piece :: pieces => String c piece :: pieces
           | [] => [String c EmptyString]
           end
  end.

(** ** Errors and results *)

Inductive error :=
  | StoreUnavailable  (* the store could not be reached *)
  | ReplyError        (* the store answered a command with an error reply *)
  | RangeError        (* toISOString on an invalid date *)
  | SaveFailed.       (* the trade could not be persisted *)

Inductive result (A : Type) := Ok (a : A) | Err (e : error).
Arguments Ok {A} a.
Arguments Err {A} e.

(** ** The key-value store: string values with optional expiry deadlines *)

Module Redis.

Record entry := Entry { val : string; deadline : option Z }.

Inductive command :=
  | CONNECT
  | INCR (key : string)
  | EXPIRE (key : string) (seconds : Z)
  | MGET (keys : list string).

(** A key whose deadline (in milliseconds) has been reached is gone. *)
Definition live (now : Z) (e : entry) : bool :=
  match deadline e with
  | None => true
  | Some d => now <? d
  end.

Definition lookup (now : Z) (db : gmap string entry) (key : string) : option entry :=
  match db !! key with
  | Some e => if live now e then Some e else None
  | None => None
  end.

Definition is_decimal (c : ascii) : bool :=
  let n := nat_of_ascii c in (48 <=? n)%nat && (n <=? 57)%nat.

Fixpoint all_digits (s : string) (acc : Z) : option Z :=
  match s with
  | EmptyString => Some acc
  | String c r =>
      if is_decimal c then all_digits r (acc * 10 + (Z.of_nat (nat_of_ascii c) - 48))
      else None
  end.

(** A positive integer in canonical form: digits only, the first not 0. *)
Definition positive_literal (s : string) : option Z :=
  match s with
  | String c _ => if is_decimal c && negb (Ascii.eqb c "0") then all_digits s 0 else None
  | EmptyString => None
  end.

Definition LLONG_MAX : Z := 9223372036854775807.

(** The strict reading of a value as a signed 64-bit integer. *)
Definition string2ll (s : string) : option Z :=
  if String.eqb s "0" then Some 0
  else match s with
       | String "-" r =>
           match positive_literal r with
           | Some n => if n <=? LLONG_MAX + 1 then Some (- n) else None
           | None => None
           end
       | _ =>
           match positive_literal s with
           | Some n => if n <=? LLONG_MAX then Some n else None
           | None => None
           end
       end.

(** INCR: the new value and the new store, or an error reply when the value
    is not an integer or the increment would overflow.  A new key has no
    deadline; an existing key keeps its deadline. *)
Definition incr (now : Z) (db : gmap string entry) (key : string)
    : option (Z * gmap string entry) :=
  match lookup now db key with
  | None => Some (1, <[key := Entry "1" None]> db)
  | Some e =>
      match string2ll (val e) with
      | Some n =>
          if n <? LLONG_MAX
          then Some (n + 1, <[key := Entry (JS.string_of_Z (n + 1)) (deadline e)]> db)
          else None
      | None => None
      end
  end.

(** EXPIRE: sets the deadline of an existing key; tells whether it did. *)
Definition expire (now : Z) (db : gmap string entry) (key : string) (seconds : Z)
    : bool * gmap string entry :=
  match lookup now db key with
  | Some e => (true, <[key := Entry (val e) (Some (now + seconds * 1000))]> db)
  | None => (false, db)
  end.

(** MGET: one reply per key, [None] for a key that does not exist; an error
    reply when no key is given. *)
Definition mget (now : Z) (db : gmap string entry) (keys : list string)
    : option (list (option string)) :=
  match keys with
  | [] => None
  | _ => Some (map (fun k => val <$> lookup now db k) keys)
  end.

End Redis.

(** ** The world *)

Inductive level := Debug | Info | Error.

(** A log record: level, the [operation] field, the error it reports if any,
    and the message. *)
Record log_entry := Log {
  lvl : level;
  operation : string;
  cause : option error;
  tag : string
}.

Record trade_data := TradeData {
  coin : JS.value;
  direction : JS.value;
  volume : JS.value;
  price : JS.value;
  quantity : JS.value;
  exchange : JS.value;
  leverage : JS.value;
  stop_loss : JS.value;
  take_profit : JS.value
}.

Record Trade := MkTrade {
  user_id : JS.value;
  fields : trade_data;
  trade_id : option Z
}.

(** A call started without being awaited. *)
Inductive task := RecordTradeTask.

Record world := World {
  store : gmap string Redis.entry;   (* contents of the key-value store *)
  faults : list bool;                (* true: the next store command fails *)
  trace : list Redis.command;        (* store commands issued so far *)
  log : list log_entry;              (* log records written so far *)
  save_faults : list bool;           (* true: the next save fails *)
  trades : list Trade;               (* persisted trades *)
  pending : list task;               (* detached calls not yet run *)
  hits : gmap string (list Z)        (* request instants seen by the rate limiter *)
}.

Definition with_store (db : gmap string Redis.entry) (w : world) : world :=
  World db (faults w) (trace w) (log w) (save_faults w) (trades w) (pending w) (hits w).
Definition with_faults (fs : list bool) (w : world) : world :=
  World (store w) fs (trace w) (log w) (save_faults w) (trades w) (pending w) (hits w).
Definition with_trace (tr : list Redis.command) (w : world) : world :=
  World (store w) (faults w) tr (log w) (save_faults w) (trades w) (pending w) (hits w).
Definition with_log (l : list log_entry) (w : world) : world :=
  World (store w) (faults w) (trace w) l (save_faults w) (trades w) (pending w) (hits w).
Definition with_save_faults (fs : list bool) (w : world) : world :=
  World (store w) (faults w) (trace w) (log w) fs (trades w) (pending w) (hits w).
Definition with_trades (ts : list Trade) (w : world) : world :=
  World (store w) (faults w) (trace w) (log w) (save_faults w) ts (pending w) (hits w).
Definition with_pending (ps : list task) (w : world) : world :=
  World (store w) (faults w) (trace w) (log w) (save_faults w) (trades w) ps (hits w).
Definition with_hits (h : gmap string (list Z)) (w : world) : world :=
  World (store w) (faults w) (trace w) (log w) (save_faults w) (trades w) (pending w) h.

(** ** The monad: state and exceptions.  A thrown error keeps the state. *)

Definition M (A : Type) : Type := world -> result A * world.

Definition ret {A} (a : A) : M A := fun w => (Ok a, w).
Definition throw {A} (e : error) : M A := fun w => (Err e, w).
Definition bind {A B} (m : M A) (k : A -> M B) : M B := fun w =>
  match m w with
  | (Ok a, w') => k a w'
  | (Err e, w') => (Err e, w')
  end.
(** [try { m } catch (e) { handler e }] *)
Definition try_catch {A} (m : M A) (handler : error -> M A) : M A := fun w =>
  match m w with
  | (Ok a, w') => (Ok a, w')
  | (Err e, w') => handler e w'
  end.

Notation "'let*' x := m 'in' k" := (bind m (fun x => k))
  (at level 10, x name, m at level 100, k at level 200).
Notation "m ;; k" := (bind m (fun _ => k))
  (at level 100, k at level 200, right associativity).

Definition logger (l : level) (op : string) (c : option error) (msg : string) : M unit :=
  fun w => (Ok tt, with_log (log w ++ [Log l op c msg]) w).

(** Issues a command to the store: it is recorded, and it fails when the
    schedule says so. *)
Definition issue (c : Redis.command) : M unit := fun w =>
  let w := with_trace (trace w ++ [c]) w in
  match faults w with
  | true :: fs => (Err StoreUnavailable, with_faults fs w)
  | false :: fs => (Ok tt, with_faults fs w)
  | [] => (Ok tt, w)
  end.

Definition redis_connect : M unit := issue Redis.CONNECT.

Definition redis_incr (now : Z) (key : string) : M Z :=
  issue (Redis.INCR key);;
  fun w =>
    match Redis.incr now (store w) key with
    | Some (n, db) => (Ok n, with_store db w)
    | None => (Err ReplyError, w)
    end.

Definition redis_expire (now : Z) (key : string) (seconds : Z) : M bool :=
  issue (Redis.EXPIRE key seconds);;
  fun w =>
    let '(b, db) := Redis.expire now (store w) key seconds in
    (Ok b, with_store db w).

Definition redis_mGet (now : Z) (keys : list string) : M (list (option string)) :=
  issue (Redis.MGET keys);;
  fun w =>
    match Redis.mget now (store w) keys with
    | Some replies => (Ok replies, w)
    | None => (Err ReplyError, w)
    end.

(** ** The model [trade_stats] (app/models/redis/trade_stats.js) *)

Definition KEY_PREFIX : string := "trade:daily_count".

(** [date.toISOString()] as a computation. *)
Definition format_iso (date : Date.t) : M string :=
  match Date.toISOString date with
  | Some iso => ret iso
  | None => throw RangeError
  end.

Definition format_date_utc (date : Date.t) : M string :=
  let* iso := format_iso date in
  ret (hd EmptyString (split "T" iso)).

Definition get_date_days_ago (now : Z) (days : Z) : Date.t :=
  let date := Date.current now in
  Date.setUTCDate date
    (match Date.getUTCDate date with
     | Some d => Some (d - days)
     | None => None
     end).

(** The template [`${KEY_PREFIX}:${date_key}`]. *)
Definition bucket_key (date_key : string) : string :=
  KEY_PREFIX +:+ String ":" date_key.

(** [for (let i = 0; i < n; i++) body], the indices given as a list. *)
Fixpoint for_loop {St} (body : Z -> St -> M St) (indices : list Z) (s : St) : M St :=
  match indices with
  | [] => ret s
  | i :: rest => let* s' := body i s in for_loop body rest s'
  end.

(** [array.forEach((x, index) => ...)], the callback updating the variables
    it closes over. *)
Fixpoint forEach {A St} (f : A -> nat -> St -> St) (l : list A) (index : nat) (s : St) : St :=
  match l with
  | [] => s
  | x :: rest => forEach f rest (S index) (f x index s)
  end.

(** [parseInt(reply || 0, 10)].  The integer read stands for the double that
    [parseInt] returns: the same value up to [JS.MAX_SAFE_INTEGER]. *)
Definition count_of (reply : option string) : JS.number :=
  JS.parseInt (JS.or (JS.of_reply reply) (JS.Num (JS.Int 0))) 10.

Record TradeCount := MkTradeCount {
  total : JS.number;
  daily : gmap string JS.number
}.

Record AggregateStats := MkStats {
  trades_7d : JS.number;
  trades_30d : JS.number;
  last_updated : string
}.

Module trade_stats.

Definition record_trade (now : Z) : M Z :=
  redis_connect;;
  let* date_key := format_date_utc (Date.current now) in
  let key := bucket_key date_key in
  let* count := redis_incr now key in
  (if count =? 1
   then (let* _ := redis_expire now key (35 * 24 * 60 * 60) in ret tt)
   else ret tt);;
  logger Debug "record_trade" None "trade_stats:record_trade";;
  ret count.

Definition get_trade_count (days : Z) (now : Z) : M TradeCount :=
  redis_connect;;
  let* built :=
    for_loop (fun i '(keys, date_map) =>
                let* date_key := format_date_utc (get_date_days_ago now i) in
                let key := bucket_key date_key in
                ret (keys ++ [key], <[key := date_key]> date_map))
             (seqZ 0 days) ([], (∅ : gmap string string)) in
  let '(keys, date_map) := built in
  let* values := redis_mGet now keys in
  let '(total, daily) :=
    forEach (fun key index '(total, daily) =>
               let count := count_of (mjoin (values !! index)) in
               let date := default "undefined" (date_map !! key) in
               (JS.add total count, <[date := count]> daily))
            keys 0%nat (JS.Int 0, (∅ : gmap string JS.number)) in
  logger Debug "get_trade_count" None "trade_stats:get_trade_count";;
  ret (MkTradeCount total daily).

Definition get_widget_stats (now : Z) : M AggregateStats :=
  redis_connect;;
  let* keys_30d :=
    for_loop (fun i keys_30d =>
                let* date_key := format_date_utc (get_date_days_ago now i) in
                ret (keys_30d ++ [bucket_key date_key]))
             (seqZ 0 30) [] in
  let* values := redis_mGet now keys_30d in
  let '(count_7d, count_30d) :=
    forEach (fun val index '(count_7d, count_30d) =>
               let count := count_of val in
               let count_30d := JS.add count_30d count in
               (if (index <? 7)%nat then JS.add count_7d count else count_7d, count_30d))
            values 0%nat (JS.Int 0, JS.Int 0) in
  logger Debug "get_widget_stats" None "trade_stats:get_widget_stats";;
  let* stamp := format_iso (Date.current now) in
  ret (MkStats count_7d count_30d stamp).

End trade_stats.

(** ** The trade-creation hook (app/routes/trading/trading.service.js) *)

(** [new Trade({ user_id, coin: trade_data.coin, ... })] *)
Definition new_Trade (uid : JS.value) (d : trade_data) : Trade :=
  MkTrade uid
    (TradeData (coin d) (direction d) (volume d) (price d) (quantity d)
               (exchange d) (leverage d) (stop_loss d) (take_profit d))
    None.

(** [trade.save()].  Persistence is outside the guide: a save either fails,
    or stores the document and returns it with an identifier. *)
Definition trade_save (t : Trade) : M Trade := fun w =>
  match save_faults w with
  | true :: fs => (Err SaveFailed, with_save_faults fs w)
  | fs =>
      let saved := MkTrade (user_id t) (fields t) (Some (Z.of_nat (length (trades w)))) in
      (Ok saved, with_trades (trades w ++ [saved]) (with_save_faults (tl fs) w))
  end.

(** A call whose promise is not awaited: it is left to run later. *)
Definition detach (t : task) : M unit := fun w =>
  (Ok tt, with_pending (pending w ++ [t]) w).

Definition id_string (t : Trade) : string :=
  match trade_id t with
  | Some n => JS.string_of_Z n
  | None => "undefined"
  end.

Definition create_trade (uid : JS.value) (d : trade_data) : M Trade :=
  try_catch
    (let trade := new_Trade uid d in
     let* saved_trade := trade_save trade in
     detach RecordTradeTask;;
     logger Info "create_trade" None ("trading:service:create:" +:+ id_string saved_trade);;
     ret saved_trade)
    (fun error =>
       logger Error "create_trade_error" (Some error) "trading:service:create";;
       throw error).

(** The detached call [trade_stats.record_trade().catch(err => ...)], run at
    the instant [now]. *)
Definition settle (now : Z) (t : task) : M unit :=
  match t with
  | RecordTradeTask =>
      try_catch
        (let* _ := trade_stats.record_trade now in ret tt)
        (fun err =>
           logger Error "record_trade_stats_error" (Some err) "trading:service:stats")
  end.

(** The event loop runs the oldest detached call. *)
Definition run_next (now : Z) : M unit := fun w =>
  match pending w with
  | [] => (Ok tt, w)
  | t :: rest => settle now t (with_pending rest w)
  end.

(** ** The public reader (app/routes/public) *)

Record envelope := Envelope {
  success : bool;
  data : option AggregateStats;
  message : string
}.

Record response := Response {
  status : Z;
  headers : list (string * string);
  body : envelope
}.

(** What a handler does with a request: it sends a response, or it hands an
    error to [next]. *)
Inductive outcome := Sent (r : response) | Next (e : error).

(** Modelled from the spec: [success_response] of app/utils/response.js is
    not part of the guide.  The response body is
    [{ success: true, data: ..., message: string }]. *)
Definition success_response (res : list (string * string)) (stats : AggregateStats)
    (msg : string) : response :=
  Response 200 res (Envelope true (Some stats) msg).

(** Modelled from the spec: the error middleware that receives what is
    passed to [next] is not part of the guide.  A failure is answered with
    the standard error envelope, a generic error response. *)
Definition error_response (e : error) : response :=
  Response 500 [] (Envelope false None "Internal server error").

Module public_service.

Definition get_trade_stats (now : Z) : M AggregateStats :=
  try_catch
    (let* stats := trade_stats.get_widget_stats now in
     logger Info "get_trade_stats" None "public:service:get_trade_stats";;
     ret stats)
    (fun error =>
       logger Error "get_trade_stats_error" (Some error) "public:service";;
       throw error).

End public_service.

Module public_controller.

(** [res] is the list of headers set on the response so far. *)
Definition get_trade_stats (res : list (string * string)) (now : Z) : M outcome :=
  try_catch
    (let* stats := public_service.get_trade_stats now in
     let res := res ++ [("Cache-Control", "public, max-age=5, s-maxage=5")] in
     ret (Sent (success_response res stats "trade stats retrieved")))
    (fun error =>
       logger Error "get_trade_stats_error" (Some error) "public:controller";;
       ret (Next error)).

End public_controller.

(** ** The rate limiter (app/middleware/rate_limit.js) *)

Record rate_limit_options := RateLimitOptions {
  windowMs : Z;
  max : Z;
  standardHeaders : bool;
  legacyHeaders : bool;
  limit_message : envelope
}.

(** Modelled from the spec: the function [rate_limit] is imported by the
    middleware file and is not part of the guide.  It caps the requests of
    one client identity in a rolling window of [windowMs] milliseconds: a
    request is counted, and it is rejected at once, with the configured
    message, when more than [max] requests of that client, itself included,
    fall in the window that ends with it. *)
Definition rate_limit (opts : rate_limit_options) (client : string) (now : Z)
    : M (option response) := fun w =>
  let seen := default [] (hits w !! client) in
  let recent := filter (fun t => now - windowMs opts < t) seen ++ [now] in
  let w := with_hits (<[client := recent]> (hits w)) w in
  if Z.of_nat (length recent) <=? max opts
  then (Ok None, w)
  else (Ok (Some (Response 429 [] (limit_message opts))), w).

Definition public_rate_limit : string -> Z -> M (option response) :=
  rate_limit
    (RateLimitOptions (60 * 1000) 120 true false
       (Envelope false None "Too many requests, please try again later")).

(** [GET /stats/trades] behind [router.use(public_rate_limit)]. *)
Definition public_routes (client : string) (now : Z) : M response :=
  let* limited := public_rate_limit client now in
  match limited with
  | Some rejection => ret rejection
  | None =>
      let* out := public_controller.get_trade_stats [] now in
      match out with
      | Sent r => ret r
      | Next e => ret (error_response e)
      end
  end.

(** A client sends requests at the given instants, one after the other. *)
Fixpoint requests (client : string) (instants : list Z) : M (list response) :=
  match instants with
  | [] => ret []
  | now :: rest =>
      let* r := public_routes client now in
      let* rs := requests client rest in
      ret (r :: rs)
  end.

(** ** The data model and the reference algorithm of the specification *)

(** A bucket holds a non-negative integer. *)
Definition bucket_ok (e : Redis.entry) : bool :=
  match Redis.string2ll (Redis.val e) with
  | Some n => 0 <=? n
  | None => false
  end.

Definition is_bucket_key (k : string) : bool :=
  String.prefix (KEY_PREFIX +:+ ":") k.

Definition store_ok (db : gmap string Redis.entry) : Prop :=
  forall k e, is_bucket_key k = true -> db !! k = Some e -> bucket_ok e = true.

(** The first and the last day whose year has four digits: 0000-01-01 and
    9999-12-31, counted from 1970-01-01. *)
Definition day_min : Z := -719528.
Definition day_max : Z := 2932896.

(** The [n] days that end with the day of [now] all have four-digit years. *)
Definition window_in_range (now n : Z) : Prop :=
  day_min <= Date.Day now - (n - 1) /\ Date.Day now <= day_max.

(** The next [n] store commands succeed. *)
Definition no_fault (n : nat) (w : world) : Prop :=
  Forall (fun b => b = false) (take n (faults w)).

(** [YYYY-MM-DD] of a day number. *)
Definition spec_date (day : Z) : string :=
  let '(y, m, d) := Date.civil_from_days day in
  Date.pad 4 y "" +:+ "-" +:+ Date.pad 2 m "" +:+ "-" +:+ Date.pad 2 d "".

(** The storage key [<namespace-prefix>:<YYYY-MM-DD>]. *)
Definition spec_key (day : Z) : string := KEY_PREFIX +:+ ":" +:+ spec_date day.

(** The ordered keys of the last [n] days, from today (offset 0) backwards. *)
Definition spec_window_keys (today n : Z) : list string :=
  map (fun i => spec_key (today - i)) (seqZ 0 n).

(** The count of a day in a store: the integer its bucket holds, 0 when the
    day has no bucket. *)
Definition spec_count (db : gmap string Redis.entry) (now : Z) (day : Z) : Z :=
  match Redis.lookup now db (spec_key day) with
  | Some e => default 0 (Redis.string2ll (Redis.val e))
  | None => 0
  end.

(** The sum of the counts at offsets 0 to [n - 1]. *)
Definition spec_sum (count : Z -> Z) (today n : Z) : Z :=
  foldr Z.add 0 (map (fun i => count (today - i)) (seqZ 0 n)).

(** The counts of the [n] days that end today add up to a safe integer.  With
    buckets that hold non-negative integers, every count and every partial sum
    is then a safe integer too, and the doubles of the code compute the sums
    exactly. *)
Definition window_safe (db : gmap string Redis.entry) (now n : Z) : Prop :=
  spec_sum (spec_count db now) (Date.Day now) n <= JS.MAX_SAFE_INTEGER.

(** The instant in ISO 8601, UTC: [YYYY-MM-DDTHH:mm:ss.sssZ]. *)
Definition spec_timestamp (now : Z) : string :=
  let ms := Date.TimeWithinDay now in
  spec_date (Date.Day now) +:+ "T" +:+
  Date.pad 2 (ms / 3600000) "" +:+ ":" +:+ Date.pad 2 (ms / 60000 mod 60) "" +:+ ":" +:+
  Date.pad 2 (ms / 1000 mod 60) "" +:+ "." +:+ Date.pad 3 (ms mod 1000) "" +:+ "Z".

Definition spec_widget_stats (db : gmap string Redis.entry) (now : Z) : AggregateStats :=
  let today := Date.Day now in
  MkStats (JS.Int (spec_sum (spec_count db now) today 7))
          (JS.Int (spec_sum (spec_count db now) today 30))
          (spec_timestamp now).

(** The sum of a list of numbers, added from the left as the code does. *)
Definition sum_numbers (l : list JS.number) : JS.number := foldl JS.add (JS.Int 0) l.

(** ** Auxiliary definitions: what the statements below speak of *)

(** [P] holds at [z], [z + 1], ..., [z + n - 1]. *)
Fixpoint all_from (n : nat) (z : Z) (P : Z -> bool) : bool :=
  match n with
  | O => true
  | S k => P z && all_from k (z + 1) P
  end.

(** What the era computation of [civil_from_days] guarantees for a day
    [doe] of a 400-year era. *)
Definition era_check (doe : Z) : bool :=
  let yoe := (doe - doe / 1460 + doe / 36524 - doe / 146096) / 365 in
  let doy := doe - (365 * yoe + yoe / 4 - yoe / 100) in
  let mp := (5 * doy + 2) / 153 in
  let d := doy - (153 * mp + 2) / 5 + 1 in
  let m := if mp <? 10 then mp + 3 else mp - 9 in
  let c := if m <=? 2 then 1 else 0 in
  (0 <=? yoe) && (yoe <? 400) && (1 <=? m) && (m <=? 12) && (1 <=? d) && (d <=? 31)
  && (yoe * 365 + yoe / 4 - yoe / 100
      + ((153 * (if 2 <? m then m - 3 else m + 9) + 2) / 5 + 1 - 1) + d - 1 =? doe)
  && (if doe <? 146037 then yoe + c <=? 399 else yoe + c =? 400).

(** Every character of [s] satisfies [P]. *)
Fixpoint string_forall (P : ascii -> bool) (s : string) : bool :=
  match s with
  | EmptyString => true
  | String c r => P c && string_forall P r
  end.

Definition not_T (c : ascii) : bool := negb (Ascii.eqb c "T").

(** The world after a command has been issued. *)
Definition after_issue (c : Redis.command) (w : world) : world :=
  with_faults (tl (faults w)) (with_trace (trace w ++ [c]) w).

(** The date part of the ISO string of a date, if the date is valid. *)
Definition date_part (date : Date.t) : option string :=
  match Date.toISOString date with
  | Some iso => Some (hd EmptyString (split "T" iso))
  | None => None
  end.

(** The date keys of the last [n] days, as the loops compute them; [None]
    when one of the dates is invalid. *)
Definition window_dates (now n : Z) : option (list string) :=
  mapM (fun i => date_part (get_date_days_ago now i)) (seqZ 0 n).

(** The counts read for a list of keys. *)
Definition window_counts (now : Z) (db : gmap string Redis.entry) (keys : list string)
    : list JS.number :=
  map (fun k => count_of (Redis.val <$> Redis.lookup now db k)) keys.

Definition widget_log : log_entry :=
  Log Debug "get_widget_stats" None "trade_stats:get_widget_stats".

Definition count_log : log_entry :=
  Log Debug "get_trade_count" None "trade_stats:get_trade_count".

(** The daily breakdown for a list of date keys. *)
Definition daily_map (now : Z) (db : gmap string Redis.entry) (ds : list string)
    : gmap string JS.number :=
  foldl (fun m d => <[d := count_of (Redis.val <$> Redis.lookup now db (bucket_key d))]> m)
        ∅ ds.

(** The sum of the values of a daily breakdown. *)
Definition daily_sum (m : gmap string JS.number) : JS.number :=
  map_fold (fun _ v acc => JS.add acc v) (JS.Int 0) m.

Definition demo_now : Z := 1765881000000.

Definition demo_store : gmap string Redis.entry :=
  {[ "trade:daily_count:2025-12-16" := Redis.Entry "3" None ]}.

Definition demo_world : world := World demo_store [] [] [] [] [] [] ∅.

Definition demo_store_2 : gmap string Redis.entry :=
  <[ "session:42" := Redis.Entry "x" None ]> demo_store.

Definition record_log : log_entry :=
  Log Debug "record_trade" None "trade_stats:record_trade".

(** The retention of a bucket, in seconds and in milliseconds. *)
Definition retention_seconds : Z := 35 * 24 * 60 * 60.
Definition retention_ms : Z := retention_seconds * 1000.

(** A client of the model records one trade at each of the given instants. *)
Fixpoint record_trades (instants : list Z) : M (list Z) :=
  match instants with
  | [] => ret []
  | now :: rest =>
      let* count := trade_stats.record_trade now in
      let* counts := record_trades rest in
      ret (count :: counts)
  end.

(** The day after [demo_now], and two later instants of that day. *)
Definition demo_next : Z := demo_now + Date.msPerDay.
Definition demo_later : list Z := [demo_next + 1000; demo_next + 2000].

(** The store answers the connection and the INCR of the first trade and
    fails its EXPIRE. *)
Definition demo_expire_down : world :=
  World demo_store [false; false; true] [] [] [] [] [] ∅.

Definition create_log (saved : Trade) : log_entry :=
  Log Info "create_trade" None ("trading:service:create:" +:+ id_string saved).

Definition create_error_log (e : error) : log_entry :=
  Log Error "create_trade_error" (Some e) "trading:service:create".

Definition stats_error_log (e : error) : log_entry :=
  Log Error "record_trade_stats_error" (Some e) "trading:service:stats".

(** The document that [save] returns for the trade built by [create_trade]. *)
Definition saved_trade (uid : JS.value) (d : trade_data) (w : world) : Trade :=
  MkTrade uid (fields (new_Trade uid d)) (Some (Z.of_nat (length (trades w)))).

(** The commands one call of [record_trade] sends. *)
Inductive record_commands : list Redis.command -> Prop :=
  | connect_only : record_commands [Redis.CONNECT]
  | connect_incr key : record_commands [Redis.CONNECT; Redis.INCR key]
  | connect_incr_expire key :
      record_commands [Redis.CONNECT; Redis.INCR key; Redis.EXPIRE key retention_seconds].

Definition service_log : log_entry :=
  Log Info "get_trade_stats" None "public:service:get_trade_stats".

Definition service_error_log (e : error) : log_entry :=
  Log Error "get_trade_stats_error" (Some e) "public:service".

Definition controller_error_log (e : error) : log_entry :=
  Log Error "get_trade_stats_error" (Some e) "public:controller".

Definition cache_control : string * string :=
  ("Cache-Control", "public, max-age=5, s-maxage=5").

Definition rejection : response :=
  Response 429 [] (Envelope false None "Too many requests, please try again later").

(** A world whose store cannot be reached, and a trade. *)
Definition demo_down : world := World demo_store [true] [] [] [] [] [] ∅.

Definition demo_trade : trade_data :=
  TradeData (JS.Str "BTC") (JS.Str "long") (JS.Num (JS.Int 1000)) (JS.Num (JS.Int 42000))
            (JS.Num (JS.Int 2)) (JS.Str "binance") (JS.Num (JS.Int 5)) JS.Null JS.Null.

Definition demo_mget_down : world := World demo_store [false; true] [] [] [] [] [] ∅.

Definition is_rejection (r : response) : bool := status r =? 429.

(** The earlier requests a window starting at [t0] may follow: each is at
    least a whole window before [t0], or inside the window. *)
Definition window_hits (t0 : Z) (seen : list Z) : Prop :=
  Forall (fun t' => t' <= t0 - 60 * 1000 \/ t0 <= t') seen.

(** 121 requests, one every 100 milliseconds from [demo_now] on. *)
Definition demo_burst : list Z := map (fun i => demo_now + 100 * i) (seqZ 0 121).

Definition demo_full : world :=
  World {[ "trade:daily_count:2025-12-16" := Redis.Entry "9223372036854775807" None ]}
        [] [] [] [] [] [] ∅.

Definition demo_garbled : world :=
  World {[ "trade:daily_count:2025-12-16" := Redis.Entry "n/a" None ]} [] [] [] [] [] [] ∅.

Definition demo_save_down : world := World demo_store [] [] [] [true] [] [] ∅.

(** [MakeTime(hour, min, sec, ms)]. *)
Definition MakeTime (hour min sec ms : Z) : Z :=
  hour * 3600000 + min * 60000 + sec * 1000 + ms.

(** [date.setUTCHours(hour, min, sec, ms)]: the date after the call. *)
Definition setUTCHours (date : Date.t) (hour min sec ms : Z) : Date.t :=
  match date with
  | Date.Time tv => Date.TimeClip (Date.MakeDate (Date.Day tv) (MakeTime hour min sec ms))
  | Date.Invalid => Date.Invalid
  end.

(** Reads exactly [width] decimal digits. *)
Fixpoint read_fixed (width : nat) (s : string) (acc : Z) : option (Z * string) :=
  match width with
  | O => Some (acc, s)
  | S w =>
      match s with
      | String c r =>
          match JS.radix_digit 10 c with
          | Some d => read_fixed w r (acc * 10 + d)
          | None => None
          end
      | EmptyString => None
      end
  end.

Definition expect (c : ascii) (s : string) : option string :=
  match s with
  | String c' r => if Ascii.eqb c' c then Some r else None
  | EmptyString => None
  end.

(** The time value of a string in the date-time format
    [YYYY-MM-DDTHH:mm:ssZ] of ECMAScript, the only form the script builds.
    A string that is not of this form, or names a day, hour, minute or second
    that does not exist, has none. *)
Definition parse_date_time (s : string) : option Z :=
  '(y, s) ← read_fixed 4 s 0;
  s ← expect "-" s;
  '(mo, s) ← read_fixed 2 s 0;
  s ← expect "-" s;
  '(d, s) ← read_fixed 2 s 0;
  s ← expect "T" s;
  '(h, s) ← read_fixed 2 s 0;
  s ← expect ":" s;
  '(mi, s) ← read_fixed 2 s 0;
  s ← expect ":" s;
  '(se, s) ← read_fixed 2 s 0;
  s ← expect "Z" s;
  let day := Date.MakeDay y (mo - 1) d in
  let '(y', mo', d') := Date.civil_from_days day in
  if String.eqb s "" && (1 <=? mo) && (mo <=? 12) && (y' =? y) && (mo' =? mo) && (d' =? d)
     && (h <=? 23) && (mi <=? 59) && (se <=? 59)
  then Some (Date.MakeDate day (MakeTime h mi se 0))
  else None.

(** [new Date(s)] for a string. *)
Definition Date_of_string (s : string) : Date.t :=
  match parse_date_time s with
  | Some tv => Date.TimeClip tv
  | None => Date.Invalid
  end.

(** [a - b] and [Math.floor(a / b)] on numbers that are integers. *)
Definition JS_sub (a b : JS.number) : JS.number :=
  match a, b with
  | JS.Int x, JS.Int y => JS.Int (x - y)
  | _, _ => JS.NaN
  end.

Definition floor_div (a : JS.number) (b : Z) : JS.number :=
  match a with
  | JS.Int x => JS.Int (x / b)
  | JS.NaN => JS.NaN
  end.

(** A date used as a number: its time value. *)
Definition time_value (date : Date.t) : JS.number :=
  match date with
  | Date.Time tv => JS.Int tv
  | Date.Invalid => JS.NaN
  end.

(** The script [scripts/backfill_trade_stats.js].  MongoDB is outside the
    model: the documents [{ _id, count }] that the aggregation returned are
    given to the run. *)
Module Backfill.

Definition KEY_PREFIX : string := "trade:daily_count".

Record day_count := DayCount { id : string; count : Z }.

Inductive command :=
  | CONNECT
  | SET (key value : string)
  | EXPIRE (key : string) (seconds : Z)
  | DISCONNECT.

(** The process: the store it writes to, the failures to come, the commands
    sent and the lines printed. *)
Record process := Process {
  db : gmap string Redis.entry;
  failures : list bool;
  sent : list command;
  console : list string
}.

Definition run (A : Type) : Type := process -> result A * process.

Definition send (c : command) : run unit := fun p =>
  let p := Process (db p) (failures p) (sent p ++ [c]) (console p) in
  match failures p with
  | true :: fs => (Err StoreUnavailable, Process (db p) fs (sent p) (console p))
  | false :: fs => (Ok tt, Process (db p) fs (sent p) (console p))
  | [] => (Ok tt, p)
  end.

Definition write (f : gmap string Redis.entry -> gmap string Redis.entry) : run unit :=
  fun p => (Ok tt, Process (f (db p)) (failures p) (sent p) (console p)).

Definition console_log (line : string) : run unit := fun p =>
  (Ok tt, Process (db p) (failures p) (sent p) (console p ++ [line])).

Definition skip : run unit := fun p => (Ok tt, p).

Definition and_then {A B} (m : run A) (k : A -> run B) : run B := fun p =>
  match m p with
  | (Ok a, p') => k a p'
  | (Err e, p') => (Err e, p')
  end.

(** SET stores the value and removes the deadline of the key. *)
Definition redis_set (key value : string) : run unit :=
  and_then (send (SET key value)) (fun _ =>
  write (fun db => <[key := Redis.Entry value None]> db)).

Definition redis_expire (now : Z) (key : string) (seconds : Z) : run unit :=
  and_then (send (EXPIRE key seconds)) (fun _ =>
  write (fun db => (Redis.expire now db key seconds).2)).

Definition get_start_of_day_days_ago (now days : Z) : Date.t :=
  let date := Date.current now in
  let date := Date.setUTCDate date
                (match Date.getUTCDate date with
                 | Some d => Some (d - days)
                 | None => None
                 end) in
  setUTCHours date 0 0 0 0.

Definition diff_in_days (date1 date2 : Date.t) : JS.number :=
  let ms_per_day := 24 * 60 * 60 * 1000 in
  floor_div (JS_sub (time_value date1) (time_value date2)) ms_per_day.

(** The body of the loop over the results. *)
Definition backfill_day (now : Z) (today : Date.t) (day : day_count) : run unit :=
  let key := KEY_PREFIX +:+ ":" +:+ id day in
  and_then (redis_set key (JS.to_string (JS.Num (JS.Int (count day))))) (fun _ =>
  let day_date := Date_of_string (id day +:+ "T00:00:00Z") in
  let days_ago := diff_in_days today day_date in
  let ttl_days := JS_sub (JS.Int 35) days_ago in
  and_then
    (match ttl_days with
     | JS.Int ttl => if 0 <? ttl then redis_expire now key (ttl * 24 * 60 * 60) else skip
     | JS.NaN => skip
     end) (fun _ =>
  console_log ("Set " +:+ id day +:+ ": " +:+ JS.to_string (JS.Num (JS.Int (count day)))
               +:+ " trades (TTL: " +:+ JS.to_string (JS.Num ttl_days) +:+ " days)"))).

Fixpoint for_of (body : day_count -> run unit) (results : list day_count) : run unit :=
  match results with
  | [] => skip
  | day :: rest => and_then (body day) (fun _ => for_of body rest)
  end.

(** From [redis.connect()] on; [start_date] is what the aggregation was
    asked for. *)
Definition start_date (now : Z) : Date.t := get_start_of_day_days_ago now 35.

Definition backfill (now : Z) (results : list day_count) : run unit :=
  and_then (send CONNECT) (fun _ =>
  and_then (console_log "Starting backfill of trade counts...") (fun _ =>
  and_then (console_log ("Found " +:+ JS.string_of_Z (Z.of_nat (length results))
                         +:+ " days with trades")) (fun _ =>
  let today := setUTCHours (Date.current now) 0 0 0 0 in
  and_then (for_of (backfill_day now today) results) (fun _ =>
  and_then (console_log "Backfill complete!") (fun _ =>
  send DISCONNECT))))).

(** The exit code of the process. *)
Definition main (now : Z) (results : list day_count) (p : process) : Z * process :=
  match backfill now results p with
  | (Ok _, p') => (0, p')
  | (Err _, p') => (1, p')
  end.

End Backfill.

(** The process after a command has been sent. *)
Definition after_send (c : Backfill.command) (p : Backfill.process) : Backfill.process :=
  Backfill.Process (Backfill.db p) (tl (Backfill.failures p)) (Backfill.sent p ++ [c])
                   (Backfill.console p).

Definition with_db (db : gmap string Redis.entry) (p : Backfill.process) : Backfill.process :=
  Backfill.Process db (Backfill.failures p) (Backfill.sent p) (Backfill.console p).

Definition with_line (line : string) (p : Backfill.process) : Backfill.process :=
  Backfill.Process (Backfill.db p) (Backfill.failures p) (Backfill.sent p)
                   (Backfill.console p ++ [line]).

(** The time to live, in days, that the script computes for a day. *)
Definition ttl_days (today : Date.t) (day : Backfill.day_count) : JS.number :=
  JS_sub (JS.Int 35)
    (Backfill.diff_in_days today (Date_of_string (Backfill.id day +:+ "T00:00:00Z"))).

(** The line that the script prints for a day. *)
Definition set_line (today : Date.t) (day : Backfill.day_count) : string :=
  "Set " +:+ Backfill.id day +:+ ": "
    +:+ JS.to_string (JS.Num (JS.Int (Backfill.count day)))
    +:+ " trades (TTL: " +:+ JS.to_string (JS.Num (ttl_days today day)) +:+ " days)".

(** The deadline that the script gives to the bucket of the day [z]. *)
Definition backfill_deadline (now z : Z) : option Z :=
  if Date.Day now - z <? 35
  then Some (now - (Date.Day now - z) * Date.msPerDay + retention_ms)
  else None.

Definition demo_process : Backfill.process := Backfill.Process ∅ [] [] [].

(** The documents of the aggregation, for days given by their numbers. *)
Definition results_of (days : list (Z * Z)) : list Backfill.day_count :=
  map (fun day => Backfill.DayCount (spec_date day.1) day.2) days.

(** The count given for a day, 0 for a day that is not among them. *)
Definition count_in (days : list (Z * Z)) (z : Z) : Z :=
  default 0 ((list_to_map days : gmap Z Z) !! z).

(** What the script does to the store for one day. *)
Definition backfill_step (now : Z) (db : gmap string Redis.entry) (day : Z * Z)
    : gmap string Redis.entry :=
  <[spec_key day.1 := Redis.Entry (JS.string_of_Z day.2) (backfill_deadline now day.1)]> db.

Definition demo_days : list (Z * Z) := [(20403, 5); (20437, 7); (20438, 3)].

Definition demo_backfilled : world :=
  World (Backfill.db (Backfill.main demo_now (results_of demo_days)
                        (Backfill.Process ∅ [] [] [])).2)
        [] [] [] [] [] [] ∅.

(** What [fetch(url)] gives the page: the request fails with a message, or
    the response that the server sent arrives.  Its body travels as JSON and
    is read by [response_json] below. *)
Inductive fetched := FetchFailed (msg : string) | Received (r : response).

(** A number after [JSON.stringify] on the server and [JSON.parse] on the
    page: NaN has no form in JSON and is written [null]. *)
Inductive json_number := JSON_null | JSON_number (z : Z).

Definition number_to_json (n : JS.number) : json_number :=
  match n with
  | JS.NaN => JSON_null
  | JS.Int z => JSON_number z
  end.

(** The statistics and the body as the page reads them. *)
Record json_stats := JsonStats {
  json_trades_7d : json_number;
  json_trades_30d : json_number;
  json_last_updated : string
}.

Record json_body := JsonBody {
  json_success : bool;
  json_data : option json_stats;
  json_message : string
}.

Definition stats_to_json (stats : AggregateStats) : json_stats :=
  JsonStats (number_to_json (trades_7d stats)) (number_to_json (trades_30d stats))
            (last_updated stats).

(** [await response.json()]. *)
Definition response_json (r : response) : json_body :=
  JsonBody (success (body r)) (stats_to_json <$> data (body r)) (message (body r)).

(** [response.ok]: the status is in the range 200-299. *)
Definition response_ok (r : response) : bool := (200 <=? status r) && (status r <=? 299).

(** [n || 0] on a number. *)
Definition or_zero (n : JS.number) : JS.number :=
  match n with
  | JS.Int z => if z =? 0 then JS.Int 0 else n
  | JS.NaN => JS.Int 0
  end.

(** [n || 0] on a number read from JSON: [null || 0] is 0. *)
Definition json_or_zero (n : json_number) : JS.number :=
  match n with
  | JSON_null => JS.Int 0
  | JSON_number z => or_zero (JS.Int z)
  end.

(** The component [LiveStats] (src/components/interactive/LiveStats.tsx):
    its state and what [fetchStats] does to it when the fetch settles.
    [console.error] writes outside the state and is left out. *)
Module LiveStats.

Inductive period_choice := P7d | P30d.

Record state := State {
  period : period_choice;
  showTooltip : bool;
  trades7d : option JS.number;
  trades30d : option JS.number
}.

(** [useState] initial values. *)
Definition initial : state := State P7d false None None.

Definition fetchStats (f : fetched) (s : state) : state :=
  match f with
  | FetchFailed _ => s
  | Received r =>
      if response_ok r then
        let data := response_json r in
        match json_success data, json_data data with
        | true, Some d =>
            State (period s) (showTooltip s)
                  (Some (json_or_zero (json_trades_7d d)))
                  (Some (json_or_zero (json_trades_30d d)))
        | _, _ => s
        end
      else s
  end.

Definition setPeriod (p : period_choice) (s : state) : state :=
  State p (showTooltip s) (trades7d s) (trades30d s).

Definition isLoading (s : state) : bool :=
  match trades7d s, trades30d s with
  | Some _, Some _ => false
  | _, _ => true
  end.

Definition currentValue (s : state) : JS.number :=
  match period s with
  | P7d => default (JS.Int 0) (trades7d s)
  | P30d => default (JS.Int 0) (trades30d s)
  end.

End LiveStats.

(** The hook [use_trade_stats] and the component [TradeCountWidget] of the
    guide. *)
Module use_trade_stats.

(** The value of [stats]: the initial object, or [data.data] of the last
    response that was ok, which is undefined when the body has no data. *)
Inductive stats_value := Initial | Payload (d : option json_stats).

Record state := State {
  stats : stats_value;
  loading : bool;
  error : option string
}.

Definition initial : state := State Initial true None.

Definition fetch_stats (f : fetched) (s : state) : state :=
  match f with
  | FetchFailed msg => State (stats s) false (Some msg)
  | Received r =>
      if response_ok r
      then State (Payload (json_data (response_json r))) false None
      else State (stats s) false (Some "Failed to fetch")
  end.

(** What [TradeCountWidget] renders: the skeleton, the error box, the two
    numbers, or nothing because rendering threw a TypeError. *)
Inductive rendering :=
  | Skeleton
  | Unable_to_load
  | Values (n7d n30d : JS.number)
  | TypeError.

(** [stats.trades_7d.toLocaleString()] and [stats.trades_30d.toLocaleString()]
    throw when [stats] is undefined or the field is [null]. *)
Definition TradeCountWidget (s : state) : rendering :=
  if loading s then Skeleton
  else match error s with
       | Some "" | None =>
           match stats s with
           | Initial => Values (JS.Int 0) (JS.Int 0)
           | Payload (Some d) =>
               match json_trades_7d d, json_trades_30d d with
               | JSON_number n7d, JSON_number n30d => Values (JS.Int n7d) (JS.Int n30d)
               | _, _ => TypeError
               end
           | Payload None => TypeError
           end
       | Some _ => Unable_to_load
       end.

End use_trade_stats.

(** * Facts *)

(** ** The calendar *)

Lemma all_from_spec n : forall z P x,
  all_from n z P = true -> z <= x < z + Z.of_nat n -> P x = true.
Proof.
  induction n as [|n IH]; intros z P x H Hx; [lia|].
  simpl in H. apply andb_prop in H as [H0 H1].
  destruct (Z.eq_dec x z) as [->|Hne]; [assumption|].
  apply (IH (z + 1)); [assumption | lia].
Qed.

Lemma era_check_all : all_from (Z.to_nat 146097) 0 era_check = true.
Proof. vm_cast_no_check (eq_refl true). Qed.

Lemma era_check_ok doe : 0 <= doe < 146097 -> era_check doe = true.
Proof.
  intros H. apply (all_from_spec _ 0 _ _ era_check_all). lia.
Qed.

Ltac bool_to_prop H :=
  rewrite ?andb_true_iff, ?Z.leb_le, ?Z.ltb_lt, ?Z.eqb_eq in H.

(** The civil date of a day number: its fields are in range, the day number
    is recovered from them, and the year is bounded by the era. *)
Lemma civil_from_days_spec z :
  let '(y, m, d) := Date.civil_from_days z in
  1 <= m <= 12 /\ 1 <= d <= 31 /\ Date.days_from_civil y m 1 + d - 1 = z /\
  (day_min <= z <= day_max -> 0 <= y <= 9999).
Proof.
  unfold Date.civil_from_days. cbv zeta.
  assert (Hdoe : 0 <= (z + 719468) mod 146097 < 146097) by (apply Z.mod_pos_bound; lia).
  pose proof (Z.div_mod (z + 719468) 146097 ltac:(lia)) as Hz.
  pose proof (era_check_ok _ Hdoe) as Hc.
  unfold era_check in Hc. cbv zeta in Hc.
  set (era := (z + 719468) / 146097) in *.
  set (doe := (z + 719468) mod 146097) in *.
  set (yoe := (doe - doe / 1460 + doe / 36524 - doe / 146096) / 365) in *.
  set (doy := doe - (365 * yoe + yoe / 4 - yoe / 100)) in *.
  set (mp := (5 * doy + 2) / 153) in *.
  set (d := doy - (153 * mp + 2) / 5 + 1) in *.
  set (m := if mp <? 10 then mp + 3 else mp - 9) in *.
  bool_to_prop Hc.
  destruct Hc as [[[[[[[Hy0 Hy1] Hm0] Hm1] Hd0] Hd1] Heq] Hyr].
  split; [lia|]. split; [lia|].
  assert (Hy : (if m <=? 2 then yoe + era * 400 + (if m <=? 2 then 1 else 0) - 1
                else yoe + era * 400 + (if m <=? 2 then 1 else 0)) = yoe + era * 400)
    by (destruct (m <=? 2); lia).
  split.
  - unfold Date.days_from_civil. cbv zeta. rewrite Hy.
    rewrite Z.div_add by lia. rewrite Z.mod_add by lia.
    rewrite (Z.div_small yoe 400) by lia. rewrite (Z.mod_small yoe 400) by lia.
    lia.
  - unfold day_min, day_max. intros Hr.
    destruct (doe <? 146037) eqn:Hlt; bool_to_prop Hyr.
    + apply Z.ltb_lt in Hlt. assert (0 <= era <= 24) by lia.
      destruct (m <=? 2); lia.
    + apply Z.ltb_ge in Hlt. assert (-1 <= era <= 23) by lia.
      destruct (m <=? 2); lia.
Qed.

(** ** Digits and fixed-width numbers *)

Lemma digit_cases d : 0 <= d < 10 ->
  d = 0 \/ d = 1 \/ d = 2 \/ d = 3 \/ d = 4 \/ d = 5 \/ d = 6 \/ d = 7 \/ d = 8 \/ d = 9.
Proof. lia. Qed.

Ltac each_digit d H :=
  destruct (digit_cases d H) as [->|[->|[->|[->|[->|[->|[->|[->|[->| ->]]]]]]]]].

Lemma digit_char_forall (P : ascii -> bool) :
  string_forall P "0123456789" = true ->
  forall d, 0 <= d < 10 -> P (JS.digit_char d) = true.
Proof.
  intros H d Hd. simpl in H. rewrite !andb_true_iff in H.
  each_digit d Hd; cbn; tauto.
Qed.

Lemma digit_value_char d : 0 <= d < 10 -> JS.digit_value (JS.digit_char d) = Some d.
Proof. intros Hd. each_digit d Hd; reflexivity. Qed.

Lemma digit_char_inj a b : 0 <= a < 10 -> 0 <= b < 10 ->
  JS.digit_char a = JS.digit_char b -> a = b.
Proof.
  intros Ha Hb H. apply (f_equal JS.digit_value) in H.
  rewrite !digit_value_char in H by assumption. congruence.
Qed.

Lemma append_nil (b : string) : "" +:+ b = b.
Proof. reflexivity. Qed.

Lemma append_cons x (a b : string) : String x a +:+ b = String x (a +:+ b).
Proof. reflexivity. Qed.

Lemma append_assoc (a b c : string) : (a +:+ b) +:+ c = a +:+ (b +:+ c).
Proof.
  induction a as [|x a IH]; [reflexivity|].
  rewrite !append_cons, IH. reflexivity.
Qed.

Lemma append_length (a b : string) :
  String.length (a +:+ b) = (String.length a + String.length b)%nat.
Proof.
  induction a as [|x a IH]; [reflexivity|].
  rewrite append_cons. simpl. rewrite IH. reflexivity.
Qed.

Lemma string_forall_app P a b :
  string_forall P (a +:+ b) = string_forall P a && string_forall P b.
Proof.
  induction a as [|c a IH]; [reflexivity|].
  rewrite append_cons. simpl. rewrite IH. apply andb_assoc.
Qed.

Lemma pad_app w : forall n acc, Date.pad w n acc = Date.pad w n "" +:+ acc.
Proof.
  induction w as [|w IH]; intros n acc; simpl; [reflexivity|].
  rewrite (IH _ (String _ acc)), (IH _ (String _ "")).
  rewrite append_assoc, append_cons, append_nil. reflexivity.
Qed.

Lemma pad_forall P w : string_forall P "0123456789" = true ->
  forall n acc, string_forall P (Date.pad w n acc) = string_forall P acc.
Proof.
  intros HP. induction w as [|w IH]; intros n acc; simpl; [reflexivity|].
  rewrite IH. simpl. rewrite (digit_char_forall P HP); [reflexivity|].
  apply Z.mod_pos_bound. lia.
Qed.

Lemma pad_length w : forall n acc,
  String.length (Date.pad w n acc) = (w + String.length acc)%nat.
Proof.
  induction w as [|w IH]; intros n acc; simpl; [reflexivity|].
  rewrite IH. simpl. lia.
Qed.

(** A number below [10 ^ w] is determined by its [w] digits. *)
Lemma pad_inj w : forall a b acc acc',
  0 <= a < 10 ^ Z.of_nat w -> 0 <= b < 10 ^ Z.of_nat w ->
  Date.pad w a acc = Date.pad w b acc' -> a = b /\ acc = acc'.
Proof.
  induction w as [|w IH]; intros a b acc acc' Ha Hb H.
  - simpl in *. split; [lia | assumption].
  - rewrite Nat2Z.inj_succ, Z.pow_succ_r in Ha, Hb by lia.
    simpl in H. apply IH in H as [Hq Hacc].
    + injection Hacc as Hc Hacc. split; [|assumption].
      apply digit_char_inj in Hc; try (apply Z.mod_pos_bound; lia).
      rewrite (Z.div_mod a 10), (Z.div_mod b 10) by lia. lia.
    + split; [apply Z.div_pos; lia | apply Z.div_lt_upper_bound; lia].
    + split; [apply Z.div_pos; lia | apply Z.div_lt_upper_bound; lia].
Qed.

(** ** Splitting at a separator *)

Lemma split_nonempty sep s : split sep s <> [].
Proof.
  destruct s as [|c r]; simpl; [discriminate|].
  destruct (Ascii.eqb c sep); [discriminate|].
  destruct (split sep r); discriminate.
Qed.

Lemma split_head sep a r :
  string_forall (fun c => negb (Ascii.eqb c sep)) a = true ->
  hd EmptyString (split sep (a +:+ String sep r)) = a.
Proof.
  induction a as [|c a IH]; intros H.
  - rewrite append_nil. simpl. rewrite Ascii.eqb_refl. reflexivity.
  - rewrite append_cons. simpl in *.
    apply andb_prop in H as [Hc Ha]. apply negb_true_iff in Hc. rewrite Hc.
    specialize (IH Ha).
    destruct (split sep (a +:+ String sep r)) as [|piece pieces] eqn:E.
    + exfalso. exact (split_nonempty _ _ E).
    + simpl in IH. subst piece. reflexivity.
Qed.

(** ** Dates as strings *)

Lemma string_forall_cons P c s : string_forall P (String c s) = P c && string_forall P s.
Proof. reflexivity. Qed.

Lemma date_string_no_T z : string_forall not_T (Date.date_string z) = true.
Proof.
  unfold Date.date_string. destruct (Date.civil_from_days z) as [[y m] d].
  rewrite string_forall_app. apply andb_true_intro. split.
  - unfold Date.year_string.
    destruct (_ && _); [|destruct (y <? 0)]; rewrite ?string_forall_cons;
      rewrite pad_forall by reflexivity; reflexivity.
  - rewrite string_forall_cons, pad_forall by reflexivity.
    rewrite string_forall_cons, pad_forall by reflexivity. reflexivity.
Qed.

Lemma date_string_spec z : day_min <= z <= day_max -> Date.date_string z = spec_date z.
Proof.
  intros Hz. unfold Date.date_string, spec_date.
  pose proof (civil_from_days_spec z) as H.
  destruct (Date.civil_from_days z) as [[y m] d].
  destruct H as (_ & _ & _ & Hy). specialize (Hy Hz).
  unfold Date.year_string.
  replace ((0 <=? y) && (y <=? 9999)) with true
    by (symmetry; apply andb_true_intro; split; apply Z.leb_le; lia).
  reflexivity.
Qed.

Lemma spec_date_length z : String.length (spec_date z) = 10%nat.
Proof.
  unfold spec_date. destruct (Date.civil_from_days z) as [[y m] d].
  rewrite !append_length, !pad_length. reflexivity.
Qed.

Lemma pad_cons_inj w a b c acc acc' :
  0 <= a < 10 ^ Z.of_nat w -> 0 <= b < 10 ^ Z.of_nat w ->
  String c (Date.pad w a acc) = String c (Date.pad w b acc') -> a = b /\ acc = acc'.
Proof. intros Ha Hb H. injection H as H. exact (pad_inj w a b acc acc' Ha Hb H). Qed.

Lemma spec_date_acc z :
  spec_date z =
  let '(y, m, d) := Date.civil_from_days z in
  Date.pad 4 y (String "-" (Date.pad 2 m (String "-" (Date.pad 2 d "")))).
Proof. unfold spec_date. destruct (Date.civil_from_days z) as [[y m] d]. reflexivity. Qed.

Lemma spec_date_inj a b :
  day_min <= a <= day_max -> day_min <= b <= day_max ->
  spec_date a = spec_date b -> a = b.
Proof.
  intros Ha Hb H. rewrite !spec_date_acc in H.
  pose proof (civil_from_days_spec a) as Sa. pose proof (civil_from_days_spec b) as Sb.
  destruct (Date.civil_from_days a) as [[y m] d].
  destruct (Date.civil_from_days b) as [[y' m'] d'].
  destruct Sa as (Hm & Hd & Ea & Hy). destruct Sb as (Hm' & Hd' & Eb & Hy').
  specialize (Hy Ha). specialize (Hy' Hb).
  apply pad_inj in H as [-> H]; [|lia|lia].
  apply pad_cons_inj in H as [-> H]; [|lia|lia].
  apply pad_cons_inj in H as [-> _]; [|lia|lia].
  lia.
Qed.

(** ** Integers as strings: what INCR writes, what [parseInt] reads *)

Arguments JS.digit_char : simpl never.

Lemma all_digits_cons c r acc :
  Redis.all_digits (String c r) acc =
  if Redis.is_decimal c
  then Redis.all_digits r (acc * 10 + (Z.of_nat (nat_of_ascii c) - 48))
  else None.
Proof. reflexivity. Qed.

Lemma digits_of_0 n acc :
  JS.digits_of 0 n acc = String (JS.digit_char (n mod 10)) acc.
Proof. reflexivity. Qed.

Lemma digits_of_S f n acc :
  JS.digits_of (S f) n acc =
  if n <? 10 then String (JS.digit_char (n mod 10)) acc
  else JS.digits_of f (n / 10) (String (JS.digit_char (n mod 10)) acc).
Proof. reflexivity. Qed.

Lemma is_decimal_digit c : Redis.is_decimal c = true ->
  exists d, 0 <= d < 10 /\ c = JS.digit_char d.
Proof.
  unfold Redis.is_decimal. intros H. apply andb_prop in H as [H1 H2].
  apply Nat.leb_le in H1, H2.
  exists (Z.of_nat (nat_of_ascii c) - 48). split; [lia|].
  unfold JS.digit_char.
  replace (48 + Z.to_nat (Z.of_nat (nat_of_ascii c) - 48))%nat with (nat_of_ascii c) by lia.
  symmetry. apply ascii_nat_embedding.
Qed.

Lemma digit_char_decimal d : 0 <= d < 10 ->
  Redis.is_decimal (JS.digit_char d) = true /\
  Z.of_nat (nat_of_ascii (JS.digit_char d)) - 48 = d.
Proof. intros Hd. each_digit d Hd; split; reflexivity. Qed.

Lemma digit_char_zero d : 0 < d < 10 -> Ascii.eqb (JS.digit_char d) "0" = false.
Proof. intros Hd. assert (H : 0 <= d < 10) by lia. each_digit d H; try lia; reflexivity. Qed.

(** Reading the digits of [n] from accumulator 0 leaves accumulator [n]. *)
Lemma all_digits_digits_of f : forall n acc,
  0 <= n < 10 * 2 ^ Z.of_nat f ->
  Redis.all_digits (JS.digits_of f n acc) 0 = Redis.all_digits acc n.
Proof.
  assert (Hbase : forall n acc, 0 <= n < 10 ->
    Redis.all_digits (String (JS.digit_char (n mod 10)) acc) 0 = Redis.all_digits acc n).
  { intros n acc Hn. rewrite Z.mod_small by lia. rewrite all_digits_cons.
    destruct (digit_char_decimal n Hn) as [-> ->]. reflexivity. }
  induction f as [|f IH]; intros n acc Hn.
  - rewrite digits_of_0. apply Hbase. change (Z.of_nat 0) with 0 in Hn. lia.
  - rewrite digits_of_S. destruct (n <? 10) eqn:E.
    + apply Z.ltb_lt in E. apply Hbase. lia.
    + apply Z.ltb_ge in E.
      rewrite Nat2Z.inj_succ, Z.pow_succ_r in Hn by lia.
      rewrite IH.
      * rewrite all_digits_cons.
        destruct (digit_char_decimal (n mod 10)) as [-> ->];
          [apply Z.mod_pos_bound; lia|].
        f_equal. pose proof (Z.div_mod n 10). lia.
      * split; [apply Z.div_pos; lia|].
        apply Z.div_lt_upper_bound; lia.
Qed.

(** The first digit of a positive number is not 0. *)
Lemma digits_of_head f : forall n acc,
  0 < n < 10 * 2 ^ Z.of_nat f ->
  exists c r, JS.digits_of f n acc = String c r /\
              Redis.is_decimal c = true /\ Ascii.eqb c "0" = false.
Proof.
  assert (Hbase : forall n acc, 0 < n < 10 ->
    exists c r, String (JS.digit_char (n mod 10)) acc = String c r /\
                Redis.is_decimal c = true /\ Ascii.eqb c "0" = false).
  { intros n acc Hn. rewrite Z.mod_small by lia.
    exists (JS.digit_char n), acc. split; [reflexivity|].
    split; [apply digit_char_decimal; lia | apply digit_char_zero; lia]. }
  induction f as [|f IH]; intros n acc Hn.
  - rewrite digits_of_0. apply Hbase. change (Z.of_nat 0) with 0 in Hn. lia.
  - rewrite digits_of_S. destruct (n <? 10) eqn:E.
    + apply Z.ltb_lt in E. apply Hbase. lia.
    + apply Z.ltb_ge in E.
      rewrite Nat2Z.inj_succ, Z.pow_succ_r in Hn by lia.
      apply IH. split.
      * apply Z.div_str_pos. lia.
      * apply Z.div_lt_upper_bound; lia.
Qed.

Lemma log2_fuel n : 0 <= n -> 0 <= n < 10 * 2 ^ Z.of_nat (Z.to_nat (Z.log2 n)).
Proof.
  intros Hn. split; [assumption|].
  rewrite Z2Nat.id by apply Z.log2_nonneg.
  destruct (Z.eq_dec n 0) as [->|Hne]; [simpl; lia|].
  pose proof (Z.log2_spec n ltac:(lia)) as [_ H].
  rewrite Z.pow_succ_r in H by apply Z.log2_nonneg. lia.
Qed.

(** What INCR writes is read back by the store as the same integer. *)
Lemma string2ll_string_of_Z n : 0 <= n <= Redis.LLONG_MAX ->
  Redis.string2ll (JS.string_of_Z n) = Some n.
Proof.
  intros Hn. unfold JS.string_of_Z.
  replace (n <? 0) with false by (symmetry; apply Z.ltb_ge; lia).
  unfold JS.string_of_nonneg.
  destruct (Z.eq_dec n 0) as [->|Hne]; [reflexivity|].
  pose proof (log2_fuel n ltac:(lia)) as Hf.
  destruct (digits_of_head (Z.to_nat (Z.log2 n)) n "" ltac:(lia)) as (c & r & E & Hc & Hz).
  pose proof (all_digits_digits_of _ n "" Hf) as Hd. rewrite E in Hd. simpl in Hd.
  unfold Redis.string2ll. rewrite E.
  assert (Hne0 : String.eqb (String c r) "0" = false).
  { simpl. rewrite Hz. reflexivity. }
  rewrite Hne0.
  assert (Hpos : Redis.positive_literal (String c r) = Some n).
  { unfold Redis.positive_literal. rewrite Hc, Hz. simpl. exact Hd. }
  destruct (is_decimal_digit c Hc) as (d & Hd9 & ->).
  assert (Hminus : Ascii.eqb (JS.digit_char d) "-" = false)
    by (each_digit d Hd9; reflexivity).
  destruct (JS.digit_char d) as [[] [] [] [] [] [] [] []] eqn:Ec;
    try discriminate Hminus;
    rewrite Hpos; replace (n <=? Redis.LLONG_MAX) with true
      by (symmetry; apply Z.leb_le; lia); reflexivity.
Qed.

Lemma read_digits_cons radix c r acc seen :
  JS.read_digits radix (String c r) acc seen =
  match JS.radix_digit radix c with
  | Some d => JS.read_digits radix r (acc * radix + d) true
  | None => (acc, seen)
  end.
Proof. reflexivity. Qed.

Lemma radix_digit_decimal c : Redis.is_decimal c = true ->
  JS.radix_digit 10 c = Some (Z.of_nat (nat_of_ascii c) - 48).
Proof.
  intros H. destruct (is_decimal_digit c H) as (d & Hd & ->).
  each_digit d Hd; reflexivity.
Qed.

(** A string of decimal digits is read by [parseInt] as the store reads it. *)
Lemma read_digits_all s : forall acc n,
  Redis.all_digits s acc = Some n -> JS.read_digits 10 s acc true = (n, true).
Proof.
  induction s as [|c r IH]; intros acc n H.
  - simpl in H. injection H as ->. reflexivity.
  - rewrite all_digits_cons in H. destruct (Redis.is_decimal c) eqn:Hc; [|discriminate].
    rewrite read_digits_cons, (radix_digit_decimal c Hc). apply IH. exact H.
Qed.

Lemma all_digits_ge s : forall acc n,
  0 <= acc -> Redis.all_digits s acc = Some n -> acc <= n.
Proof.
  induction s as [|c r IH]; intros acc n Hacc H.
  - simpl in H. injection H as ->. lia.
  - rewrite all_digits_cons in H. destruct (Redis.is_decimal c) eqn:Hc; [|discriminate].
    destruct (is_decimal_digit c Hc) as (d & Hd & ->).
    destruct (digit_char_decimal d Hd) as [_ Hv]. rewrite Hv in H.
    apply IH in H; lia.
Qed.

Lemma positive_literal_inv s n : Redis.positive_literal s = Some n ->
  exists c r, s = String c r /\ Redis.is_decimal c = true /\
              Redis.all_digits s 0 = Some n /\ 1 <= n.
Proof.
  unfold Redis.positive_literal. destruct s as [|c r]; [discriminate|].
  destruct (Redis.is_decimal c) eqn:Hc; [|discriminate].
  destruct (Ascii.eqb c "0") eqn:Hz; [discriminate|]. simpl negb. cbv iota.
  intros H. exists c, r. repeat split; try assumption.
  rewrite all_digits_cons, Hc in H.
  destruct (is_decimal_digit c Hc) as (d & Hd & ->).
  destruct (digit_char_decimal d Hd) as [_ Hv]. rewrite Hv in H.
  assert (d <> 0) by (intros ->; discriminate Hz).
  apply all_digits_ge in H; lia.
Qed.

Lemma parseInt_decimal c r : Redis.is_decimal c = true ->
  JS.parseInt (JS.Str (String c r)) 10 =
  match JS.read_digits 10 (String c r) 0 false with
  | (n, true) => JS.Int (1 * n)
  | (_, false) => JS.NaN
  end.
Proof.
  intros H. destruct (is_decimal_digit c H) as (d & Hd & ->).
  each_digit d Hd; reflexivity.
Qed.

Lemma count_of_absent : count_of None = JS.Int 0.
Proof. reflexivity. Qed.

Lemma count_of_positive_literal s n :
  Redis.positive_literal s = Some n -> count_of (Some s) = JS.Int n.
Proof.
  intros H. destruct (positive_literal_inv s n H) as (c & r & -> & Hc & Hd & _).
  unfold count_of, JS.of_reply, JS.or.
  change (JS.truthy (JS.Str (String c r))) with true. cbv iota.
  rewrite (parseInt_decimal c r Hc).
  rewrite all_digits_cons, Hc in Hd.
  rewrite read_digits_cons, (radix_digit_decimal c Hc).
  rewrite (read_digits_all _ _ _ Hd). f_equal. lia.
Qed.

(** A bucket that holds the non-negative integer [n] is counted as [n]. *)
Lemma count_of_integer s n :
  Redis.string2ll s = Some n -> 0 <= n -> count_of (Some s) = JS.Int n.
Proof.
  unfold Redis.string2ll. destruct (String.eqb s "0") eqn:E0.
  - apply String.eqb_eq in E0. subst s. intros H _. injection H as <-. reflexivity.
  - destruct s as [|c r].
    + discriminate.
    + destruct (ascii_dec c "-") as [->|Hne].
      * destruct (Redis.positive_literal r) as [m|] eqn:Hp; [|discriminate].
        destruct (positive_literal_inv r m Hp) as (_ & _ & _ & _ & _ & Hm).
        destruct (m <=? Redis.LLONG_MAX + 1); [|discriminate].
        intros H Hn. injection H as <-. lia.
      * intros H Hn.
        assert (Hp : exists m, Redis.positive_literal (String c r) = Some m /\ m = n).
        { destruct c as [[] [] [] [] [] [] [] []];
            try (exfalso; apply Hne; reflexivity);
            (destruct (Redis.positive_literal (String _ r)) as [m|];
             [destruct (m <=? Redis.LLONG_MAX); [|discriminate];
              injection H as <-; exists m; split; reflexivity
             |discriminate]). }
        destruct Hp as (m & Hp & ->). exact (count_of_positive_literal _ _ Hp).
Qed.

(** ** Days and instants *)

Lemma Day_bounds t :
  Date.Day t * Date.msPerDay <= t < (Date.Day t + 1) * Date.msPerDay.
Proof.
  unfold Date.Day, Date.msPerDay.
  pose proof (Z.div_mod t 86400000 ltac:(lia)).
  pose proof (Z.mod_pos_bound t 86400000 ltac:(lia)). lia.
Qed.

Lemma Day_shift t i : Date.Day (t - i * Date.msPerDay) = Date.Day t - i.
Proof.
  unfold Date.Day, Date.msPerDay.
  replace (t - i * 86400000) with (t + (- i) * 86400000) by lia.
  rewrite Z.div_add by lia. lia.
Qed.

Lemma TimeWithinDay_shift t i :
  Date.TimeWithinDay (t - i * Date.msPerDay) = Date.TimeWithinDay t.
Proof.
  unfold Date.TimeWithinDay, Date.msPerDay.
  replace (t - i * 86400000) with (t + (- i) * 86400000) by lia.
  apply Z.mod_add. lia.
Qed.

Lemma TimeClip_valid t : Z.abs t <= Date.maxTime -> Date.TimeClip t = Date.Time t.
Proof. intros H. unfold Date.TimeClip. apply Z.leb_le in H. rewrite H. reflexivity. Qed.

(** Days with four-digit years are valid instants. *)
Lemma in_range_valid t : day_min <= Date.Day t <= day_max -> Z.abs t <= Date.maxTime.
Proof.
  intros H. pose proof (Day_bounds t) as B.
  unfold day_min, day_max, Date.maxTime, Date.msPerDay in *. lia.
Qed.

(** [setUTCDate(getUTCDate() - days)] moves the instant back by [days] days. *)
Lemma get_date_days_ago_shift now days : Z.abs now <= Date.maxTime ->
  get_date_days_ago now days = Date.TimeClip (now - days * Date.msPerDay).
Proof.
  intros Hv. unfold get_date_days_ago, Date.current.
  rewrite (TimeClip_valid now Hv). simpl.
  unfold Date.YearFromTime, Date.MonthFromTime, Date.DateFromTime, Date.MakeDay, Date.MakeDate.
  pose proof (civil_from_days_spec (Date.Day now)) as H.
  destruct (Date.civil_from_days (Date.Day now)) as [[y m] d]. simpl.
  destruct H as (Hm & Hd & Heq & _).
  rewrite (Z.div_small (m - 1) 12), (Z.mod_small (m - 1) 12) by lia.
  replace (y + 0) with y by lia. replace (m - 1 + 1) with m by lia.
  f_equal. unfold Date.TimeWithinDay, Date.Day, Date.msPerDay in *.
  pose proof (Z.div_mod now 86400000 ltac:(lia)). lia.
Qed.

(** ** Running the primitive computations *)

Lemma issue_run c w :
  issue c w = (if hd false (faults w) then Err StoreUnavailable else Ok tt, after_issue c w).
Proof.
  unfold issue, after_issue. destruct w as [db fs tr lg sf ts ps hs]. simpl.
  destruct fs as [|[] fs]; reflexivity.
Qed.

Lemma no_fault_head n w : no_fault (S n) w -> hd false (faults w) = false.
Proof.
  unfold no_fault. destruct (faults w) as [|b fs]; [reflexivity|].
  simpl. intros H. inversion H; subst. reflexivity.
Qed.

Lemma no_fault_after n c w : no_fault (S n) w -> no_fault n (after_issue c w).
Proof.
  unfold no_fault. simpl. destruct (faults w) as [|b fs]; simpl.
  - intros _. rewrite take_nil. constructor.
  - intros H. inversion H; subst. assumption.
Qed.

Lemma no_fault_log n l w : no_fault n (with_log l w) <-> no_fault n w.
Proof. reflexivity. Qed.

Lemma no_fault_store n db w : no_fault n (with_store db w) <-> no_fault n w.
Proof. reflexivity. Qed.

Lemma bind_run {A B} (m : M A) (k : A -> M B) w :
  bind m k w = match m w with
               | (Ok a, w') => k a w'
               | (Err e, w') => (Err e, w')
               end.
Proof. reflexivity. Qed.

Lemma format_iso_run date w :
  format_iso date w =
  match Date.toISOString date with
  | Some iso => (Ok iso, w)
  | None => (Err RangeError, w)
  end.
Proof. unfold format_iso. destruct (Date.toISOString date); reflexivity. Qed.

Lemma format_date_utc_run date w :
  format_date_utc date w =
  match date_part date with
  | Some s => (Ok s, w)
  | None => (Err RangeError, w)
  end.
Proof.
  unfold format_date_utc, date_part. rewrite bind_run, format_iso_run.
  destruct (Date.toISOString date); reflexivity.
Qed.

Lemma date_part_Time tv : date_part (Date.Time tv) = Some (Date.date_string (Date.Day tv)).
Proof.
  unfold date_part. simpl. f_equal.
  apply split_head. apply date_string_no_T.
Qed.

Lemma date_part_current now : day_min <= Date.Day now <= day_max ->
  date_part (Date.current now) = Some (spec_date (Date.Day now)).
Proof.
  intros H. unfold Date.current. rewrite TimeClip_valid by (apply in_range_valid; exact H).
  rewrite date_part_Time, date_string_spec by exact H. reflexivity.
Qed.

Lemma date_part_days_ago now n i : window_in_range now n -> 0 <= i < n ->
  date_part (get_date_days_ago now i) = Some (spec_date (Date.Day now - i)).
Proof.
  intros [H1 H2] Hi.
  assert (Hnow : day_min <= Date.Day now <= day_max) by lia.
  rewrite get_date_days_ago_shift by (apply in_range_valid; exact Hnow).
  assert (Hd : day_min <= Date.Day (now - i * Date.msPerDay) <= day_max)
    by (rewrite Day_shift; lia).
  rewrite TimeClip_valid by (apply in_range_valid; exact Hd).
  rewrite date_part_Time, date_string_spec by exact Hd.
  rewrite Day_shift. reflexivity.
Qed.

Lemma timestamp_spec now : day_min <= Date.Day now <= day_max ->
  Date.toISOString (Date.current now) = Some (spec_timestamp now).
Proof.
  intros H. unfold Date.current. rewrite TimeClip_valid by (apply in_range_valid; exact H).
  unfold Date.toISOString, spec_timestamp. rewrite date_string_spec by exact H.
  reflexivity.
Qed.

(** ** The loops of [trade_stats] *)

Lemma mapM_option_cons {A B} (f : A -> option B) x l :
  mapM f (x :: l) =
  match f x with
  | Some y => match mapM f l with Some k => Some (y :: k) | None => None end
  | None => None
  end.
Proof. simpl. destruct (f x); simpl; [|reflexivity]. destruct (mapM f l); reflexivity. Qed.

Lemma mapM_option_map {A B} (f : A -> option B) (g : A -> B) l :
  (forall x, x ∈ l -> f x = Some (g x)) -> mapM f l = Some (map g l).
Proof.
  induction l as [|x l IH]; intros H; [reflexivity|].
  rewrite mapM_option_cons, (H x) by constructor.
  rewrite IH by (intros y Hy; apply H; constructor; exact Hy). reflexivity.
Qed.

Lemma mapM_option_length {A B} (f : A -> option B) l : forall k,
  mapM f l = Some k -> length k = length l.
Proof.
  induction l as [|x l IH]; intros k H.
  - injection H as <-. reflexivity.
  - rewrite mapM_option_cons in H. destruct (f x); [|discriminate].
    destruct (mapM f l) as [k'|]; [|discriminate].
    injection H as <-. simpl. f_equal. apply IH. reflexivity.
Qed.

Lemma window_dates_spec now n : window_in_range now n ->
  window_dates now n = Some (map (fun i => spec_date (Date.Day now - i)) (seqZ 0 n)).
Proof.
  intros H. apply mapM_option_map. intros i Hi.
  apply elem_of_seqZ in Hi. apply (date_part_days_ago now n); [exact H | lia].
Qed.

Lemma window_dates_length now n ds :
  window_dates now n = Some ds -> length ds = Z.to_nat n.
Proof.
  intros H. apply mapM_option_length in H. rewrite H. apply length_seqZ.
Qed.

Lemma widget_keys_loop now indices : forall acc w,
  for_loop (fun i keys_30d =>
              let* date_key := format_date_utc (get_date_days_ago now i) in
              ret (keys_30d ++ [bucket_key date_key])) indices acc w =
  match mapM (fun i => date_part (get_date_days_ago now i)) indices with
  | Some ds => (Ok (acc ++ map bucket_key ds), w)
  | None => (Err RangeError, w)
  end.
Proof.
  induction indices as [|i rest IH]; intros acc w.
  - simpl. rewrite app_nil_r. reflexivity.
  - rewrite mapM_option_cons. simpl for_loop.
    rewrite !bind_run, format_date_utc_run.
    destruct (date_part (get_date_days_ago now i)) as [d|]; [|reflexivity].
    unfold ret at 1. rewrite IH.
    destruct (mapM _ rest) as [ds|]; [|reflexivity].
    simpl. rewrite <- app_assoc. reflexivity.
Qed.

Lemma count_keys_loop now indices : forall keys0 (dm0 : gmap string string) w,
  for_loop (fun i '(keys, date_map) =>
              let* date_key := format_date_utc (get_date_days_ago now i) in
              let key := bucket_key date_key in
              ret (keys ++ [key], <[key := date_key]> date_map))
           indices (keys0, dm0) w =
  match mapM (fun i => date_part (get_date_days_ago now i)) indices with
  | Some ds => (Ok (keys0 ++ map bucket_key ds,
                    foldl (fun m d => <[bucket_key d := d]> m) dm0 ds), w)
  | None => (Err RangeError, w)
  end.
Proof.
  induction indices as [|i rest IH]; intros keys0 dm0 w.
  - simpl. rewrite app_nil_r. reflexivity.
  - rewrite mapM_option_cons. simpl for_loop.
    rewrite !bind_run, format_date_utc_run.
    destruct (date_part (get_date_days_ago now i)) as [d|]; [|reflexivity].
    unfold ret at 1. rewrite IH.
    destruct (mapM _ rest) as [ds|]; [|reflexivity].
    simpl. rewrite <- app_assoc. reflexivity.
Qed.

(** The two accumulators of [get_widget_stats] after the [forEach]. *)
Lemma widget_forEach values : forall index c7 c30,
  forEach (fun val index '(count_7d, count_30d) =>
             let count := count_of val in
             let count_30d := JS.add count_30d count in
             (if (index <? 7)%nat then JS.add count_7d count else count_7d, count_30d))
          values index (c7, c30) =
  (foldl JS.add c7 (map count_of (take (7 - index) values)),
   foldl JS.add c30 (map count_of values)).
Proof.
  induction values as [|v rest IH]; intros index c7 c30.
  - simpl. rewrite take_nil. reflexivity.
  - simpl forEach. rewrite IH. destruct (index <? 7)%nat eqn:E.
    + apply Nat.ltb_lt in E.
      replace (7 - index)%nat with (S (7 - S index)) by lia. reflexivity.
    + apply Nat.ltb_ge in E.
      replace (7 - index)%nat with 0%nat by lia.
      replace (7 - S index)%nat with 0%nat by lia. reflexivity.
Qed.

(** The accumulators of [get_trade_count] after the [forEach], when the
    replies are those of the keys. *)
Lemma count_forEach (g : string -> option string) (date_map : gmap string string) keys :
  forall pre total (daily : gmap string JS.number),
  forEach (fun key index '(total, daily) =>
             let count := count_of (mjoin (map g (pre ++ keys) !! index)) in
             let date := default "undefined" (date_map !! key) in
             (JS.add total count, <[date := count]> daily))
          keys (length pre) (total, daily) =
  foldl (fun '(total, daily) key =>
           (JS.add total (count_of (g key)),
            <[default "undefined" (date_map !! key) := count_of (g key)]> daily))
        (total, daily) keys.
Proof.
  induction keys as [|k rest IH]; intros pre total daily; [reflexivity|].
  simpl forEach. simpl foldl.
  assert (E : map g (pre ++ k :: rest) !! length pre = Some (g k)).
  { rewrite list_lookup_fmap, lookup_app_r by lia.
    replace (length pre - length pre)%nat with 0%nat by lia. reflexivity. }
  rewrite E. simpl mjoin.
  specialize (IH (pre ++ [k])). rewrite length_app in IH. simpl in IH.
  replace (length pre + 1)%nat with (S (length pre)) in IH by lia.
  rewrite <- app_assoc in IH. simpl in IH.
  rewrite <- IH. reflexivity.
Qed.

(** ** Running [get_widget_stats] *)

Lemma get_widget_stats_run now w :
  trade_stats.get_widget_stats now w =
  let w1 := after_issue Redis.CONNECT w in
  if hd false (faults w) then (Err StoreUnavailable, w1) else
  match window_dates now 30 with
  | None => (Err RangeError, w1)
  | Some ds =>
      let keys := map bucket_key ds in
      let w2 := after_issue (Redis.MGET keys) w1 in
      if hd false (faults w1) then (Err StoreUnavailable, w2) else
      match keys with
      | [] => (Err ReplyError, w2)
      | _ =>
          let counts := window_counts now (store w) keys in
          let w3 := with_log (log w2 ++ [widget_log]) w2 in
          match Date.toISOString (Date.current now) with
          | Some iso =>
              (Ok (MkStats (sum_numbers (take 7 counts)) (sum_numbers counts) iso), w3)
          | None => (Err RangeError, w3)
          end
      end
  end.
Proof.
  unfold trade_stats.get_widget_stats, redis_connect, redis_mGet.
  rewrite bind_run, issue_run. cbv zeta.
  destruct (hd false (faults w)); [reflexivity|].
  rewrite bind_run, widget_keys_loop. fold (window_dates now 30).
  destruct (window_dates now 30) as [ds|]; [|reflexivity].
  rewrite app_nil_l. rewrite !bind_run, issue_run.
  destruct (hd false (faults (after_issue Redis.CONNECT w))); [reflexivity|].
  destruct (map bucket_key ds) as [|k keys] eqn:Ek; [reflexivity|].
  unfold Redis.mget. cbv iota beta.
  rewrite widget_forEach.
  rewrite bind_run. unfold logger at 1. rewrite bind_run, format_iso_run.
  change (store (after_issue (Redis.MGET (k :: keys)) (after_issue Redis.CONNECT w)))
    with (store w).
  unfold window_counts, sum_numbers. rewrite <- !firstn_map, !map_map.
  destruct (Date.toISOString (Date.current now)); reflexivity.
Qed.

(** ** Running [get_trade_count] *)

Lemma append_inj_l (a b c : string) : a +:+ b = a +:+ c -> b = c.
Proof.
  induction a as [|x a IH]; [trivial|].
  rewrite !append_cons. intros H. injection H as H. exact (IH H).
Qed.

Lemma bucket_key_inj a b : bucket_key a = bucket_key b -> a = b.
Proof.
  unfold bucket_key. intros H. apply append_inj_l in H. injection H as H. exact H.
Qed.

Lemma date_map_lookup ds : forall (dm : gmap string string) d, d ∈ ds ->
  foldl (fun m d => <[bucket_key d := d]> m) dm ds !! bucket_key d = Some d.
Proof.
  induction ds as [|x ds IH] using rev_ind; intros dm d Hd.
  - inversion Hd.
  - rewrite foldl_app. simpl. destruct (decide (x = d)) as [->|Hne].
    + apply lookup_insert_eq.
    + rewrite lookup_insert_ne by (intros E; apply Hne, bucket_key_inj, E).
      apply IH. apply elem_of_app in Hd as [Hd|Hd]; [exact Hd|].
      apply list_elem_of_singleton in Hd. congruence.
Qed.

Lemma count_fold_dates (g : string -> option string) (date_map : gmap string string) ds :
  (forall d, d ∈ ds -> date_map !! bucket_key d = Some d) ->
  forall total (daily : gmap string JS.number),
  foldl (fun '(total, daily) key =>
           (JS.add total (count_of (g key)),
            <[default "undefined" (date_map !! key) := count_of (g key)]> daily))
        (total, daily) (map bucket_key ds) =
  (foldl JS.add total (map (fun k => count_of (g k)) (map bucket_key ds)),
   foldl (fun m d => <[d := count_of (g (bucket_key d))]> m) daily ds).
Proof.
  induction ds as [|d ds IH]; intros H total daily; [reflexivity|].
  simpl. rewrite (H d) by constructor. simpl.
  apply IH. intros d' Hd'. apply H. constructor. exact Hd'.
Qed.

Lemma get_trade_count_run days now w :
  trade_stats.get_trade_count days now w =
  let w1 := after_issue Redis.CONNECT w in
  if hd false (faults w) then (Err StoreUnavailable, w1) else
  match window_dates now days with
  | None => (Err RangeError, w1)
  | Some ds =>
      let keys := map bucket_key ds in
      let w2 := after_issue (Redis.MGET keys) w1 in
      if hd false (faults w1) then (Err StoreUnavailable, w2) else
      match ds with
      | [] => (Err ReplyError, w2)
      | _ =>
          (Ok (MkTradeCount (sum_numbers (window_counts now (store w) keys))
                            (daily_map now (store w) ds)),
           with_log (log w2 ++ [count_log]) w2)
      end
  end.
Proof.
  unfold trade_stats.get_trade_count, redis_connect, redis_mGet.
  rewrite bind_run, issue_run. cbv zeta.
  destruct (hd false (faults w)); [reflexivity|].
  rewrite bind_run, count_keys_loop. fold (window_dates now days).
  destruct (window_dates now days) as [ds|]; [|reflexivity].
  rewrite app_nil_l. rewrite !bind_run, issue_run.
  destruct (hd false (faults (after_issue Redis.CONNECT w))); [reflexivity|].
  destruct ds as [|d ds]; [reflexivity|].
  set (dates := d :: ds).
  assert (Hk : Redis.mget now (store w) (map bucket_key dates) =
               Some (map (fun k => Redis.val <$> Redis.lookup now (store w) k)
                         (map bucket_key dates))) by reflexivity.
  change (store (after_issue (Redis.MGET (map bucket_key dates))
                   (after_issue Redis.CONNECT w))) with (store w).
  rewrite Hk.
  pose proof (count_forEach (fun k => Redis.val <$> Redis.lookup now (store w) k)
                (foldl (fun m d => <[bucket_key d := d]> m) ∅ dates)
                (map bucket_key dates) [] (JS.Int 0) ∅) as Hf.
  rewrite app_nil_l in Hf. simpl length in Hf. cbv zeta in Hf. rewrite Hf.
  rewrite count_fold_dates by (intros d' Hd'; apply date_map_lookup; exact Hd').
  reflexivity.
Qed.

(** ** Counts of well-formed buckets *)

Lemma prefix_append (a b : string) : String.prefix a (a +:+ b) = true.
Proof.
  induction a as [|x a IH]; [destruct b; reflexivity|].
  rewrite append_cons. simpl. destruct (ascii_dec x x); [exact IH | congruence].
Qed.

Lemma bucket_key_is_bucket_key d : is_bucket_key (bucket_key d) = true.
Proof.
  unfold is_bucket_key.
  change (bucket_key d) with ((KEY_PREFIX +:+ ":") +:+ d). apply prefix_append.
Qed.

Lemma bucket_key_spec_date day : bucket_key (spec_date day) = spec_key day.
Proof. reflexivity. Qed.

Lemma lookup_Some now db k e : Redis.lookup now db k = Some e -> db !! k = Some e.
Proof.
  unfold Redis.lookup. destruct (db !! k) as [e'|]; [|discriminate].
  destruct (Redis.live now e'); [congruence | discriminate].
Qed.

(** In a well-formed store every bucket is counted as the non-negative
    integer it holds, and a missing bucket as 0. *)
Lemma count_of_bucket now db d : store_ok db ->
  exists n, 0 <= n /\
    count_of (Redis.val <$> Redis.lookup now db (bucket_key d)) = JS.Int n /\
    n = match Redis.lookup now db (bucket_key d) with
        | Some e => default 0 (Redis.string2ll (Redis.val e))
        | None => 0
        end.
Proof.
  intros Hok. destruct (Redis.lookup now db (bucket_key d)) as [e|] eqn:E.
  - apply lookup_Some in E. pose proof (Hok _ _ (bucket_key_is_bucket_key d) E) as Hb.
    unfold bucket_ok in Hb. destruct (Redis.string2ll (Redis.val e)) as [n|] eqn:E2;
      [|discriminate].
    apply Z.leb_le in Hb. exists n. split; [exact Hb|]. split; [|reflexivity].
    simpl. apply count_of_integer; assumption.
  - exists 0. split; [lia|]. split; reflexivity.
Qed.

Lemma count_of_spec now db day : store_ok db ->
  count_of (Redis.val <$> Redis.lookup now db (spec_key day)) = JS.Int (spec_count db now day).
Proof.
  intros Hok. rewrite <- bucket_key_spec_date.
  destruct (count_of_bucket now db (spec_date day) Hok) as (n & _ & -> & ->).
  reflexivity.
Qed.

(** ** Sums *)

Lemma foldl_add_Int (zs : list Z) : forall a,
  foldl JS.add (JS.Int a) (map JS.Int zs) = JS.Int (a + foldr Z.add 0 zs).
Proof.
  induction zs as [|z zs IH]; intros a; simpl.
  - f_equal. lia.
  - rewrite IH. f_equal. lia.
Qed.

Lemma sum_numbers_Int (zs : list Z) : sum_numbers (map JS.Int zs) = JS.Int (foldr Z.add 0 zs).
Proof. unfold sum_numbers. rewrite foldl_add_Int. reflexivity. Qed.

Lemma foldr_add_take (zs : list Z) : Forall (fun z => 0 <= z) zs ->
  forall k, foldr Z.add 0 (take k zs) <= foldr Z.add 0 zs /\ 0 <= foldr Z.add 0 (take k zs).
Proof.
  induction 1 as [|z zs Hz Hzs IH]; intros k.
  - rewrite take_nil. simpl. lia.
  - destruct k as [|k]; simpl.
    + destruct (IH 0%nat) as [H1 H2]. rewrite take_0 in *. simpl in *. lia.
    + destruct (IH k). lia.
Qed.

(** A bucket that counts 0, or an index past the end, can be left out. *)
Lemma sum_delete_zero (l : list JS.number) : forall j a,
  l !! j = Some (JS.Int 0) \/ l !! j = None ->
  foldl JS.add a (delete j l) = foldl JS.add a l.
Proof.
  induction l as [|x l IH]; intros j a H; [reflexivity|].
  destruct j as [|j]; simpl in *.
  - destruct H as [H|H]; [|discriminate]. injection H as ->.
    f_equal. destruct a; simpl; [reflexivity | f_equal; lia].
  - apply IH. exact H.
Qed.

(** ** The daily breakdown *)

Lemma daily_map_lookup now db ds : forall d,
  daily_map now db ds !! d =
  if decide (d ∈ ds)
  then Some (count_of (Redis.val <$> Redis.lookup now db (bucket_key d)))
  else None.
Proof.
  unfold daily_map. induction ds as [|x ds IH] using rev_ind; intros d.
  - simpl. rewrite lookup_empty. destruct (decide (d ∈ [])) as [H|H]; [inversion H|reflexivity].
  - rewrite foldl_app. simpl. destruct (decide (x = d)) as [->|Hne].
    + rewrite lookup_insert_eq. rewrite decide_True by (apply elem_of_app; right; constructor).
      reflexivity.
    + rewrite lookup_insert_ne by exact Hne. rewrite IH.
      destruct (decide (d ∈ ds)) as [H|H].
      * rewrite decide_True by (apply elem_of_app; left; exact H). reflexivity.
      * rewrite decide_False; [reflexivity|].
        intros H'. apply elem_of_app in H' as [H'|H']; [contradiction|].
        apply list_elem_of_singleton in H'. congruence.
Qed.

Lemma add_comm_assoc (a b c : JS.number) : JS.add (JS.add a b) c = JS.add (JS.add a c) b.
Proof. destruct a, b, c; simpl; try reflexivity. f_equal. lia. Qed.

Lemma daily_sum_insert (m : gmap string JS.number) d v : m !! d = None ->
  daily_sum (<[d := v]> m) = JS.add (daily_sum m) v.
Proof.
  intros H. unfold daily_sum.
  rewrite (map_fold_insert_L (fun _ v acc => JS.add acc v)); [reflexivity| |exact H].
  intros. apply add_comm_assoc.
Qed.

Lemma foldl_add_shift (l : list JS.number) : forall a b,
  foldl JS.add (JS.add a b) l = JS.add (foldl JS.add a l) b.
Proof.
  induction l as [|x l IH]; intros a b; [reflexivity|].
  simpl. rewrite <- IH. f_equal. apply add_comm_assoc.
Qed.

Lemma daily_map_snoc now db ds x :
  daily_map now db (ds ++ [x]) =
  <[x := count_of (Redis.val <$> Redis.lookup now db (bucket_key x))]> (daily_map now db ds).
Proof. unfold daily_map. rewrite foldl_app. reflexivity. Qed.

(** With distinct date keys, the total is the sum of the breakdown, and the
    breakdown has one entry per date. *)
Lemma daily_map_sum now db ds : NoDup ds ->
  daily_sum (daily_map now db ds) = sum_numbers (window_counts now db (map bucket_key ds))
  /\ size (daily_map now db ds) = length ds.
Proof.
  induction ds as [|x ds IH] using rev_ind; intros Hnd.
  - split; reflexivity.
  - apply NoDup_app in Hnd as (Hnd & Hx & _). destruct (IH Hnd) as [IH1 IH2].
    rewrite daily_map_snoc.
    assert (Hfresh : daily_map now db ds !! x = None).
    { rewrite daily_map_lookup. apply decide_False.
      intros Hin. apply (Hx x Hin). constructor. }
    split.
    + rewrite daily_sum_insert by exact Hfresh. rewrite IH1.
      unfold sum_numbers, window_counts. rewrite !map_app, foldl_app. reflexivity.
    + rewrite map_size_insert_None by exact Hfresh. rewrite IH2, length_app. simpl. lia.
Qed.

(** ** The aggregator *)

Lemma window_keys_spec now n ds : window_in_range now n ->
  window_dates now n = Some ds ->
  map bucket_key ds = spec_window_keys (Date.Day now) n.
Proof.
  intros Hr H. rewrite (window_dates_spec now n Hr) in H. injection H as <-.
  unfold spec_window_keys. rewrite map_map. reflexivity.
Qed.

Lemma window_counts_spec now db today n : store_ok db ->
  window_counts now db (spec_window_keys today n) =
  map JS.Int (map (fun i => spec_count db now (today - i)) (seqZ 0 n)).
Proof.
  intros Hok. unfold window_counts, spec_window_keys. rewrite !map_map.
  apply map_ext. intros i. apply count_of_spec. exact Hok.
Qed.

Lemma no_fault_2 w : no_fault 2 w ->
  hd false (faults w) = false /\ hd false (faults (after_issue Redis.CONNECT w)) = false.
Proof.
  intros H. split; [exact (no_fault_head 1 w H)|].
  apply (no_fault_head 0). apply no_fault_after. exact H.
Qed.

(** Under no fault and with the window in range, the call succeeds. *)
Lemma get_widget_stats_ok now w : window_in_range now 30 -> no_fault 2 w ->
  trade_stats.get_widget_stats now w =
  (Ok (MkStats
         (sum_numbers (take 7 (window_counts now (store w) (spec_window_keys (Date.Day now) 30))))
         (sum_numbers (window_counts now (store w) (spec_window_keys (Date.Day now) 30)))
         (spec_timestamp now)),
   with_log (log w ++ [widget_log])
     (after_issue (Redis.MGET (spec_window_keys (Date.Day now) 30))
        (after_issue Redis.CONNECT w))).
Proof.
  intros Hr Hf. rewrite get_widget_stats_run. cbv zeta.
  destruct (no_fault_2 w Hf) as [-> ->].
  destruct (window_dates now 30) as [ds|] eqn:E;
    [|rewrite (window_dates_spec now 30 Hr) in E; discriminate].
  rewrite (window_keys_spec now 30 ds Hr E).
  rewrite timestamp_spec by (unfold window_in_range in Hr; lia).
  reflexivity.
Qed.

(** C1. For a store whose buckets hold non-negative integers that add up,
    over the window, to a safe integer (at most 2^53 - 1, so that the doubles
    of the code are exact), an instant whose 30-day window lies in the years
    0000-9999 and a store that answers, [get_widget_stats] returns the
    statistics of the reference algorithm:
    the keys are the 30 keys [trade:daily_count:YYYY-MM-DD] of today
    (offset 0) to 29 days ago, in that order; they are fetched by one MGET
    after the connection; [trades_7d] is the sum of the counts at offsets
    0 to 6, [trades_30d] the sum of the 30 counts, and [last_updated] is the
    instant in ISO 8601, UTC.  The store is left as it was. *)
Theorem get_widget_stats_reference now w :
  window_in_range now 30 -> store_ok (store w) -> window_safe (store w) now 30 ->
  no_fault 2 w ->
  let keys := spec_window_keys (Date.Day now) 30 in
  let out := trade_stats.get_widget_stats now w in
  out.1 = Ok (spec_widget_stats (store w) now) /\
  length keys = 30%nat /\
  trace out.2 = trace w ++ [Redis.CONNECT; Redis.MGET keys] /\
  store out.2 = store w.
Proof.
  intros Hr Hok _ Hf keys out. subst out.
  rewrite (get_widget_stats_ok now w Hr Hf). cbn [fst snd].
  split; [|split; [reflexivity|split]].
  - f_equal. unfold spec_widget_stats, spec_sum.
    rewrite (window_counts_spec now (store w) (Date.Day now) 30 Hok).
    rewrite <- !sum_numbers_Int. reflexivity.
  - simpl. rewrite <- app_assoc. reflexivity.
  - reflexivity.
Qed.

Lemma demo_store_ok : store_ok demo_store.
Proof.
  intros k e _ H. unfold demo_store in H.
  apply lookup_singleton_Some in H as [_ <-]. reflexivity.
Qed.

Lemma demo_in_range n : 1 <= n <= 30 -> window_in_range demo_now n.
Proof. intros H. unfold window_in_range, day_min, day_max. change (Date.Day demo_now) with 20438. lia. Qed.

Lemma demo_no_fault n : no_fault n demo_world.
Proof. unfold no_fault. simpl. rewrite take_nil. constructor. Qed.

Lemma demo_safe n : 1 <= n <= 30 -> window_safe demo_store demo_now n.
Proof.
  intros Hn. unfold window_safe.
  assert (H : spec_sum (spec_count demo_store demo_now) (Date.Day demo_now) n <= 3);
    [|unfold JS.MAX_SAFE_INTEGER; lia].
  unfold spec_sum. rewrite (seqZ_cons 0 n) by lia. cbn [map foldr].
  assert (H0 : spec_count demo_store demo_now (Date.Day demo_now - 0) = 3)
    by (vm_compute; reflexivity).
  rewrite H0.
  assert (Hz : forall l, Forall (fun i => 1 <= i <= 29) l ->
            foldr Z.add 0 (map (fun i => spec_count demo_store demo_now (Date.Day demo_now - i)) l)
            = 0).
  { induction 1 as [|i l Hi _ IH]; [reflexivity|]. cbn [map foldr]. rewrite IH.
    unfold spec_count, Redis.lookup, demo_store.
    rewrite lookup_singleton_ne; [reflexivity|].
    intros Heq. change "trade:daily_count:2025-12-16" with (spec_key (Date.Day demo_now)) in Heq.
    rewrite <- !bucket_key_spec_date in Heq. apply bucket_key_inj, spec_date_inj in Heq.
    - lia.
    - change (Date.Day demo_now) with 20438. unfold day_min, day_max. lia.
    - change (Date.Day demo_now) with 20438. unfold day_min, day_max. lia. }
  rewrite Hz; [lia|]. apply Forall_forall. intros i Hi. apply elem_of_seqZ in Hi. lia.
Qed.

Lemma get_widget_stats_reference_witness :
  (trade_stats.get_widget_stats demo_now demo_world).1 =
  Ok (spec_widget_stats demo_store demo_now).
Proof.
  apply (get_widget_stats_reference demo_now demo_world).
  - apply demo_in_range. lia.
  - exact demo_store_ok.
  - apply demo_safe. lia.
  - apply demo_no_fault.
Defined.

(** What a successful call of [get_widget_stats] returns, for any store. *)
Lemma get_widget_stats_inv now w s w' :
  trade_stats.get_widget_stats now w = (Ok s, w') ->
  exists ds, window_dates now 30 = Some ds /\
    trades_7d s = sum_numbers (take 7 (window_counts now (store w) (map bucket_key ds))) /\
    trades_30d s = sum_numbers (window_counts now (store w) (map bucket_key ds)).
Proof.
  rewrite get_widget_stats_run. cbv zeta.
  destruct (hd false (faults w)); [discriminate|].
  destruct (window_dates now 30) as [ds|]; [|discriminate].
  destruct (hd false (faults (after_issue Redis.CONNECT w))); [discriminate|].
  destruct (map bucket_key ds) as [|k keys] eqn:Ek; [discriminate|].
  destruct (Date.toISOString (Date.current now)); [|discriminate].
  intros H. injection H as <- _. exists ds. rewrite Ek. auto.
Qed.

Lemma window_counts_nonneg now db ds : store_ok db ->
  exists zs, Forall (fun z => 0 <= z) zs /\
    window_counts now db (map bucket_key ds) = map JS.Int zs.
Proof.
  intros Hok. induction ds as [|d ds (zs & Hzs & IH)].
  - exists []. split; [constructor | reflexivity].
  - destruct (count_of_bucket now db d Hok) as (n & Hn & Hc & _).
    exists (n :: zs). split; [constructor; assumption|].
    unfold window_counts in *. simpl. rewrite Hc, IH. reflexivity.
Qed.

(** C2. For a store whose buckets hold non-negative integers, the
    statistics returned by [get_widget_stats] satisfy
    [trades_7d <= trades_30d]: the seven counts summed into [trades_7d] are
    the first seven of the thirty summed into [trades_30d].  With the window
    in the years 0000-9999 and a store that answers, the call does return
    statistics. *)
Theorem trades_7d_le_trades_30d now w :
  store_ok (store w) ->
  (forall s w', trade_stats.get_widget_stats now w = (Ok s, w') ->
     JS.le (trades_7d s) (trades_30d s) = true) /\
  (window_in_range now 30 -> no_fault 2 w ->
     exists s, (trade_stats.get_widget_stats now w).1 = Ok s).
Proof.
  intros Hok. split.
  - intros s w' H. apply get_widget_stats_inv in H as (ds & _ & -> & ->).
    destruct (window_counts_nonneg now (store w) ds Hok) as (zs & Hzs & ->).
    rewrite firstn_map, !sum_numbers_Int. simpl.
    apply Z.leb_le. apply (foldr_add_take zs Hzs).
  - intros Hr Hf. rewrite (get_widget_stats_ok now w Hr Hf). eauto.
Qed.

Lemma trades_7d_le_trades_30d_witness :
  exists s, (trade_stats.get_widget_stats demo_now demo_world).1 = Ok s /\
            JS.le (trades_7d s) (trades_30d s) = true.
Proof.
  destruct (trades_7d_le_trades_30d demo_now demo_world demo_store_ok) as [Hle Hex].
  destruct (Hex (demo_in_range 30 ltac:(lia)) (demo_no_fault 2)) as [s Hs].
  exists s. split; [exact Hs|].
  apply (Hle s (trade_stats.get_widget_stats demo_now demo_world).2).
  rewrite <- Hs. apply surjective_pairing.
Defined.

(** ** The general-purpose variant *)

Lemma window_in_range_le now n m : 1 <= m <= n ->
  window_in_range now n -> window_in_range now m.
Proof. unfold window_in_range. lia. Qed.

Lemma get_trade_count_ok days now w :
  window_in_range now days -> 1 <= days -> no_fault 2 w ->
  let ds := map (fun i => spec_date (Date.Day now - i)) (seqZ 0 days) in
  trade_stats.get_trade_count days now w =
  (Ok (MkTradeCount
         (sum_numbers (window_counts now (store w) (spec_window_keys (Date.Day now) days)))
         (daily_map now (store w) ds)),
   with_log (log w ++ [count_log])
     (after_issue (Redis.MGET (spec_window_keys (Date.Day now) days))
        (after_issue Redis.CONNECT w))).
Proof.
  intros Hr Hd Hf ds. rewrite get_trade_count_run. cbv zeta.
  destruct (no_fault_2 w Hf) as [-> ->].
  rewrite (window_dates_spec now days Hr). fold ds.
  assert (Hk : map bucket_key ds = spec_window_keys (Date.Day now) days).
  { apply (window_keys_spec now days ds Hr). apply window_dates_spec. exact Hr. }
  rewrite Hk.
  destruct ds as [|d ds'] eqn:E; [|reflexivity].
  apply (f_equal length) in E. subst ds. rewrite length_map, length_seqZ in E.
  simpl in E. lia.
Qed.

Lemma spec_window_keys_take today n m : 0 <= m <= n ->
  spec_window_keys today m = take (Z.to_nat m) (spec_window_keys today n).
Proof.
  intros H. unfold spec_window_keys. rewrite firstn_map. f_equal.
  apply list_eq. intros j. rewrite lookup_take.
  destruct (decide (j < Z.to_nat m)%nat) as [Hj|Hj].
  - rewrite !lookup_seqZ_lt by lia. reflexivity.
  - rewrite lookup_seqZ_ge by lia. reflexivity.
Qed.

Lemma window_counts_take now db keys k :
  window_counts now db (take k keys) = take k (window_counts now db keys).
Proof. unfold window_counts. symmetry; apply firstn_map. Qed.

Lemma window_dates_NoDup now n : window_in_range now n ->
  NoDup (map (fun i => spec_date (Date.Day now - i)) (seqZ 0 n)).
Proof.
  intros [H1 H2]. apply (NoDup_fmap_2_strong (fun i => spec_date (Date.Day now - i))).
  - intros i j Hi Hj Heq. apply elem_of_seqZ in Hi, Hj.
    apply spec_date_inj in Heq; lia.
  - apply NoDup_seqZ.
Qed.

Lemma window_dates_elem now n d :
  d ∈ map (fun i => spec_date (Date.Day now - i)) (seqZ 0 n) <->
  exists i, 0 <= i < n /\ d = spec_date (Date.Day now - i).
Proof.
  rewrite (list_elem_of_fmap (fun i => spec_date (Date.Day now - i))). split.
  - intros (i & -> & Hi). apply elem_of_seqZ in Hi. exists i. split; [lia | reflexivity].
  - intros (i & Hi & ->). exists i. split; [reflexivity|]. apply elem_of_seqZ. lia.
Qed.

(** C9. The widget path and the general-purpose variant agree, read from
    the same store at the same instant: [trades_7d] is the total of
    [get_trade_count 7] and [trades_30d] the total of [get_trade_count 30];
    the total of [get_trade_count days] is the sum of the values of its
    daily mapping, and that mapping has one entry for each date of the
    window of [days] days and no other. *)
Theorem widget_agrees_with_trade_count now w days :
  window_in_range now 30 -> window_in_range now days -> 1 <= days -> no_fault 2 w ->
  exists s c7 c30 c,
    (trade_stats.get_widget_stats now w).1 = Ok s /\
    (trade_stats.get_trade_count 7 now w).1 = Ok c7 /\
    (trade_stats.get_trade_count 30 now w).1 = Ok c30 /\
    (trade_stats.get_trade_count days now w).1 = Ok c /\
    trades_7d s = total c7 /\
    trades_30d s = total c30 /\
    total c = daily_sum (daily c) /\
    size (daily c) = Z.to_nat days /\
    forall d, is_Some (daily c !! d) <->
              exists i, 0 <= i < days /\ d = spec_date (Date.Day now - i).
Proof.
  intros H30 Hr Hd Hf.
  pose proof (window_in_range_le now 30 7 ltac:(lia) H30) as H7.
  rewrite (get_widget_stats_ok now w H30 Hf).
  rewrite (get_trade_count_ok 7 now w H7 ltac:(lia) Hf).
  rewrite (get_trade_count_ok 30 now w H30 ltac:(lia) Hf).
  rewrite (get_trade_count_ok days now w Hr Hd Hf).
  cbv zeta. cbn [fst snd].
  eexists _, _, _, _. do 4 (split; [reflexivity|]). cbn [total daily trades_7d trades_30d].
  split; [|split; [reflexivity|]].
  { rewrite (spec_window_keys_take (Date.Day now) 30 7) by lia.
    rewrite window_counts_take. reflexivity. }
  pose proof (window_dates_NoDup now days Hr) as Hnd.
  destruct (daily_map_sum now (store w) _ Hnd) as [Hsum Hsize].
  split; [|split].
  - rewrite Hsum. unfold spec_window_keys. rewrite map_map. reflexivity.
  - rewrite Hsize, length_map, length_seqZ. reflexivity.
  - intros d. rewrite daily_map_lookup, <- window_dates_elem.
    destruct (decide _) as [Hin|Hin]; split; intros H; try assumption.
    + eauto.
    + destruct H as [? H]. discriminate.
    + contradiction.
Qed.

Lemma widget_agrees_with_trade_count_witness :
  exists s c7, (trade_stats.get_widget_stats demo_now demo_world).1 = Ok s /\
               (trade_stats.get_trade_count 7 demo_now demo_world).1 = Ok c7 /\
               trades_7d s = total c7.
Proof.
  destruct (widget_agrees_with_trade_count demo_now demo_world 7
              (demo_in_range 30 ltac:(lia)) (demo_in_range 7 ltac:(lia))
              ltac:(lia) (demo_no_fault 2))
    as (s & c7 & _ & _ & Hs & Hc & _ & _ & H & _).
  exists s, c7. auto.
Defined.

(** ** Absent buckets *)

Lemma window_counts_lookup now db today n i : 0 <= i < n ->
  window_counts now db (spec_window_keys today n) !! Z.to_nat i =
  Some (count_of (Redis.val <$> Redis.lookup now db (spec_key (today - i)))).
Proof.
  intros Hi. unfold window_counts, spec_window_keys. rewrite map_map.
  rewrite (list_lookup_fmap (fun i => count_of (Redis.val <$> Redis.lookup now db (spec_key (today - i))))).
  rewrite lookup_seqZ_lt by lia. simpl.
  replace (0 + Z.of_nat (Z.to_nat i)) with i by lia. reflexivity.
Qed.

(** C5. A date of the window that has no bucket (the key is absent, or
    has expired) counts as 0 and the reads succeed: its count in the batched
    reply is 0; [trades_30d], [trades_7d] and [total] are the sums of the
    other counts; and the daily mapping has the entry 0 for that date. *)
Theorem absent_bucket_counts_zero now w days i :
  window_in_range now 30 -> window_in_range now days -> no_fault 2 w ->
  0 <= i < 30 ->
  Redis.lookup now (store w) (spec_key (Date.Day now - i)) = None ->
  let counts := window_counts now (store w) (spec_window_keys (Date.Day now) 30) in
  exists s,
    (trade_stats.get_widget_stats now w).1 = Ok s /\
    counts !! Z.to_nat i = Some (JS.Int 0) /\
    trades_30d s = sum_numbers (delete (Z.to_nat i) counts) /\
    trades_7d s = sum_numbers (delete (Z.to_nat i) (take 7 counts)) /\
    (i < days ->
     exists c,
       (trade_stats.get_trade_count days now w).1 = Ok c /\
       total c = sum_numbers (delete (Z.to_nat i)
                   (window_counts now (store w) (spec_window_keys (Date.Day now) days))) /\
       daily c !! spec_date (Date.Day now - i) = Some (JS.Int 0)).
Proof.
  intros H30 Hr Hf Hi Habs counts.
  rewrite (get_widget_stats_ok now w H30 Hf). cbn [fst].
  assert (Hc : counts !! Z.to_nat i = Some (JS.Int 0)).
  { unfold counts. rewrite window_counts_lookup by lia. rewrite Habs. reflexivity. }
  eexists. split; [reflexivity|]. cbn [trades_7d trades_30d]. fold counts.
  split; [exact Hc|]. unfold sum_numbers. split; [|split].
  - symmetry. apply sum_delete_zero. left. exact Hc.
  - symmetry. apply sum_delete_zero. rewrite lookup_take.
    destruct (decide _); [left; exact Hc | right; reflexivity].
  - intros Hlt. rewrite (get_trade_count_ok days now w Hr ltac:(lia) Hf).
    cbv zeta. cbn [fst]. eexists. split; [reflexivity|]. cbn [total daily]. split.
    + symmetry. apply sum_delete_zero. left.
      rewrite window_counts_lookup by lia. rewrite Habs. reflexivity.
    + rewrite daily_map_lookup. rewrite decide_True.
      * rewrite bucket_key_spec_date, Habs. reflexivity.
      * apply window_dates_elem. exists i. split; [lia | reflexivity].
Qed.

Lemma demo_yesterday_absent :
  Redis.lookup demo_now (store demo_world) (spec_key (Date.Day demo_now - 1)) = None.
Proof. vm_compute. reflexivity. Qed.

Lemma absent_bucket_counts_zero_witness :
  exists s, (trade_stats.get_widget_stats demo_now demo_world).1 = Ok s /\
    trades_30d s =
    sum_numbers (delete 1%nat
      (window_counts demo_now demo_store (spec_window_keys (Date.Day demo_now) 30))).
Proof.
  destruct (absent_bucket_counts_zero demo_now demo_world 7 1
              (demo_in_range 30 ltac:(lia)) (demo_in_range 7 ltac:(lia))
              (demo_no_fault 2) ltac:(lia) demo_yesterday_absent)
    as (s & Hs & _ & H30 & _).
  exists s. split; assumption.
Defined.

(** ** What the totals depend on *)

Lemma window_counts_ext now1 now2 db1 db2 keys :
  (forall k, k ∈ keys ->
     Redis.val <$> Redis.lookup now1 db1 k = Redis.val <$> Redis.lookup now2 db2 k) ->
  window_counts now1 db1 keys = window_counts now2 db2 keys.
Proof.
  intros H. unfold window_counts. apply map_ext_in. intros k Hk.
  rewrite (H k); [reflexivity|]. apply list_elem_of_In. exact Hk.
Qed.

(** Two reads on the same UTC date, over stores that answer alike for the
    30 keys of the window, return the same totals. *)
Lemma widget_totals_agree now1 now2 w1 w2 :
  Date.Day now1 = Date.Day now2 ->
  window_in_range now1 30 -> no_fault 2 w1 -> no_fault 2 w2 ->
  (forall k, k ∈ spec_window_keys (Date.Day now1) 30 ->
     Redis.val <$> Redis.lookup now1 (store w1) k =
     Redis.val <$> Redis.lookup now2 (store w2) k) ->
  exists s1 s2,
    (trade_stats.get_widget_stats now1 w1).1 = Ok s1 /\
    (trade_stats.get_widget_stats now2 w2).1 = Ok s2 /\
    trades_7d s1 = trades_7d s2 /\ trades_30d s1 = trades_30d s2 /\
    last_updated s1 = spec_timestamp now1 /\ last_updated s2 = spec_timestamp now2.
Proof.
  intros Hday Hr1 Hf1 Hf2 Hkeys.
  assert (Hr2 : window_in_range now2 30) by (unfold window_in_range in *; rewrite <- Hday; exact Hr1).
  rewrite (get_widget_stats_ok now1 w1 Hr1 Hf1), (get_widget_stats_ok now2 w2 Hr2 Hf2).
  cbn [fst]. eexists _, _. do 2 (split; [reflexivity|]). cbn [trades_7d trades_30d last_updated].
  rewrite <- Hday. rewrite (window_counts_ext now1 now2 (store w1) (store w2) _ Hkeys).
  auto.
Qed.

Lemma lookup_ext now db1 db2 k : db1 !! k = db2 !! k ->
  Redis.lookup now db1 k = Redis.lookup now db2 k.
Proof. unfold Redis.lookup. intros ->. reflexivity. Qed.

(** C10. At an instant whose window lies in the years 0000-9999 and with
    a store that answers, the totals returned by [get_widget_stats] are a
    function of the store's contents at the 30 keys of the window: two
    stores that agree on these keys give the same [trades_7d] and
    [trades_30d], whatever their other keys hold.  A second call that follows
    on the same UTC date, with no increment in between and no bucket of the
    window expiring in between, returns the same totals; [last_updated] is
    the instant of each call. *)
Theorem widget_totals_depend_on_window_only now w1 w2 :
  window_in_range now 30 -> no_fault 2 w1 -> no_fault 2 w2 ->
  (forall k, k ∈ spec_window_keys (Date.Day now) 30 -> store w1 !! k = store w2 !! k) ->
  exists s1 s2,
    (trade_stats.get_widget_stats now w1).1 = Ok s1 /\
    (trade_stats.get_widget_stats now w2).1 = Ok s2 /\
    trades_7d s1 = trades_7d s2 /\ trades_30d s1 = trades_30d s2 /\
    forall now',
      Date.Day now' = Date.Day now -> no_fault 4 w1 ->
      (forall k, k ∈ spec_window_keys (Date.Day now) 30 ->
         Redis.lookup now' (store w1) k = Redis.lookup now (store w1) k) ->
      exists s',
        (trade_stats.get_widget_stats now' (trade_stats.get_widget_stats now w1).2).1 = Ok s' /\
        trades_7d s' = trades_7d s1 /\ trades_30d s' = trades_30d s1 /\
        last_updated s1 = spec_timestamp now /\ last_updated s' = spec_timestamp now'.
Proof.
  intros Hr Hf1 Hf2 Hkeys.
  destruct (widget_totals_agree now now w1 w2 eq_refl Hr Hf1 Hf2) as (s1 & s2 & H1 & H2 & H7 & H30 & _).
  { intros k Hk. rewrite (lookup_ext now _ _ k (Hkeys k Hk)). reflexivity. }
  exists s1, s2. do 4 (split; [assumption|]).
  intros now' Hday Hf4 Hlive.
  set (w' := (trade_stats.get_widget_stats now w1).2).
  assert (Hw' : store w' = store w1 /\ no_fault 2 w').
  { subst w'. rewrite (get_widget_stats_ok now w1 Hr Hf1). cbn [snd]. split; [reflexivity|].
    apply no_fault_log. do 2 apply no_fault_after. exact Hf4. }
  destruct Hw' as [Hst Hf'].
  destruct (widget_totals_agree now now' w1 w' (eq_sym Hday) Hr Hf1 Hf')
    as (t1 & s' & Ht1 & Hs' & E7 & E30 & L1 & L').
  { intros k Hk. rewrite Hst, (Hlive k Hk). reflexivity. }
  rewrite H1 in Ht1. injection Ht1 as <-.
  exists s'. auto.
Qed.

Lemma window_keys_are_bucket_keys today n k :
  k ∈ spec_window_keys today n -> is_bucket_key k = true.
Proof.
  unfold spec_window_keys. rewrite (list_elem_of_fmap (fun i => spec_key (today - i))).
  intros (i & -> & _). rewrite <- bucket_key_spec_date. apply bucket_key_is_bucket_key.
Qed.

Lemma widget_totals_depend_on_window_only_witness :
  exists s1 s2,
    (trade_stats.get_widget_stats demo_now demo_world).1 = Ok s1 /\
    (trade_stats.get_widget_stats demo_now (with_store demo_store_2 demo_world)).1 = Ok s2 /\
    trades_7d s1 = trades_7d s2 /\ trades_30d s1 = trades_30d s2.
Proof.
  destruct (widget_totals_depend_on_window_only demo_now demo_world
              (with_store demo_store_2 demo_world)
              (demo_in_range 30 ltac:(lia)) (demo_no_fault 2) (demo_no_fault 2))
    as (s1 & s2 & H1 & H2 & H7 & H30 & _).
  - intros k Hk. simpl. unfold demo_store_2. rewrite lookup_insert_ne; [reflexivity|].
    intros <-. apply window_keys_are_bucket_keys in Hk. discriminate.
  - exists s1, s2. auto.
Defined.

(** ** Running [record_trade] *)

Lemma record_trade_run now w :
  trade_stats.record_trade now w =
  let w1 := after_issue Redis.CONNECT w in
  if hd false (faults w) then (Err StoreUnavailable, w1) else
  match date_part (Date.current now) with
  | None => (Err RangeError, w1)
  | Some d =>
      let key := bucket_key d in
      let w2 := after_issue (Redis.INCR key) w1 in
      if hd false (faults w1) then (Err StoreUnavailable, w2) else
      match Redis.incr now (store w) key with
      | None => (Err ReplyError, w2)
      | Some (n, db) =>
          let w3 := with_store db w2 in
          if n =? 1 then
            let w4 := after_issue (Redis.EXPIRE key retention_seconds) w3 in
            if hd false (faults w2) then (Err StoreUnavailable, w4) else
            (Ok n, with_log (log w ++ [record_log])
                     (with_store (Redis.expire now db key retention_seconds).2 w4))
          else (Ok n, with_log (log w ++ [record_log]) w3)
      end
  end.
Proof.
  unfold trade_stats.record_trade, redis_connect, redis_incr, redis_expire.
  rewrite bind_run, issue_run. cbv zeta.
  destruct (hd false (faults w)); [reflexivity|].
  rewrite bind_run, format_date_utc_run.
  destruct (date_part (Date.current now)) as [d|]; [|reflexivity].
  rewrite !bind_run, issue_run.
  destruct (hd false (faults (after_issue Redis.CONNECT w))); [reflexivity|].
  change (store (after_issue (Redis.INCR (bucket_key d)) (after_issue Redis.CONNECT w)))
    with (store w).
  destruct (Redis.incr now (store w) (bucket_key d)) as [[n db]|]; [|reflexivity].
  destruct (n =? 1); [|reflexivity].
  rewrite !bind_run, issue_run. cbn [faults with_store].
  match goal with |- context [hd false (faults ?x)] => destruct (hd false (faults x)) end;
    [reflexivity|].
  change (35 * 24 * 60 * 60) with retention_seconds.
  match goal with |- context [Redis.expire now (store ?x)] => change (store x) with db end.
  destruct (Redis.expire now db (bucket_key d) retention_seconds) as [b db']. reflexivity.
Qed.

Lemma no_fault_weaken n m w : (m <= n)%nat -> no_fault n w -> no_fault m w.
Proof.
  unfold no_fault. intros Hle H.
  replace m with (min m n) by lia. rewrite <- take_take. apply Forall_take. exact H.
Qed.

Lemma incr_absent now db key : Redis.lookup now db key = None ->
  Redis.incr now db key = Some (1, <[key := Redis.Entry "1" None]> db).
Proof. unfold Redis.incr. intros ->. reflexivity. Qed.

Lemma incr_present now db key e n :
  Redis.lookup now db key = Some e -> Redis.string2ll (Redis.val e) = Some n ->
  n < Redis.LLONG_MAX ->
  Redis.incr now db key =
  Some (n + 1, <[key := Redis.Entry (JS.string_of_Z (n + 1)) (Redis.deadline e)]> db).
Proof.
  unfold Redis.incr. intros -> -> H. apply Z.ltb_lt in H. rewrite H. reflexivity.
Qed.

Lemma lookup_live now db key e :
  db !! key = Some e -> Redis.live now e = true -> Redis.lookup now db key = Some e.
Proof. unfold Redis.lookup. intros -> ->. reflexivity. Qed.

Lemma expire_fresh now db key v seconds :
  Redis.expire now (<[key := Redis.Entry v None]> db) key seconds =
  (true, <[key := Redis.Entry v (Some (now + seconds * 1000))]> db).
Proof.
  unfold Redis.expire.
  rewrite (lookup_live now _ key (Redis.Entry v None)); [|apply lookup_insert_eq|reflexivity].
  simpl. rewrite insert_insert_eq. reflexivity.
Qed.

(** The first trade of a day: the bucket is created with the value 1 and
    given its deadline. *)
Lemma record_trade_first now w :
  day_min <= Date.Day now <= day_max ->
  Redis.lookup now (store w) (spec_key (Date.Day now)) = None ->
  no_fault 3 w ->
  let key := spec_key (Date.Day now) in
  exists w',
    trade_stats.record_trade now w = (Ok 1, w') /\
    store w' = <[key := Redis.Entry "1" (Some (now + retention_ms))]> (store w) /\
    trace w' = trace w ++ [Redis.CONNECT; Redis.INCR key; Redis.EXPIRE key retention_seconds] /\
    log w' = log w ++ [record_log] /\
    forall m, no_fault (3 + m) w -> no_fault m w'.
Proof.
  intros Hr Habs Hf key. rewrite record_trade_run. cbv zeta.
  rewrite (no_fault_head 2 w Hf).
  rewrite (date_part_current now Hr), bucket_key_spec_date. fold key.
  rewrite (no_fault_head 1 _ (no_fault_after 2 _ w Hf)).
  rewrite (incr_absent now (store w) key Habs). cbn [Z.eqb Pos.eqb].
  rewrite (no_fault_head 0 _ (no_fault_after 1 _ _ (no_fault_after 2 _ w Hf))).
  rewrite expire_fresh. eexists. split; [reflexivity|]. cbn [snd].
  split; [reflexivity|]. split; [|split; [reflexivity|]].
  - simpl. rewrite <- !app_assoc. reflexivity.
  - intros m Hm. apply no_fault_log, no_fault_store. apply no_fault_after.
    apply (no_fault_store (S m)). do 2 apply no_fault_after. exact Hm.
Qed.

(** A later trade: the value goes up by one, the deadline stays, and no
    EXPIRE is issued. *)
Lemma record_trade_next now w e n :
  day_min <= Date.Day now <= day_max ->
  Redis.lookup now (store w) (spec_key (Date.Day now)) = Some e ->
  Redis.string2ll (Redis.val e) = Some n -> n <> 0 -> n < Redis.LLONG_MAX ->
  no_fault 2 w ->
  let key := spec_key (Date.Day now) in
  exists w',
    trade_stats.record_trade now w = (Ok (n + 1), w') /\
    store w' = <[key := Redis.Entry (JS.string_of_Z (n + 1)) (Redis.deadline e)]> (store w) /\
    trace w' = trace w ++ [Redis.CONNECT; Redis.INCR key] /\
    log w' = log w ++ [record_log] /\
    forall m, no_fault (2 + m) w -> no_fault m w'.
Proof.
  intros Hr Hlook Hval Hn0 Hmax Hf key. rewrite record_trade_run. cbv zeta.
  rewrite (no_fault_head 1 w Hf).
  rewrite (date_part_current now Hr), bucket_key_spec_date. fold key.
  rewrite (no_fault_head 0 _ (no_fault_after 1 _ w Hf)).
  rewrite (incr_present now (store w) key e n Hlook Hval Hmax).
  destruct (n + 1 =? 1) eqn:E; [apply Z.eqb_eq in E; lia|].
  eexists. split; [reflexivity|]. split; [reflexivity|]. split; [|split; [reflexivity|]].
  - simpl. rewrite <- !app_assoc. reflexivity.
  - intros m Hm. apply no_fault_log, no_fault_store. do 2 apply no_fault_after. exact Hm.
Qed.

(** An instant of a day comes before the deadline given on that day. *)
Lemma same_day_before_deadline t1 t :
  Date.Day t = Date.Day t1 -> t < t1 + retention_ms.
Proof.
  intros H. pose proof (Day_bounds t) as Ht. pose proof (Day_bounds t1) as Ht1.
  rewrite H in Ht. unfold retention_ms, retention_seconds, Date.msPerDay in *. lia.
Qed.

Lemma record_trades_cons now rest w :
  record_trades (now :: rest) w =
  match trade_stats.record_trade now w with
  | (Ok count, w1) =>
      match record_trades rest w1 with
      | (Ok counts, w2) => (Ok (count :: counts), w2)
      | (Err e, w2) => (Err e, w2)
      end
  | (Err e, w1) => (Err e, w1)
  end.
Proof.
  cbn [record_trades]. rewrite bind_run.
  destruct (trade_stats.record_trade now w) as [[count|e] w1]; [|reflexivity].
  rewrite bind_run. destruct (record_trades rest w1) as [[counts|e] w2]; reflexivity.
Qed.

(** Trades recorded into an existing bucket of the day [D] with deadline
    [dl]. *)
Lemma record_trades_next D dl : forall instants w n,
  day_min <= D <= day_max ->
  Forall (fun t => Date.Day t = D /\ t < dl) instants ->
  store w !! spec_key D = Some (Redis.Entry (JS.string_of_Z n) (Some dl)) ->
  1 <= n -> n + Z.of_nat (length instants) <= Redis.LLONG_MAX ->
  no_fault (2 * length instants) w ->
  exists w',
    record_trades instants w = (Ok (seqZ (n + 1) (Z.of_nat (length instants))), w') /\
    store w' =
      <[spec_key D := Redis.Entry (JS.string_of_Z (n + Z.of_nat (length instants))) (Some dl)]>
        (store w) /\
    trace w' =
      trace w ++ mjoin (replicate (length instants) [Redis.CONNECT; Redis.INCR (spec_key D)]) /\
    forall m, no_fault (2 * length instants + m) w -> no_fault m w'.
Proof.
  induction instants as [|t rest IH]; intros w n HD Hall Hst Hn Hmax Hf.
  - exists w. split; [reflexivity|]. split; [|split].
    + cbn [length]. rewrite Z.add_0_r. symmetry. apply insert_id. exact Hst.
    + cbn [length replicate mjoin]. simpl. rewrite app_nil_r. reflexivity.
    + intros m Hm. exact Hm.
  - inversion Hall as [|? ? [Hday Hlt] Hrest]; subst.
    cbn [length] in Hmax, Hf |- *.
    set (e := Redis.Entry (JS.string_of_Z n) (Some dl)) in *.
    assert (Hlook : Redis.lookup t (store w) (spec_key (Date.Day t)) = Some e).
    { apply lookup_live; [exact Hst|]. unfold Redis.live. simpl. apply Z.ltb_lt. exact Hlt. }
    assert (Hval : Redis.string2ll (Redis.val e) = Some n).
    { apply string2ll_string_of_Z. lia. }
    assert (Hf2 : no_fault 2 w) by (eapply no_fault_weaken; [|exact Hf]; lia).
    destruct (record_trade_next t w e n HD Hlook Hval ltac:(lia) ltac:(lia) Hf2)
      as (w1 & Hrun & Hst1 & Htr1 & _ & Hnf1).
    cbv zeta in Hst1, Htr1. cbn [Redis.deadline e] in Hst1.
    destruct (IH w1 (n + 1) HD Hrest) as (w2 & Hrun2 & Hst2 & Htr2 & Hnf2).
    + rewrite Hst1. apply lookup_insert_eq.
    + lia.
    + lia.
    + apply Hnf1. eapply no_fault_weaken; [|exact Hf]. lia.
    + exists w2. split; [|split; [|split]].
      * rewrite record_trades_cons, Hrun, Hrun2.
        rewrite (seqZ_cons (n + 1)) by lia.
        replace (Z.succ (n + 1)) with (n + 1 + 1) by lia.
        replace (Z.pred (Z.of_nat (S (length rest)))) with (Z.of_nat (length rest)) by lia.
        reflexivity.
      * rewrite Hst2, Hst1, insert_insert_eq.
        replace (n + 1 + Z.of_nat (length rest)) with (n + Z.of_nat (S (length rest))) by lia.
        reflexivity.
      * rewrite Htr2, Htr1, <- app_assoc. reflexivity.
      * intros m Hm. apply Hnf2, Hnf1. eapply no_fault_weaken; [|exact Hm]. lia.
Qed.

(** The trades of one day, the first of which creates the bucket. *)
Lemma record_trades_run t1 rest w :
  day_min <= Date.Day t1 <= day_max ->
  Forall (fun t => Date.Day t = Date.Day t1) rest ->
  Redis.lookup t1 (store w) (spec_key (Date.Day t1)) = None ->
  Z.of_nat (S (length rest)) <= Redis.LLONG_MAX ->
  no_fault (2 * length rest + 3) w ->
  let key := spec_key (Date.Day t1) in
  exists w',
    record_trades (t1 :: rest) w = (Ok (seqZ 1 (Z.of_nat (S (length rest)))), w') /\
    store w' =
      <[key := Redis.Entry (JS.string_of_Z (Z.of_nat (S (length rest))))
                           (Some (t1 + retention_ms))]> (store w) /\
    trace w' =
      trace w ++ [Redis.CONNECT; Redis.INCR key; Redis.EXPIRE key retention_seconds]
              ++ mjoin (replicate (length rest) [Redis.CONNECT; Redis.INCR key]) /\
    forall m, no_fault (2 * length rest + 3 + m) w -> no_fault m w'.
Proof.
  intros HD Hall Habs Hmax Hf key.
  assert (Hf3 : no_fault 3 w) by (eapply no_fault_weaken; [|exact Hf]; lia).
  destruct (record_trade_first t1 w HD Habs Hf3)
    as (w1 & Hrun & Hst1 & Htr1 & _ & Hnf1).
  cbv zeta in Hst1, Htr1. fold key in Hst1, Htr1.
  destruct (record_trades_next (Date.Day t1) (t1 + retention_ms) rest w1 1 HD)
    as (w2 & Hrun2 & Hst2 & Htr2 & Hnf2).
  - eapply Forall_impl; [exact Hall|]. intros t Ht. cbv beta in Ht.
    split; [exact Ht | apply same_day_before_deadline; exact Ht].
  - rewrite Hst1. apply lookup_insert_eq.
  - lia.
  - lia.
  - apply Hnf1. eapply no_fault_weaken; [|exact Hf]. lia.
  - fold key in Hst2, Htr2. exists w2. split; [|split; [|split]].
    + rewrite record_trades_cons, Hrun, Hrun2.
      rewrite (seqZ_cons 1) by lia.
      replace (Z.pred (Z.of_nat (S (length rest)))) with (Z.of_nat (length rest)) by lia.
      reflexivity.
    + rewrite Hst2, Hst1, insert_insert_eq.
      replace (1 + Z.of_nat (length rest)) with (Z.of_nat (S (length rest))) by lia.
      reflexivity.
    + rewrite Htr2, Htr1, <- app_assoc. reflexivity.
    + intros m Hm. apply Hnf2, Hnf1. eapply no_fault_weaken; [|exact Hm]. lia.
Qed.

(** ** The recorder *)

(** When the store answers every command.  For the trades recorded on one
    UTC date, the first of which finds no bucket: the commands sent to the
    store are CONNECT, INCR for the first trade, followed by the only EXPIRE,
    of 35 x 24 hours, and then CONNECT, INCR for each later trade; and after
    the first trade and after every later one the deadline of the bucket is
    the instant of the first trade plus 35 x 24 hours. *)
Lemma expiry_set_once t1 rest w :
  day_min <= Date.Day t1 <= day_max ->
  Forall (fun t => Date.Day t = Date.Day t1) rest ->
  Redis.lookup t1 (store w) (spec_key (Date.Day t1)) = None ->
  Z.of_nat (S (length rest)) <= Redis.LLONG_MAX ->
  no_fault (2 * length rest + 3) w ->
  let key := spec_key (Date.Day t1) in
  trace (record_trades (t1 :: rest) w).2 =
    trace w ++ [Redis.CONNECT; Redis.INCR key; Redis.EXPIRE key (35 * 24 * 60 * 60)]
            ++ mjoin (replicate (length rest) [Redis.CONNECT; Redis.INCR key]) /\
  forall k,
    Redis.deadline <$> store (record_trades (t1 :: take k rest) w).2 !! key =
    Some (Some (t1 + 35 * 24 * 60 * 60 * 1000)).
Proof.
  intros HD Hall Habs Hmax Hf key. split.
  - destruct (record_trades_run t1 rest w HD Hall Habs Hmax Hf) as (w' & -> & _ & Htr & _).
    exact Htr.
  - intros k.
    assert (Hlen : (length (take k rest) <= length rest)%nat) by (rewrite length_take; lia).
    destruct (record_trades_run t1 (take k rest) w HD) as (w' & -> & Hst & _).
    + apply Forall_take. exact Hall.
    + exact Habs.
    + lia.
    + eapply no_fault_weaken; [|exact Hf]. lia.
    + cbn [snd]. rewrite Hst. fold key. rewrite lookup_insert_eq. reflexivity.
Qed.

(** C4. For N trades recorded on one UTC date, the first of which finds
    no bucket: the k-th call returns k, and a read on that date finds the
    value N in the bucket: [get_trade_count 1] returns the total N and the
    daily mapping with the single entry N for the date. *)
Theorem record_trades_count t1 rest w now' :
  day_min <= Date.Day t1 <= day_max ->
  Forall (fun t => Date.Day t = Date.Day t1) rest ->
  Redis.lookup t1 (store w) (spec_key (Date.Day t1)) = None ->
  Z.of_nat (S (length rest)) <= Redis.LLONG_MAX ->
  Date.Day now' = Date.Day t1 ->
  no_fault (2 * length rest + 5) w ->
  let N := Z.of_nat (S (length rest)) in
  let out := record_trades (t1 :: rest) w in
  out.1 = Ok (seqZ 1 N) /\
  Redis.val <$> Redis.lookup now' (store out.2) (spec_key (Date.Day t1)) =
    Some (JS.string_of_Z N) /\
  exists c,
    (trade_stats.get_trade_count 1 now' out.2).1 = Ok c /\
    total c = JS.Int N /\
    daily c = {[ spec_date (Date.Day t1) := JS.Int N ]}.
Proof.
  intros HD Hall Habs Hmax Hday Hf N out. subst out.
  assert (Hf3 : no_fault (2 * length rest + 3) w) by (eapply no_fault_weaken; [|exact Hf]; lia).
  destruct (record_trades_run t1 rest w HD Hall Habs Hmax Hf3) as (w' & -> & Hst & _ & Hnf).
  cbv zeta in Hst. fold N in Hst |- *. cbn [fst snd].
  assert (Hread : Redis.val <$> Redis.lookup now' (store w') (spec_key (Date.Day t1)) =
                  Some (JS.string_of_Z N)).
  { rewrite Hst.
    rewrite (lookup_live now' _ _ (Redis.Entry (JS.string_of_Z N) (Some (t1 + retention_ms)))).
    - reflexivity.
    - apply lookup_insert_eq.
    - unfold Redis.live. simpl. apply Z.ltb_lt. apply same_day_before_deadline. exact Hday. }
  split; [reflexivity|]. split; [exact Hread|].
  assert (Hr : window_in_range now' 1) by (unfold window_in_range; rewrite Hday; lia).
  assert (Hf' : no_fault 2 w').
  { apply Hnf. eapply no_fault_weaken; [|exact Hf]. lia. }
  rewrite (get_trade_count_ok 1 now' w' Hr ltac:(lia) Hf'). cbv zeta. cbn [fst].
  eexists. split; [reflexivity|]. cbn [total daily].
  assert (Hc : count_of (Some (JS.string_of_Z N)) = JS.Int N).
  { apply count_of_integer; [apply string2ll_string_of_Z|]; lia. }
  change (seqZ 0 1) with [0]. unfold spec_window_keys. change (seqZ 0 1) with [0].
  cbn [map]. rewrite Hday, Z.sub_0_r. split.
  - unfold window_counts. cbn [map]. rewrite Hread, Hc. reflexivity.
  - unfold daily_map. cbn [foldl]. rewrite bucket_key_spec_date, Hread, Hc.
    apply insert_empty.
Qed.

Lemma demo_next_in_range : day_min <= Date.Day demo_next <= day_max.
Proof. change (Date.Day demo_next) with 20439. unfold day_min, day_max. lia. Qed.

Lemma demo_later_same_day : Forall (fun t => Date.Day t = Date.Day demo_next) demo_later.
Proof. repeat constructor. Qed.

Lemma demo_next_absent :
  Redis.lookup demo_next (store demo_world) (spec_key (Date.Day demo_next)) = None.
Proof. vm_compute. reflexivity. Qed.

Lemma demo_later_bound : Z.of_nat (S (length demo_later)) <= Redis.LLONG_MAX.
Proof. vm_compute. discriminate. Qed.

(** C3. The expiry is not set once in every sequence of calls: when the
    EXPIRE that follows the first increment of a day cannot reach the store,
    that call fails with StoreUnavailable, the later calls of the day return
    2 and 3 and send no EXPIRE, for their counts are not 1, and the bucket is
    left without any expiry. *)
Theorem expiry_never_set_after_failed_expire :
  let key := spec_key (Date.Day demo_next) in
  let first := trade_stats.record_trade demo_next demo_expire_down in
  let later := record_trades demo_later first.2 in
  first.1 = Err StoreUnavailable /\
  later.1 = Ok [2; 3] /\
  trace later.2 =
    [Redis.CONNECT; Redis.INCR key; Redis.EXPIRE key (35 * 24 * 60 * 60);
     Redis.CONNECT; Redis.INCR key; Redis.CONNECT; Redis.INCR key] /\
  store first.2 !! key = Some (Redis.Entry "1" None) /\
  store later.2 !! key = Some (Redis.Entry "3" None).
Proof. vm_compute. repeat split. Qed.

Lemma expiry_set_once_witness :
  Redis.deadline <$>
    store (record_trades (demo_next :: demo_later) demo_world).2
      !! spec_key (Date.Day demo_next) =
  Some (Some (demo_next + 35 * 24 * 60 * 60 * 1000)).
Proof.
  exact (proj2 (expiry_set_once demo_next demo_later demo_world demo_next_in_range
                  demo_later_same_day demo_next_absent demo_later_bound
                  (demo_no_fault _)) 2%nat).
Defined.

Lemma record_trades_count_witness :
  (record_trades (demo_next :: demo_later) demo_world).1 = Ok [1; 2; 3].
Proof.
  exact (proj1 (record_trades_count demo_next demo_later demo_world demo_next
                  demo_next_in_range demo_later_same_day demo_next_absent
                  demo_later_bound eq_refl (demo_no_fault _))).
Defined.

(** ** Running the trade-creation hook *)

Lemma create_trade_run uid d w :
  create_trade uid d w =
  if hd false (save_faults w)
  then (Err SaveFailed,
        with_log (log w ++ [create_error_log SaveFailed])
          (with_save_faults (tl (save_faults w)) w))
  else
    let saved := saved_trade uid d w in
    (Ok saved,
     with_log (log w ++ [create_log saved])
       (with_pending (pending w ++ [RecordTradeTask])
          (with_trades (trades w ++ [saved])
             (with_save_faults (tl (save_faults w)) w)))).
Proof.
  unfold create_trade, try_catch, trade_save. rewrite !bind_run.
  destruct (save_faults w) as [|[] fs]; reflexivity.
Qed.

Lemma settle_run now w :
  settle now RecordTradeTask w =
  match trade_stats.record_trade now w with
  | (Ok _, w') => (Ok tt, w')
  | (Err e, w') => (Ok tt, with_log (log w' ++ [stats_error_log e]) w')
  end.
Proof.
  unfold settle, try_catch. rewrite bind_run.
  destruct (trade_stats.record_trade now w) as [[c|e] w']; reflexivity.
Qed.

(** [record_trade] touches the store, the trace, the fault schedule and the
    log, and nothing else; it sends one of three command sequences. *)
Lemma record_trade_frame now w :
  let w' := (trade_stats.record_trade now w).2 in
  pending w' = pending w /\ trades w' = trades w /\
  save_faults w' = save_faults w /\ hits w' = hits w /\
  exists cmds, record_commands cmds /\ trace w' = trace w ++ cmds.
Proof.
  rewrite record_trade_run. cbv zeta.
  destruct (hd false (faults w)).
  { repeat split. eexists. split; [apply connect_only | reflexivity]. }
  destruct (date_part (Date.current now)) as [d|].
  2: { repeat split. eexists. split; [apply connect_only | reflexivity]. }
  destruct (hd false (faults (after_issue Redis.CONNECT w))).
  { repeat split. eexists. split; [apply connect_incr|]. simpl. rewrite <- app_assoc. reflexivity. }
  destruct (Redis.incr now (store w) (bucket_key d)) as [[n db]|].
  2: { repeat split. eexists. split; [apply connect_incr|]. simpl. rewrite <- app_assoc. reflexivity. }
  destruct (n =? 1).
  2: { repeat split. eexists. split; [apply connect_incr|]. simpl. rewrite <- app_assoc. reflexivity. }
  destruct (hd false (faults (after_issue _ (after_issue Redis.CONNECT w)))).
  - repeat split. eexists. split; [apply connect_incr_expire|]. simpl.
    rewrite <- !app_assoc. reflexivity.
  - repeat split. eexists. split; [apply connect_incr_expire|]. simpl.
    rewrite <- !app_assoc. reflexivity.
Qed.

(** [record_trade] does not read the list of detached calls. *)
Lemma record_trade_result_faults now w :
  hd false (faults w) = true ->
  (trade_stats.record_trade now w).1 = Err StoreUnavailable.
Proof. intros H. rewrite record_trade_run. cbv zeta. rewrite H. reflexivity. Qed.

(** ** Running the public reader *)

Lemma service_run now w :
  public_service.get_trade_stats now w =
  match trade_stats.get_widget_stats now w with
  | (Ok stats, w') => (Ok stats, with_log (log w' ++ [service_log]) w')
  | (Err e, w') => (Err e, with_log (log w' ++ [service_error_log e]) w')
  end.
Proof.
  unfold public_service.get_trade_stats, try_catch. rewrite bind_run.
  destruct (trade_stats.get_widget_stats now w) as [[stats|e] w']; reflexivity.
Qed.

Lemma controller_run res now w :
  public_controller.get_trade_stats res now w =
  match trade_stats.get_widget_stats now w with
  | (Ok stats, w') =>
      (Ok (Sent (Response 200 (res ++ [cache_control])
                   (Envelope true (Some stats) "trade stats retrieved"))),
       with_log (log w' ++ [service_log]) w')
  | (Err e, w') =>
      (Ok (Next e),
       with_log (log w' ++ [service_error_log e; controller_error_log e]) w')
  end.
Proof.
  unfold public_controller.get_trade_stats, try_catch. rewrite bind_run, service_run.
  destruct (trade_stats.get_widget_stats now w) as [[stats|e] w']; [reflexivity|].
  unfold bind, logger, ret. cbn [log with_log]. rewrite <- app_assoc. reflexivity.
Qed.

(** [get_widget_stats] leaves the store, the trades, the detached calls and
    the limiter's record as they are. *)
Lemma get_widget_stats_frame now w :
  let w' := (trade_stats.get_widget_stats now w).2 in
  store w' = store w /\ hits w' = hits w /\ trades w' = trades w /\ pending w' = pending w.
Proof.
  rewrite get_widget_stats_run. cbv zeta.
  destruct (hd false (faults w)); [auto|].
  destruct (window_dates now 30) as [ds|]; [|auto].
  destruct (hd false (faults (after_issue Redis.CONNECT w))); [auto|].
  destruct (map bucket_key ds); [auto|].
  destruct (Date.toISOString (Date.current now)); auto.
Qed.

Lemma public_routes_run client now w :
  let seen := default [] (hits w !! client) in
  let recent := filter (fun t => now - 60 * 1000 < t) seen ++ [now] in
  let w1 := with_hits (<[client := recent]> (hits w)) w in
  public_routes client now w =
  if Z.of_nat (length recent) <=? 120
  then match trade_stats.get_widget_stats now w1 with
       | (Ok stats, w') =>
           (Ok (Response 200 [cache_control]
                  (Envelope true (Some stats) "trade stats retrieved")),
            with_log (log w' ++ [service_log]) w')
       | (Err e, w') =>
           (Ok (error_response e),
            with_log (log w' ++ [service_error_log e; controller_error_log e]) w')
       end
  else (Ok rejection, w1).
Proof.
  cbv zeta. unfold public_routes, public_rate_limit, rate_limit. rewrite bind_run.
  cbn [windowMs max limit_message].
  destruct (Z.of_nat _ <=? 120); [|reflexivity].
  rewrite bind_run, controller_run.
  destruct (trade_stats.get_widget_stats now _) as [[stats|e] w']; reflexivity.
Qed.

(** ** The trade-creation hook *)

(** C6. When the save succeeds, [create_trade] returns the saved trade
    whatever the store holds and whether or not its commands fail; it sends
    no command itself and leaves one detached call.  When that call runs, it
    ends without an error whatever [record_trade] did: a failure is written
    to the log as [record_trade_stats_error] and goes nowhere else, the
    persisted trades are untouched, the call is not queued again, and the
    store has received the commands of one [record_trade] only.  A store
    that cannot be reached makes [record_trade] fail with StoreUnavailable. *)
Theorem create_trade_unaffected_by_recorder uid d w now :
  hd false (save_faults w) = false -> pending w = [] ->
  let saved := saved_trade uid d w in
  let out := create_trade uid d w in
  let run := trade_stats.record_trade now (with_pending [] out.2) in
  let fin := run_next now out.2 in
  (forall fs db, (create_trade uid d (with_faults fs (with_store db w))).1 = Ok saved) /\
  out.1 = Ok saved /\
  trades out.2 = trades w ++ [saved] /\
  trace out.2 = trace w /\
  pending out.2 = [RecordTradeTask] /\
  fin.1 = Ok tt /\
  trades fin.2 = trades out.2 /\
  pending fin.2 = [] /\
  (exists cmds, record_commands cmds /\ trace fin.2 = trace w ++ cmds) /\
  match run.1 with
  | Ok _ => log fin.2 = log run.2
  | Err e => log fin.2 = log run.2 ++ [stats_error_log e]
  end /\
  (hd false (faults w) = true -> run.1 = Err StoreUnavailable).
Proof.
  intros Hsave Hpend saved out run fin.
  assert (Hout : out = (Ok saved,
            with_log (log w ++ [create_log saved])
              (with_pending [RecordTradeTask]
                 (with_trades (trades w ++ [saved])
                    (with_save_faults (tl (save_faults w)) w))))).
  { subst out. rewrite create_trade_run, Hsave. cbv zeta. rewrite Hpend. reflexivity. }
  split.
  { intros fs db. rewrite create_trade_run. cbn [save_faults with_faults with_store].
    rewrite Hsave. reflexivity. }
  assert (Hfin : fin = match run with
                       | (Ok _, w') => (Ok tt, w')
                       | (Err e, w') => (Ok tt, with_log (log w' ++ [stats_error_log e]) w')
                       end).
  { subst fin run. rewrite Hout. cbn [snd]. unfold run_next. cbn [pending with_pending with_log].
    rewrite settle_run. reflexivity. }
  pose proof (record_trade_frame now (with_pending [] out.2)) as Hframe.
  cbv zeta in Hframe. fold run in Hframe.
  destruct Hframe as (Hp & Ht & _ & _ & cmds & Hcmds & Htr).
  rewrite Hout in Hp, Ht, Htr. cbn [snd pending trades trace with_pending with_log with_trades
                                     with_save_faults] in Hp, Ht, Htr.
  rewrite Hfin, Hout. cbn [fst snd trades trace pending with_pending with_log with_trades
                           with_save_faults].
  do 4 (split; [reflexivity|]).
  destruct run as [[c|e] w'] eqn:Erun; cbn [fst snd trades pending trace log with_log] in *.
  - repeat split; try assumption.
    + exists cmds. auto.
    + intros Hfault.
      pose proof (record_trade_result_faults now (with_pending [] out.2)) as Hr.
      rewrite Hout in Hr. cbn [snd] in Hr. specialize (Hr Hfault).
      subst run. rewrite Hout in Erun. cbn [snd] in Erun. rewrite Erun in Hr. exact Hr.
  - repeat split; try assumption.
    + exists cmds. auto.
    + intros Hfault.
      pose proof (record_trade_result_faults now (with_pending [] out.2)) as Hr.
      rewrite Hout in Hr. cbn [snd] in Hr. specialize (Hr Hfault).
      subst run. rewrite Hout in Erun. cbn [snd] in Erun. rewrite Erun in Hr. exact Hr.
Qed.

Lemma create_trade_unaffected_by_recorder_witness :
  (create_trade (JS.Str "user-1") demo_trade demo_down).1 =
    Ok (saved_trade (JS.Str "user-1") demo_trade demo_down) /\
  (run_next demo_now (create_trade (JS.Str "user-1") demo_trade demo_down).2).1 = Ok tt.
Proof.
  destruct (create_trade_unaffected_by_recorder (JS.Str "user-1") demo_trade demo_down
              demo_now eq_refl eq_refl) as (_ & Hout & _ & _ & _ & Hfin & _).
  split; assumption.
Defined.

(** ** The public reader *)

(** What the reader answers when the read fails with [e]. *)
Lemma get_widget_stats_mget_fault now w :
  window_in_range now 30 ->
  hd false (faults w) = false -> hd false (tl (faults w)) = true ->
  trade_stats.get_widget_stats now w =
  (Err StoreUnavailable,
   after_issue (Redis.MGET (spec_window_keys (Date.Day now) 30))
     (after_issue Redis.CONNECT w)).
Proof.
  intros Hr H1 H2. rewrite get_widget_stats_run. cbv zeta. rewrite H1.
  destruct (window_dates now 30) as [ds|] eqn:E;
    [|rewrite (window_dates_spec now 30 Hr) in E; discriminate].
  rewrite (window_keys_spec now 30 ds Hr E).
  change (faults (after_issue Redis.CONNECT w)) with (tl (faults w)). rewrite H2.
  reflexivity.
Qed.

(** C7. When the connection succeeds and the batched read fails with
    StoreUnavailable, [get_widget_stats] fails with that error; the service
    fails with the same error; the controller hands the same error to [next]
    and sends nothing; and the response of the route carries
    [success = false] and no data. *)
Theorem batched_read_failure_propagates now w res client :
  window_in_range now 30 ->
  hd false (faults w) = false -> hd false (tl (faults w)) = true ->
  (trade_stats.get_widget_stats now w).1 = Err StoreUnavailable /\
  (public_service.get_trade_stats now w).1 = Err StoreUnavailable /\
  (public_controller.get_trade_stats res now w).1 = Ok (Next StoreUnavailable) /\
  exists r, (public_routes client now w).1 = Ok r /\
            success (body r) = false /\ data (body r) = None.
Proof.
  intros Hr H1 H2.
  pose proof (get_widget_stats_mget_fault now w Hr H1 H2) as Hrun.
  rewrite service_run, controller_run, Hrun. cbn [fst].
  do 3 (split; [reflexivity|]).
  rewrite public_routes_run. cbv zeta.
  destruct (Z.of_nat _ <=? 120).
  - rewrite (get_widget_stats_mget_fault now (with_hits _ w) Hr H1 H2). cbn [fst].
    eexists. split; [reflexivity|]. split; reflexivity.
  - eexists. split; [reflexivity|]. split; reflexivity.
Qed.

Lemma batched_read_failure_propagates_witness :
  (public_controller.get_trade_stats [] demo_now demo_mget_down).1 = Ok (Next StoreUnavailable).
Proof.
  apply (batched_read_failure_propagates demo_now demo_mget_down [] "203.0.113.7"
           (demo_in_range 30 ltac:(lia)) eq_refl eq_refl).
Defined.

(** ** The rate limiter *)

Lemma filter_window t0 t (seen : list Z) :
  t0 <= t < t0 + 60 * 1000 -> window_hits t0 seen ->
  filter (fun t' => t - 60 * 1000 < t') seen = filter (fun t' => t0 <= t') seen.
Proof.
  intros Ht H. induction H as [|x l Hx _ IH]; [reflexivity|].
  destruct (decide (t0 <= x)) as [Hle|Hgt].
  - rewrite !filter_cons_True by lia. rewrite IH. reflexivity.
  - rewrite !filter_cons_False by lia. exact IH.
Qed.

Lemma filter_all (P : Z -> Prop) `{!forall x, Decision (P x)} (l : list Z) :
  Forall P l -> filter P l = l.
Proof.
  induction 1 as [|x l Hx _ IH]; [reflexivity|].
  rewrite filter_cons_True by exact Hx. rewrite IH. reflexivity.
Qed.

Lemma filter_Forall (P : Z -> Prop) `{!forall x, Decision (P x)} (l : list Z) :
  Forall P (filter P l).
Proof. apply Forall_forall. intros x Hx. apply list_elem_of_filter in Hx. tauto. Qed.

Lemma requests_cons client now rest w :
  requests client (now :: rest) w =
  match public_routes client now w with
  | (Ok r, w1) =>
      match requests client rest w1 with
      | (Ok rs, w2) => (Ok (r :: rs), w2)
      | (Err e, w2) => (Err e, w2)
      end
  | (Err e, w1) => (Err e, w1)
  end.
Proof.
  cbn [requests]. rewrite bind_run.
  destruct (public_routes client now w) as [[r|e] w1]; [|reflexivity].
  rewrite bind_run. destruct (requests client rest w1) as [[rs|e] w2]; reflexivity.
Qed.

(** One request inside the window: it is served when fewer than 120 requests
    of the window came before it, and rejected otherwise; it is recorded. *)
Lemma public_routes_step client t0 t w :
  t0 <= t < t0 + 60 * 1000 ->
  window_hits t0 (default [] (hits w !! client)) ->
  let inside := filter (fun t' => t0 <= t') (default [] (hits w !! client)) in
  exists r w',
    public_routes client t w = (Ok r, w') /\
    (if decide (length inside < 120)%nat then is_rejection r = false else r = rejection) /\
    hits w' !! client = Some (inside ++ [t]) /\
    pending w' = pending w.
Proof.
  intros Ht Hw inside. rewrite public_routes_run. cbv zeta.
  rewrite (filter_window t0 t _ Ht Hw). fold inside.
  rewrite length_app. cbn [length].
  set (w1 := with_hits _ w).
  destruct (get_widget_stats_frame t w1) as (_ & Hh & _ & Hp). cbv zeta in Hh, Hp.
  destruct (Z.of_nat (length inside + 1) <=? 120) eqn:E.
  - apply Z.leb_le in E. destruct (decide (length inside < 120)%nat); [|lia].
    destruct (trade_stats.get_widget_stats t w1) as [[stats|e] w2]; cbn [snd] in Hh, Hp;
      eexists _, _; (split; [reflexivity|]); (split; [reflexivity|]);
      cbn [hits pending with_log]; rewrite Hh, Hp; subst w1; cbn [hits pending with_hits];
      (split; [apply lookup_insert_eq | reflexivity]).
  - apply Z.leb_gt in E. destruct (decide (length inside < 120)%nat); [lia|].
    eexists _, _. split; [reflexivity|]. split; [reflexivity|].
    subst w1. cbn [hits pending with_hits]. split; [apply lookup_insert_eq | reflexivity].
Qed.

Lemma requests_in_window client t0 : forall instants w,
  window_hits t0 (default [] (hits w !! client)) ->
  Forall (fun t => t0 <= t < t0 + 60 * 1000) instants ->
  exists rs w',
    requests client instants w = (Ok rs, w') /\
    length rs = length instants /\
    pending w' = pending w /\
    forall j r, rs !! j = Some r ->
      if decide (length (filter (fun t' => (t0 <= t')%Z) (default [] (hits w !! client))) + j
                 < 120)%nat
      then is_rejection r = false else r = rejection.
Proof.
  induction instants as [|t rest IH]; intros w Hw Hall.
  - exists [], w. repeat split. intros j r H. discriminate.
  - inversion Hall as [|? ? Ht Hrest]; subst.
    destruct (public_routes_step client t0 t w Ht Hw) as (r & w1 & Hrun & Hr & Hh & Hp).
    cbv zeta in Hr, Hh.
    set (inside := filter (fun t' => t0 <= t') (default [] (hits w !! client))) in *.
    assert (Hin : Forall (fun t' => t0 <= t') (inside ++ [t])).
    { apply Forall_app. split; [apply filter_Forall | repeat constructor; lia]. }
    destruct (IH w1) as (rs & w2 & Hrun2 & Hlen & Hp2 & Hrs).
    + rewrite Hh. cbn [default]. eapply Forall_impl; [exact Hin|]. intros x Hx. right. exact Hx.
    + exact Hrest.
    + rewrite Hh in Hrs. cbn [default] in Hrs.
      rewrite (filter_all _ _ Hin), length_app in Hrs. cbn [length] in Hrs.
      exists (r :: rs), w2. rewrite requests_cons, Hrun, Hrun2.
      split; [reflexivity|]. split; [cbn [length]; lia|]. split; [congruence|].
      intros [|j] r' Hj; cbn in Hj.
      * injection Hj as <-. rewrite Nat.add_0_r. exact Hr.
      * specialize (Hrs j r' Hj).
        replace (length inside + S j)%nat with (length inside + 1 + j)%nat by lia.
        exact Hrs.
Qed.

(** C8. Modelled from the spec's limiter.  For a client with no request
    in the 60 seconds before a window, 121 requests inside the window: the
    first 120 are served by the handler, and the 121st is answered at once,
    without any call being detached, with the status 429 and the body
    [{ success: false, message: "Too many requests, please try again later" }]. *)
Theorem rate_limit_rejects_121st client t0 instants w :
  Forall (fun t' => t' <= t0 - 60 * 1000) (default [] (hits w !! client)) ->
  Forall (fun t => t0 <= t < t0 + 60 * 1000) instants ->
  length instants = 121%nat ->
  exists rs r,
    (requests client instants w).1 = Ok (rs ++ [r]) /\
    length rs = 120%nat /\
    Forall (fun r => is_rejection r = false) rs /\
    r = Response 429 []
          (Envelope false None "Too many requests, please try again later") /\
    pending (requests client instants w).2 = pending w.
Proof.
  intros Hold Hall Hlen.
  assert (Hw : window_hits t0 (default [] (hits w !! client))).
  { eapply Forall_impl; [exact Hold|]. intros x Hx. left. exact Hx. }
  assert (Hnone : filter (fun t' => t0 <= t') (default [] (hits w !! client)) = []).
  { induction Hold as [|x l Hx _ IH]; [reflexivity|].
    rewrite filter_cons_False by lia. apply IH.
    inversion Hw; assumption. }
  destruct (requests_in_window client t0 instants w Hw Hall) as (rs & w' & Hrun & Hl & Hp & Hrs).
  rewrite Hnone in Hrs. cbn [length Nat.add] in Hrs. rewrite Hlen in Hl.
  rewrite Hrun. cbn [fst snd].
  destruct (drop 120 rs) as [|r [|r' tl']] eqn:Ed.
  - apply (f_equal length) in Ed. rewrite length_drop, Hl in Ed. discriminate.
  - exists (take 120 rs), r. split; [|split; [|split; [|split]]].
    + rewrite <- Ed, take_drop. reflexivity.
    + rewrite length_take. lia.
    + apply Forall_lookup. intros j x Hj. apply lookup_take_Some in Hj as [Hj Hlt].
      specialize (Hrs j x Hj). rewrite decide_True in Hrs by lia. exact Hrs.
    + assert (H120 : rs !! 120%nat = Some r).
      { rewrite <- (take_drop 120 rs), Ed. rewrite lookup_app_r by (rewrite length_take; lia).
        rewrite length_take, Hl. reflexivity. }
      specialize (Hrs _ _ H120). rewrite decide_False in Hrs by lia. exact Hrs.
    + exact Hp.
  - apply (f_equal length) in Ed. rewrite length_drop, Hl in Ed. discriminate.
Qed.

Lemma demo_burst_in_window :
  Forall (fun t => demo_now <= t < demo_now + 60 * 1000) demo_burst.
Proof.
  unfold demo_burst. apply Forall_forall. intros t Ht.
  apply (list_elem_of_fmap (fun i => demo_now + 100 * i)) in Ht as (i & -> & Hi).
  apply elem_of_seqZ in Hi. lia.
Qed.

Lemma demo_no_hits client :
  Forall (fun t' => t' <= demo_now - 60 * 1000) (default [] (hits demo_world !! client)).
Proof. cbn [hits demo_world]. rewrite lookup_empty. constructor. Qed.

Lemma rate_limit_rejects_121st_witness :
  exists rs r,
    (requests "203.0.113.7" demo_burst demo_world).1 = Ok (rs ++ [r]) /\
    length rs = 120%nat /\ status r = 429.
Proof.
  destruct (rate_limit_rejects_121st "203.0.113.7" demo_now demo_burst demo_world
              (demo_no_hits _) demo_burst_in_window eq_refl)
    as (rs & r & Hrun & Hlen & _ & Hr & _).
  exists rs, r. split; [exact Hrun|]. split; [exact Hlen|]. rewrite Hr. reflexivity.
Defined.

(** * Further properties of the code *)

(** ** Dates and keys *)

(** X1. [format_date_utc] of a valid date is the date part of its ISO
    string, whatever the year: the first ['T'] of the ISO string is the
    separator.  When the year has four digits the result is [YYYY-MM-DD],
    ten characters long. *)
Theorem format_date_utc_valid tv w :
  format_date_utc (Date.Time tv) w = (Ok (Date.date_string (Date.Day tv)), w) /\
  (day_min <= Date.Day tv <= day_max ->
   Date.date_string (Date.Day tv) = spec_date (Date.Day tv) /\
   String.length (Date.date_string (Date.Day tv)) = 10%nat).
Proof.
  split.
  - rewrite format_date_utc_run, date_part_Time. reflexivity.
  - intros H. rewrite (date_string_spec _ H). split; [reflexivity | apply spec_date_length].
Qed.

(** X2. [format_date_utc] of an invalid date throws the RangeError of
    [toISOString]; so do the three operations of [trade_stats] when the
    clock is outside the range of dates, after the connection and before any
    command on a key. *)
Theorem invalid_clock_is_range_error now w :
  Date.maxTime < Z.abs now ->
  hd false (faults w) = false ->
  format_date_utc (Date.current now) w = (Err RangeError, w) /\
  trade_stats.record_trade now w = (Err RangeError, after_issue Redis.CONNECT w) /\
  trade_stats.get_widget_stats now w = (Err RangeError, after_issue Redis.CONNECT w) /\
  forall days, 0 < days ->
    trade_stats.get_trade_count days now w = (Err RangeError, after_issue Redis.CONNECT w).
Proof.
  intros Hbig Hf.
  assert (Hc : Date.current now = Date.Invalid).
  { unfold Date.current, Date.TimeClip. destruct (Z.abs now <=? Date.maxTime) eqn:E; [|reflexivity].
    apply Z.leb_le in E. lia. }
  assert (Hd : date_part (Date.current now) = None) by (rewrite Hc; reflexivity).
  assert (Hw : forall n, 0 < n -> window_dates now n = None).
  { intros n Hn. unfold window_dates. rewrite (seqZ_cons 0 n Hn), mapM_option_cons.
    unfold get_date_days_ago. rewrite Hc. reflexivity. }
  split; [|split; [|split]].
  - rewrite format_date_utc_run, Hd. reflexivity.
  - rewrite record_trade_run. cbv zeta. rewrite Hf, Hd. reflexivity.
  - rewrite get_widget_stats_run. cbv zeta. rewrite Hf, (Hw 30) by lia. reflexivity.
  - intros days Hdays. rewrite get_trade_count_run. cbv zeta.
    rewrite Hf, (Hw days) by lia. reflexivity.
Qed.

Lemma invalid_clock_is_range_error_witness :
  trade_stats.record_trade (Date.maxTime + 1) demo_world =
  (Err RangeError, after_issue Redis.CONNECT demo_world).
Proof.
  apply (invalid_clock_is_range_error (Date.maxTime + 1) demo_world).
  - unfold Date.maxTime. lia.
  - reflexivity.
Defined.

(** X3. [get_date_days_ago] goes back by whole days across the ends of
    months and years: the day number goes down by [days] and the time of day
    is kept. *)
Theorem days_ago_keeps_time_of_day now days :
  Z.abs now <= Date.maxTime -> Z.abs (now - days * Date.msPerDay) <= Date.maxTime ->
  exists tv,
    get_date_days_ago now days = Date.Time tv /\
    Date.Day tv = Date.Day now - days /\
    Date.TimeWithinDay tv = Date.TimeWithinDay now.
Proof.
  intros H1 H2. exists (now - days * Date.msPerDay).
  rewrite (get_date_days_ago_shift now days H1), (TimeClip_valid _ H2).
  rewrite Day_shift, TimeWithinDay_shift. auto.
Qed.

Lemma days_ago_keeps_time_of_day_witness :
  exists tv, get_date_days_ago demo_now 29 = Date.Time tv /\
             Date.Day tv = Date.Day demo_now - 29.
Proof.
  destruct (days_ago_keeps_time_of_day demo_now 29) as (tv & H1 & H2 & _).
  - vm_compute. discriminate.
  - vm_compute. discriminate.
  - exists tv. auto.
Defined.

(** X4. Instants of different UTC days are counted in different buckets:
    the keys that [record_trade] builds for them differ. *)
Theorem different_days_different_buckets t1 t2 :
  day_min <= Date.Day t1 <= day_max -> day_min <= Date.Day t2 <= day_max ->
  Date.Day t1 <> Date.Day t2 ->
  exists d1 d2,
    date_part (Date.current t1) = Some d1 /\ date_part (Date.current t2) = Some d2 /\
    bucket_key d1 <> bucket_key d2.
Proof.
  intros H1 H2 Hne. exists (spec_date (Date.Day t1)), (spec_date (Date.Day t2)).
  rewrite !date_part_current by assumption. do 2 (split; [reflexivity|]).
  intros Heq. apply bucket_key_inj in Heq. apply spec_date_inj in Heq; auto.
Qed.

Lemma different_days_different_buckets_witness :
  exists d1 d2,
    date_part (Date.current 1765929599999) = Some d1 /\
    date_part (Date.current 1765929600000) = Some d2 /\
    bucket_key d1 <> bucket_key d2.
Proof.
  apply (different_days_different_buckets 1765929599999 1765929600000).
  - vm_compute. split; discriminate.
  - vm_compute. split; discriminate.
  - vm_compute. discriminate.
Defined.

(** ** The recorder and the store *)

Lemma store_ok_insert db k e :
  store_ok db -> (is_bucket_key k = true -> bucket_ok e = true) ->
  store_ok (<[k := e]> db).
Proof.
  intros Hok He k' e' Hk' Hlook.
  destruct (decide (k = k')) as [<-|Hne].
  - rewrite lookup_insert_eq in Hlook. injection Hlook as <-. auto.
  - rewrite lookup_insert_ne in Hlook by exact Hne. eauto.
Qed.

Lemma incr_store_ok now db key n db' :
  store_ok db -> is_bucket_key key = true ->
  Redis.incr now db key = Some (n, db') -> store_ok db'.
Proof.
  intros Hok Hkey. unfold Redis.incr.
  destruct (Redis.lookup now db key) as [e|] eqn:El.
  - destruct (Redis.string2ll (Redis.val e)) as [m|] eqn:Ev; [|discriminate].
    destruct (m <? Redis.LLONG_MAX) eqn:Em; [|discriminate].
    intros H. injection H as _ <-. apply Z.ltb_lt in Em.
    apply store_ok_insert; [exact Hok|]. intros _.
    pose proof (Hok key e Hkey (lookup_Some _ _ _ _ El)) as Hb.
    unfold bucket_ok in Hb |- *. rewrite Ev in Hb. apply Z.leb_le in Hb.
    cbn [Redis.val]. rewrite string2ll_string_of_Z by lia. apply Z.leb_le. lia.
  - intros H. injection H as _ <-. apply store_ok_insert; [exact Hok|]. reflexivity.
Qed.

Lemma expire_store_ok now db key seconds :
  store_ok db -> store_ok (Redis.expire now db key seconds).2.
Proof.
  intros Hok. unfold Redis.expire.
  destruct (Redis.lookup now db key) as [e|] eqn:El; [|exact Hok].
  cbn [snd]. apply store_ok_insert; [exact Hok|]. intros Hkey.
  exact (Hok key e Hkey (lookup_Some _ _ _ _ El)).
Qed.

Lemma incr_other now db key n db' k :
  Redis.incr now db key = Some (n, db') -> k <> key -> db' !! k = db !! k.
Proof.
  unfold Redis.incr. intros H Hne.
  destruct (Redis.lookup now db key) as [e|].
  - destruct (Redis.string2ll (Redis.val e)) as [m|]; [|discriminate].
    destruct (m <? Redis.LLONG_MAX); [|discriminate].
    injection H as _ <-. apply lookup_insert_ne. auto.
  - injection H as _ <-. apply lookup_insert_ne. auto.
Qed.

Lemma expire_other now db key seconds k :
  k <> key -> (Redis.expire now db key seconds).2 !! k = db !! k.
Proof.
  intros Hne. unfold Redis.expire. destruct (Redis.lookup now db key); [|reflexivity].
  apply lookup_insert_ne. auto.
Qed.

(** The store after [record_trade], in every case. *)
Lemma record_trade_store now w :
  store (trade_stats.record_trade now w).2 = store w \/
  exists d n db,
    date_part (Date.current now) = Some d /\
    Redis.incr now (store w) (bucket_key d) = Some (n, db) /\
    (store (trade_stats.record_trade now w).2 = db \/
     store (trade_stats.record_trade now w).2 =
       (Redis.expire now db (bucket_key d) retention_seconds).2).
Proof.
  rewrite record_trade_run. cbv zeta.
  destruct (hd false (faults w)); [left; reflexivity|].
  destruct (date_part (Date.current now)) as [d|]; [|left; reflexivity].
  destruct (hd false (faults (after_issue Redis.CONNECT w))); [left; reflexivity|].
  destruct (Redis.incr now (store w) (bucket_key d)) as [[n db]|] eqn:Ei; [|left; reflexivity].
  right. exists d, n, db. split; [reflexivity|]. split; [exact Ei|].
  destruct (n =? 1); [|left; reflexivity].
  destruct (hd false (faults _)); [left; reflexivity | right; reflexivity].
Qed.

(** X5. [record_trade] keeps the data model: when every bucket of the
    store holds a non-negative integer before the call, so it is after it,
    whether the call succeeds or fails. *)
Theorem record_trade_preserves_store_ok now w :
  store_ok (store w) -> store_ok (store (trade_stats.record_trade now w).2).
Proof.
  intros Hok. destruct (record_trade_store now w) as [-> | (d & n & db & _ & Hi & [-> | ->])].
  - exact Hok.
  - exact (incr_store_ok now _ _ n db Hok (bucket_key_is_bucket_key d) Hi).
  - apply expire_store_ok.
    exact (incr_store_ok now _ _ n db Hok (bucket_key_is_bucket_key d) Hi).
Qed.

Lemma record_trade_preserves_store_ok_witness :
  store_ok (store (trade_stats.record_trade demo_now demo_world).2).
Proof. exact (record_trade_preserves_store_ok demo_now demo_world demo_store_ok). Defined.

(** X6. [record_trade] writes to the bucket of the UTC date of the call
    and to no other key, in every case. *)
Theorem record_trade_touches_one_bucket now w k :
  day_min <= Date.Day now <= day_max ->
  k <> spec_key (Date.Day now) ->
  store (trade_stats.record_trade now w).2 !! k = store w !! k.
Proof.
  intros Hr Hne.
  destruct (record_trade_store now w) as [-> | (d & n & db & Hd & Hi & Hst)]; [reflexivity|].
  rewrite (date_part_current now Hr) in Hd. injection Hd as <-.
  rewrite bucket_key_spec_date in Hi, Hst.
  destruct Hst as [-> | ->].
  - exact (incr_other now _ _ n db k Hi Hne).
  - rewrite expire_other by exact Hne. exact (incr_other now _ _ n db k Hi Hne).
Qed.

Lemma record_trade_touches_one_bucket_witness :
  store (trade_stats.record_trade demo_next demo_world).2 !! "trade:daily_count:2025-12-16" =
  store demo_world !! "trade:daily_count:2025-12-16".
Proof.
  apply (record_trade_touches_one_bucket demo_next demo_world _ demo_next_in_range).
  vm_compute. discriminate.
Defined.

(** X7. A store that cannot be reached for the connection or for the
    INCR makes [record_trade] fail with StoreUnavailable and loses the count:
    the store is as before, and no EXPIRE is sent. *)
Theorem record_trade_unavailable_loses_count now w :
  day_min <= Date.Day now <= day_max ->
  hd false (faults w) = true \/ hd false (tl (faults w)) = true ->
  let out := trade_stats.record_trade now w in
  out.1 = Err StoreUnavailable /\
  store out.2 = store w /\
  (trace out.2 = trace w ++ [Redis.CONNECT] \/
   trace out.2 = trace w ++ [Redis.CONNECT; Redis.INCR (spec_key (Date.Day now))]).
Proof.
  intros Hr Hf out. subst out. rewrite record_trade_run. cbv zeta.
  destruct (hd false (faults w)) eqn:E1.
  { split; [reflexivity|]. split; [reflexivity|]. left. reflexivity. }
  destruct Hf as [Hf|Hf]; [discriminate|].
  rewrite (date_part_current now Hr), bucket_key_spec_date.
  change (faults (after_issue Redis.CONNECT w)) with (tl (faults w)). rewrite Hf.
  split; [reflexivity|]. split; [reflexivity|]. right.
  simpl. rewrite <- app_assoc. reflexivity.
Qed.

Lemma demo_now_in_range : day_min <= Date.Day demo_now <= day_max.
Proof. change (Date.Day demo_now) with 20438. unfold day_min, day_max. lia. Qed.

Lemma record_trade_unavailable_loses_count_witness :
  (trade_stats.record_trade demo_now demo_mget_down).1 = Err StoreUnavailable /\
  store (trade_stats.record_trade demo_now demo_mget_down).2 = store demo_mget_down.
Proof.
  destruct (record_trade_unavailable_loses_count demo_now demo_mget_down
              demo_now_in_range (or_intror eq_refl)) as (H1 & H2 & _).
  split; assumption.
Defined.

(** X8. When the first trade of a day is counted and the EXPIRE that
    follows cannot reach the store, the call fails with StoreUnavailable and
    the bucket is left with the value 1 and without deadline.  The next trade
    of the day finds the value 1, returns 2 and sends no EXPIRE: the bucket
    stays without deadline. *)
Theorem expire_failure_leaves_no_deadline now w fs :
  day_min <= Date.Day now <= day_max ->
  Redis.lookup now (store w) (spec_key (Date.Day now)) = None ->
  faults w = false :: false :: true :: fs ->
  let key := spec_key (Date.Day now) in
  let out := trade_stats.record_trade now w in
  out.1 = Err StoreUnavailable /\
  store out.2 = <[key := Redis.Entry "1" None]> (store w) /\
  forall now2, Date.Day now2 = Date.Day now -> no_fault 2 out.2 ->
    let out2 := trade_stats.record_trade now2 out.2 in
    out2.1 = Ok 2 /\
    store out2.2 !! key = Some (Redis.Entry "2" None) /\
    trace out2.2 = trace out.2 ++ [Redis.CONNECT; Redis.INCR key].
Proof.
  intros Hr Habs Hfs key out.
  assert (Hout : out = (Err StoreUnavailable,
            after_issue (Redis.EXPIRE key retention_seconds)
              (with_store (<[key := Redis.Entry "1" None]> (store w))
                 (after_issue (Redis.INCR key) (after_issue Redis.CONNECT w))))).
  { assert (H1 : hd false (faults w) = false) by (rewrite Hfs; reflexivity).
    assert (H2 : hd false (faults (after_issue Redis.CONNECT w)) = false)
      by (simpl; rewrite Hfs; reflexivity).
    assert (H3 : hd false (faults (after_issue (Redis.INCR key)
                                     (after_issue Redis.CONNECT w))) = true)
      by (simpl; rewrite Hfs; reflexivity).
    subst out. rewrite record_trade_run. cbv zeta.
    rewrite (date_part_current now Hr), bucket_key_spec_date. fold key.
    rewrite (incr_absent now (store w) key Habs), H1, H2, H3. reflexivity. }
  rewrite Hout. cbn [fst snd]. split; [reflexivity|]. split; [reflexivity|].
  intros now2 Hday Hf2.
  set (w1 := after_issue _ _) in *.
  assert (Hst : store w1 = <[key := Redis.Entry "1" None]> (store w)) by reflexivity.
  destruct (record_trade_next now2 w1 (Redis.Entry "1" None) 1) as (w2 & Hrun & Hst2 & Htr2 & _).
  - rewrite Hday. exact Hr.
  - rewrite Hday. fold key. apply lookup_live; [|reflexivity].
    rewrite Hst. apply lookup_insert_eq.
  - reflexivity.
  - lia.
  - unfold Redis.LLONG_MAX. lia.
  - exact Hf2.
  - cbv zeta in Hst2, Htr2. rewrite Hday in Hst2, Htr2. fold key in Hst2, Htr2.
    cbv zeta. rewrite Hrun. cbn [fst snd]. split; [reflexivity|]. split; [|exact Htr2].
    rewrite Hst2. apply lookup_insert_eq.
Qed.

Lemma expire_failure_leaves_no_deadline_witness :
  store (trade_stats.record_trade demo_next demo_expire_down).2 =
  <[spec_key (Date.Day demo_next) := Redis.Entry "1" None]> demo_store.
Proof.
  apply (expire_failure_leaves_no_deadline demo_next demo_expire_down []
           demo_next_in_range demo_next_absent eq_refl).
Defined.

(** X9. A bucket whose value is not an integer, or is the largest 64-bit
    integer, makes INCR answer with an error: [record_trade] fails with that
    reply error, the store is as before and no EXPIRE is sent. *)
Theorem record_trade_reply_error now w e :
  day_min <= Date.Day now <= day_max ->
  Redis.lookup now (store w) (spec_key (Date.Day now)) = Some e ->
  Redis.string2ll (Redis.val e) = None \/
  Redis.string2ll (Redis.val e) = Some Redis.LLONG_MAX ->
  no_fault 2 w ->
  let out := trade_stats.record_trade now w in
  out.1 = Err ReplyError /\
  store out.2 = store w /\
  trace out.2 = trace w ++ [Redis.CONNECT; Redis.INCR (spec_key (Date.Day now))].
Proof.
  intros Hr Hlook Hval Hf out. subst out. rewrite record_trade_run. cbv zeta.
  destruct (no_fault_2 w Hf) as [-> ->].
  rewrite (date_part_current now Hr), bucket_key_spec_date.
  assert (Hi : Redis.incr now (store w) (spec_key (Date.Day now)) = None).
  { unfold Redis.incr. rewrite Hlook. destruct Hval as [-> | ->]; reflexivity. }
  rewrite Hi. split; [reflexivity|]. split; [reflexivity|].
  simpl. rewrite <- app_assoc. reflexivity.
Qed.

Lemma record_trade_reply_error_witness :
  (trade_stats.record_trade demo_now demo_full).1 = Err ReplyError.
Proof.
  apply (record_trade_reply_error demo_now demo_full
           (Redis.Entry "9223372036854775807" None) demo_now_in_range).
  - vm_compute. reflexivity.
  - right. vm_compute. reflexivity.
  - apply Forall_nil_2.
Defined.

(** The count that [record_trade] returns and leaves in the bucket. *)
Lemma record_trade_counts now w :
  day_min <= Date.Day now <= day_max ->
  store_ok (store w) ->
  spec_count (store w) now (Date.Day now) < Redis.LLONG_MAX ->
  no_fault 3 w ->
  let key := spec_key (Date.Day now) in
  let c := spec_count (store w) now (Date.Day now) in
  exists w' dl,
    trade_stats.record_trade now w = (Ok (c + 1), w') /\
    store w' = <[key := Redis.Entry (JS.string_of_Z (c + 1)) dl]> (store w) /\
    (dl = Some (now + retention_ms) \/
     exists e, Redis.lookup now (store w) key = Some e /\ dl = Redis.deadline e) /\
    forall m, no_fault (3 + m) w -> no_fault m w'.
Proof.
  intros Hr Hok Hmax Hf key c.
  assert (Hf2 : no_fault 2 w) by (eapply no_fault_weaken; [|exact Hf]; lia).
  unfold spec_count in c, Hmax. fold key in c, Hmax.
  destruct (Redis.lookup now (store w) key) as [e|] eqn:El.
  - assert (Hkey : is_bucket_key key = true)
      by (unfold key; rewrite <- bucket_key_spec_date; apply bucket_key_is_bucket_key).
    pose proof (Hok key e Hkey (lookup_Some _ _ _ _ El)) as Hb. unfold bucket_ok in Hb.
    destruct (Redis.string2ll (Redis.val e)) as [n|] eqn:Ev; [|discriminate].
    cbn [default] in c, Hmax. subst c.
    destruct (decide (n = 0)) as [->|Hn0].
    + (* the bucket holds 0: the increment returns 1 and EXPIRE is sent *)
      rewrite record_trade_run. cbv zeta.
      rewrite (no_fault_head 2 w Hf).
      rewrite (date_part_current now Hr), bucket_key_spec_date. fold key.
      rewrite (no_fault_head 1 _ (no_fault_after 2 _ w Hf)).
      rewrite (incr_present now (store w) key e 0 El Ev Hmax).
      change (0 + 1) with 1. change (1 =? 1) with true. cbv iota.
      rewrite (no_fault_head 0 _ (no_fault_after 1 _ _ (no_fault_after 2 _ w Hf))).
      assert (Hlive : Redis.live now e = true).
      { unfold Redis.lookup in El. destruct (store w !! key); [|discriminate].
        destruct (Redis.live now e0) eqn:E; [|discriminate]. injection El as <-. exact E. }
      assert (He : Redis.expire now (<[key := Redis.Entry (JS.string_of_Z 1) (Redis.deadline e)]>
                     (store w)) key retention_seconds =
                   (true, <[key := Redis.Entry (JS.string_of_Z 1) (Some (now + retention_ms))]>
                            (store w))).
      { unfold Redis.expire.
        rewrite (lookup_live now _ key (Redis.Entry (JS.string_of_Z 1) (Redis.deadline e)));
          [|apply lookup_insert_eq|exact Hlive].
        cbn [Redis.val]. rewrite insert_insert_eq. reflexivity. }
      rewrite He. eexists _, _. split; [reflexivity|]. cbn [snd store with_log with_store].
      split; [reflexivity|]. split; [left; reflexivity|].
      intros m Hm. apply no_fault_log, no_fault_store. apply no_fault_after.
      apply (no_fault_store (S m)). do 2 apply no_fault_after. exact Hm.
    + destruct (record_trade_next now w e n Hr El Ev Hn0 Hmax Hf2)
        as (w' & Hrun & Hst & _ & _ & Hnf).
      exists w', (Redis.deadline e). split; [exact Hrun|]. split; [exact Hst|].
      split; [right; eauto|].
      intros m Hm. apply Hnf. eapply no_fault_weaken; [|exact Hm]. lia.
  - subst c. destruct (record_trade_first now w Hr El Hf) as (w' & Hrun & Hst & _ & _ & Hnf).
    exists w', (Some (now + retention_ms)). split; [exact Hrun|]. split; [exact Hst|].
    split; [left; reflexivity | exact Hnf].
Qed.

Lemma spec_count_nonneg db now day : store_ok db -> 0 <= spec_count db now day.
Proof.
  intros Hok. destruct (count_of_bucket now db (spec_date day) Hok) as (n & Hn & _ & Heq).
  rewrite bucket_key_spec_date in Heq. unfold spec_count. rewrite <- Heq. exact Hn.
Qed.

Lemma get_trade_count_today now w :
  day_min <= Date.Day now <= day_max -> store_ok (store w) -> no_fault 2 w ->
  exists c w',
    trade_stats.get_trade_count 1 now w = (Ok c, w') /\
    total c = JS.Int (spec_count (store w) now (Date.Day now)) /\
    store w' = store w /\
    forall m, no_fault (2 + m) w -> no_fault m w'.
Proof.
  intros Hr Hok Hf.
  assert (Hw : window_in_range now 1) by (unfold window_in_range; lia).
  rewrite (get_trade_count_ok 1 now w Hw ltac:(lia) Hf). cbv zeta.
  eexists _, _. split; [reflexivity|]. cbn [total]. split; [|split; [reflexivity|]].
  - unfold spec_window_keys. change (seqZ 0 1) with [0]. cbn [map]. rewrite Z.sub_0_r.
    unfold window_counts. cbn [map]. rewrite (count_of_spec now (store w) _ Hok).
    reflexivity.
  - intros m Hm. apply no_fault_log. do 2 apply no_fault_after. exact Hm.
Qed.

(** X10. The unit test of the guide: on one UTC date, with a bucket that
    does not expire in between and whose count is below the largest safe
    integer, so that the doubles of the code are exact, the total of
    [get_trade_count 1] after a [record_trade] is the total before it plus
    one. *)
Theorem unit_test_increment t0 t1 t2 w :
  day_min <= Date.Day t0 <= day_max ->
  Date.Day t1 = Date.Day t0 -> Date.Day t2 = Date.Day t0 ->
  store_ok (store w) ->
  Redis.lookup t1 (store w) (spec_key (Date.Day t0)) =
    Redis.lookup t0 (store w) (spec_key (Date.Day t0)) ->
  (forall e, Redis.lookup t0 (store w) (spec_key (Date.Day t0)) = Some e ->
             Redis.live t2 e = true) ->
  spec_count (store w) t0 (Date.Day t0) < JS.MAX_SAFE_INTEGER ->
  no_fault 7 w ->
  let count_before := trade_stats.get_trade_count 1 t0 w in
  let recorded := trade_stats.record_trade t1 count_before.2 in
  let count_after := trade_stats.get_trade_count 1 t2 recorded.2 in
  exists b a,
    count_before.1 = Ok b /\ count_after.1 = Ok a /\
    total a = JS.add (total b) (JS.Int 1).
Proof.
  intros Hr H1 H2 Hok Hsame Hlive Hsafe Hf count_before recorded count_after.
  assert (Hmax : spec_count (store w) t0 (Date.Day t0) < Redis.LLONG_MAX)
    by (unfold JS.MAX_SAFE_INTEGER, Redis.LLONG_MAX in *; lia).
  clear Hsafe.
  set (key := spec_key (Date.Day t0)) in *.
  set (c := spec_count (store w) t0 (Date.Day t0)) in *.
  assert (Hf2 : no_fault 2 w) by (eapply no_fault_weaken; [|exact Hf]; lia).
  destruct (get_trade_count_today t0 w Hr Hok Hf2) as (b & w0 & Hb & Htb & Hst0 & Hnf0).
  assert (Hc1 : spec_count (store w0) t1 (Date.Day t1) = c).
  { unfold c, spec_count. rewrite Hst0, H1. fold key. rewrite Hsame. reflexivity. }
  assert (Hr1 : day_min <= Date.Day t1 <= day_max) by (rewrite H1; exact Hr).
  assert (Hr2 : day_min <= Date.Day t2 <= day_max) by (rewrite H2; exact Hr).
  assert (Hf5 : no_fault 5 w0) by (apply Hnf0; exact Hf).
  destruct (record_trade_counts t1 w0 Hr1) as (w1 & dl & Hrun & Hst1 & Hdl & Hnf1).
  { rewrite Hst0. exact Hok. }
  { rewrite Hc1. exact Hmax. }
  { eapply no_fault_weaken; [|exact Hf5]. lia. }
  cbv zeta in Hrun, Hst1, Hdl. rewrite Hc1 in Hrun, Hst1. rewrite H1 in Hst1, Hdl.
  fold key in Hst1, Hdl. rewrite Hst0 in Hst1, Hdl.
  pose proof (spec_count_nonneg (store w) t0 (Date.Day t0) Hok) as Hc0. fold c in Hc0.
  assert (Hok1 : store_ok (store w1)).
  { rewrite Hst1. apply store_ok_insert; [exact Hok|]. intros _.
    unfold bucket_ok. cbn [Redis.val]. rewrite string2ll_string_of_Z by lia.
    apply Z.leb_le. lia. }
  assert (Hf1 : no_fault 2 w1) by (apply Hnf1; exact Hf5).
  destruct (get_trade_count_today t2 w1 Hr2 Hok1 Hf1) as (a & w2 & Ha & Hta & _).
  exists b, a. subst count_after recorded count_before.
  rewrite Hb. cbn [fst snd]. rewrite Hrun. cbn [snd]. rewrite Ha. cbn [fst].
  split; [reflexivity|]. split; [reflexivity|].
  rewrite Hta, Htb. fold c. cbn [JS.add]. f_equal.
  unfold spec_count. rewrite H2. fold key. rewrite Hst1.
  rewrite (lookup_live t2 _ key (Redis.Entry (JS.string_of_Z (c + 1)) dl)).
  - cbn [Redis.val]. rewrite string2ll_string_of_Z by lia. reflexivity.
  - apply lookup_insert_eq.
  - destruct Hdl as [-> | (e & He & ->)].
    + unfold Redis.live. cbn [Redis.deadline]. apply Z.ltb_lt.
      apply same_day_before_deadline. congruence.
    + rewrite Hsame in He. exact (Hlive e He).
Qed.

Lemma unit_test_increment_witness :
  exists b a,
    (trade_stats.get_trade_count 1 demo_now demo_world).1 = Ok b /\
    (trade_stats.get_trade_count 1 demo_now
       (trade_stats.record_trade demo_now
          (trade_stats.get_trade_count 1 demo_now demo_world).2).2).1 = Ok a /\
    total a = JS.add (total b) (JS.Int 1).
Proof.
  apply (unit_test_increment demo_now demo_now demo_now demo_world
           demo_now_in_range eq_refl eq_refl demo_store_ok eq_refl).
  - intros e He. vm_compute in He. injection He as <-. reflexivity.
  - vm_compute. reflexivity.
  - apply demo_no_fault.
Defined.

(** ** The reads *)

(** X11. [get_trade_count] for a window of [days] days over a store of
    non-negative integer buckets that add up, over the window, to a safe
    integer, so that the doubles of the code are exact: the total is the sum
    of the counts of the [days] dates, and the daily mapping gives each date
    of the window its count. *)
Theorem get_trade_count_reference days now w :
  window_in_range now days -> 1 <= days -> store_ok (store w) ->
  window_safe (store w) now days -> no_fault 2 w ->
  exists c,
    (trade_stats.get_trade_count days now w).1 = Ok c /\
    total c = JS.Int (spec_sum (spec_count (store w) now) (Date.Day now) days) /\
    forall i, 0 <= i < days ->
      daily c !! spec_date (Date.Day now - i) =
      Some (JS.Int (spec_count (store w) now (Date.Day now - i))).
Proof.
  intros Hr Hd Hok _ Hf. rewrite (get_trade_count_ok days now w Hr Hd Hf). cbv zeta. cbn [fst].
  eexists. split; [reflexivity|]. cbn [total daily]. split.
  - rewrite (window_counts_spec now (store w) (Date.Day now) days Hok).
    rewrite sum_numbers_Int. reflexivity.
  - intros i Hi. rewrite daily_map_lookup, decide_True.
    + rewrite bucket_key_spec_date, (count_of_spec now (store w) _ Hok). reflexivity.
    + apply window_dates_elem. exists i. split; [lia | reflexivity].
Qed.

Lemma get_trade_count_reference_witness :
  exists c, (trade_stats.get_trade_count 7 demo_now demo_world).1 = Ok c /\
            total c = JS.Int (spec_sum (spec_count demo_store demo_now) (Date.Day demo_now) 7).
Proof.
  destruct (get_trade_count_reference 7 demo_now demo_world (demo_in_range 7 ltac:(lia))
              ltac:(lia) demo_store_ok (demo_safe 7 ltac:(lia)) (demo_no_fault 2))
    as (c & Hc & Ht & _).
  exists c. split; assumption.
Defined.

(** X12. [get_trade_count] for no day at all sends MGET without a key:
    the store answers with an error, and the call fails with it instead of
    returning an empty count. *)
Theorem get_trade_count_without_days days now w :
  days <= 0 -> no_fault 2 w ->
  let out := trade_stats.get_trade_count days now w in
  out.1 = Err ReplyError /\
  trace out.2 = trace w ++ [Redis.CONNECT; Redis.MGET []] /\
  store out.2 = store w.
Proof.
  intros Hd Hf out. subst out. rewrite get_trade_count_run. cbv zeta.
  destruct (no_fault_2 w Hf) as [-> ->].
  unfold window_dates. rewrite (seqZ_nil 0 days Hd). cbn [mapM map].
  split; [reflexivity|]. split; [|reflexivity].
  simpl. rewrite <- app_assoc. reflexivity.
Qed.

Lemma get_trade_count_without_days_witness :
  (trade_stats.get_trade_count 0 demo_now demo_world).1 = Err ReplyError.
Proof.
  apply (get_trade_count_without_days 0 demo_now demo_world ltac:(lia) (demo_no_fault 2)).
Defined.

(** X13. [get_widget_stats] only reads: in every case the store is as
    before, and the commands sent are the connection alone or the connection
    and one MGET of 30 keys; nothing is sent twice. *)
Theorem get_widget_stats_read_only now w :
  store (trade_stats.get_widget_stats now w).2 = store w /\
  (trace (trade_stats.get_widget_stats now w).2 = trace w ++ [Redis.CONNECT] \/
   exists keys, length keys = 30%nat /\
     trace (trade_stats.get_widget_stats now w).2 =
     trace w ++ [Redis.CONNECT; Redis.MGET keys]).
Proof.
  split; [apply get_widget_stats_frame|].
  rewrite get_widget_stats_run. cbv zeta.
  destruct (hd false (faults w)); [left; reflexivity|].
  destruct (window_dates now 30) as [ds|] eqn:E; [|left; reflexivity].
  right. exists (map bucket_key ds). split.
  { rewrite length_map. apply (window_dates_length now 30 ds E). }
  destruct (hd false (faults (after_issue Redis.CONNECT w))).
  { simpl. rewrite <- app_assoc. reflexivity. }
  destruct (map bucket_key ds) eqn:Ek.
  { simpl. rewrite <- app_assoc. reflexivity. }
  destruct (Date.toISOString (Date.current now)); simpl; rewrite <- app_assoc; reflexivity.
Qed.

(** X14. A bucket of the window whose value does not read as a number
    turns the totals into NaN, and the comparison of [trades_7d] with
    [trades_30d] is then false. *)
Theorem non_number_bucket_poisons_totals now w i e :
  window_in_range now 30 -> no_fault 2 w -> 0 <= i < 7 ->
  Redis.lookup now (store w) (spec_key (Date.Day now - i)) = Some e ->
  count_of (Some (Redis.val e)) = JS.NaN ->
  exists s,
    (trade_stats.get_widget_stats now w).1 = Ok s /\
    trades_7d s = JS.NaN /\ trades_30d s = JS.NaN /\
    JS.le (trades_7d s) (trades_30d s) = false.
Proof.
  intros Hr Hf Hi Hlook Hnan.
  rewrite (get_widget_stats_ok now w Hr Hf). cbn [fst].
  eexists. split; [reflexivity|]. cbn [trades_7d trades_30d].
  set (counts := window_counts now (store w) (spec_window_keys (Date.Day now) 30)).
  assert (Hc : counts !! Z.to_nat i = Some JS.NaN).
  { unfold counts. rewrite window_counts_lookup by lia. rewrite Hlook. cbn [fmap option_fmap option_map].
    rewrite Hnan. reflexivity. }
  assert (Hsum : forall l, JS.NaN ∈ l -> sum_numbers l = JS.NaN).
  { intros l Hin. unfold sum_numbers. generalize (JS.Int 0).
    induction l as [|x l IH]; intros a; [inversion Hin|].
    cbn [foldl]. apply elem_of_cons in Hin as [<- | Hin].
    - assert (Ha : JS.add a JS.NaN = JS.NaN) by (destruct a; reflexivity).
      rewrite Ha. clear. induction l as [|y l IH]; [reflexivity | exact IH].
    - apply IH. exact Hin. }
  assert (H30 : sum_numbers counts = JS.NaN).
  { apply Hsum. exact (list_elem_of_lookup_2 _ _ _ Hc). }
  assert (H7 : sum_numbers (take 7 counts) = JS.NaN).
  { apply Hsum. apply (list_elem_of_lookup_2 _ (Z.to_nat i)).
    rewrite lookup_take_lt by lia. exact Hc. }
  rewrite H7, H30. auto.
Qed.

Lemma non_number_bucket_poisons_totals_witness :
  exists s, (trade_stats.get_widget_stats demo_now demo_garbled).1 = Ok s /\
            trades_30d s = JS.NaN.
Proof.
  destruct (non_number_bucket_poisons_totals demo_now demo_garbled 0 (Redis.Entry "n/a" None)
              (demo_in_range 30 ltac:(lia)) (Forall_nil_2 _) ltac:(lia))
    as (s & Hs & _ & H30 & _).
  - vm_compute. reflexivity.
  - vm_compute. reflexivity.
  - exists s. split; assumption.
Defined.

(** X15. What INCR writes, [parseInt(value || 0, 10)] reads back: for
    every count from 0 to the largest safe integer, 2^53 - 1, the decimal
    string of the count is an integer for the store and reads as that count;
    a missing value and an empty string read as 0. *)
Theorem count_reads_back n :
  0 <= n <= JS.MAX_SAFE_INTEGER ->
  Redis.string2ll (JS.string_of_Z n) = Some n /\
  count_of (Some (JS.string_of_Z n)) = JS.Int n /\
  count_of None = JS.Int 0 /\
  count_of (Some "") = JS.Int 0.
Proof.
  intros Hn.
  assert (Hn' : 0 <= n <= Redis.LLONG_MAX)
    by (unfold JS.MAX_SAFE_INTEGER, Redis.LLONG_MAX in *; lia).
  pose proof (string2ll_string_of_Z n Hn') as H. split; [exact H|].
  split; [apply (count_of_integer _ n H); lia|]. split; reflexivity.
Qed.

Lemma count_reads_back_witness :
  count_of (Some (JS.string_of_Z 9007199254740991)) = JS.Int 9007199254740991.
Proof.
  apply (count_reads_back 9007199254740991). unfold JS.MAX_SAFE_INTEGER. lia.
Defined.

(** ** The public reader and the hook *)

(** X16. The controller never throws.  When the read succeeds it sends
    the statistics as they are, with the header [Cache-Control: public,
    max-age=5, s-maxage=5] added to the response; when the read fails with an
    error it hands that error to [next], after the service and the controller
    have each logged it. *)
Theorem controller_never_throws res now w :
  exists o,
    (public_controller.get_trade_stats res now w).1 = Ok o /\
    match (trade_stats.get_widget_stats now w).1 with
    | Ok stats =>
        o = Sent (success_response
                    (res ++ [("Cache-Control", "public, max-age=5, s-maxage=5")])
                    stats "trade stats retrieved")
    | Err e =>
        o = Next e /\
        log (public_controller.get_trade_stats res now w).2 =
        log (trade_stats.get_widget_stats now w).2
          ++ [service_error_log e; controller_error_log e]
    end.
Proof.
  rewrite controller_run.
  destruct (trade_stats.get_widget_stats now w) as [[stats|e] w']; cbn [fst snd].
  - eexists. split; reflexivity.
  - eexists. split; [reflexivity|]. split; reflexivity.
Qed.

(** X17. When the save fails, [create_trade] fails with the error of the
    save after logging it: no trade is persisted, [record_trade] is not
    started, and the store receives no command. *)
Theorem create_trade_save_failure uid d w :
  hd false (save_faults w) = true ->
  let out := create_trade uid d w in
  out.1 = Err SaveFailed /\
  trades out.2 = trades w /\
  pending out.2 = pending w /\
  trace out.2 = trace w /\
  store out.2 = store w /\
  log out.2 = log w ++ [create_error_log SaveFailed].
Proof.
  intros H out. subst out. rewrite create_trade_run, H. repeat split.
Qed.

Lemma create_trade_save_failure_witness :
  (create_trade (JS.Str "user-1") demo_trade demo_save_down).1 = Err SaveFailed.
Proof.
  apply (create_trade_save_failure (JS.Str "user-1") demo_trade demo_save_down eq_refl).
Defined.

(** ** The backfill script *)

Lemma Day_of_midnight z : Date.Day (z * Date.msPerDay) = z.
Proof. unfold Date.Day, Date.msPerDay. apply Z.div_mul. lia. Qed.

Lemma setUTCHours_midnight tv : day_min <= Date.Day tv <= day_max ->
  setUTCHours (Date.Time tv) 0 0 0 0 = Date.Time (Date.Day tv * Date.msPerDay).
Proof.
  intros H. unfold setUTCHours, Date.MakeDate, MakeTime.
  replace (Date.Day tv * Date.msPerDay + (0 * 3600000 + 0 * 60000 + 0 * 1000 + 0))
    with (Date.Day tv * Date.msPerDay) by lia.
  apply TimeClip_valid, in_range_valid. rewrite Day_of_midnight. exact H.
Qed.

(** X18. [get_start_of_day_days_ago] is midnight UTC of the day [days]
    days before today, across the ends of months and years.  So the
    aggregation of the script, asked for the trades from
    [get_start_of_day_days_ago(35)] on, takes in the whole of the day 35 days
    before today. *)
Theorem start_of_day_days_ago now days :
  day_min <= Date.Day now - days <= day_max -> day_min <= Date.Day now <= day_max ->
  Backfill.get_start_of_day_days_ago now days =
    Date.Time ((Date.Day now - days) * Date.msPerDay) /\
  (days = 35 ->
   forall t, Date.Day t = Date.Day now - 35 ->
     exists start, Backfill.start_date now = Date.Time start /\ start <= t).
Proof.
  intros Hd Hn.
  assert (H : Backfill.get_start_of_day_days_ago now days =
              Date.Time ((Date.Day now - days) * Date.msPerDay)).
  { unfold Backfill.get_start_of_day_days_ago. cbv zeta.
    change (Date.setUTCDate _ _) with (get_date_days_ago now days).
    rewrite get_date_days_ago_shift by (apply in_range_valid; exact Hn).
    assert (Hs : day_min <= Date.Day (now - days * Date.msPerDay) <= day_max)
      by (rewrite Day_shift; exact Hd).
    rewrite TimeClip_valid by (apply in_range_valid; exact Hs).
    rewrite setUTCHours_midnight by exact Hs. rewrite Day_shift. reflexivity. }
  split; [exact H|]. intros -> t Ht. exists ((Date.Day now - 35) * Date.msPerDay).
  split; [exact H|]. rewrite <- Ht. apply Day_bounds.
Qed.

Lemma start_of_day_days_ago_witness :
  Backfill.get_start_of_day_days_ago demo_now 35 = Date.Time 1762819200000.
Proof.
  apply (start_of_day_days_ago demo_now 35).
  - vm_compute. split; discriminate.
  - exact demo_now_in_range.
Defined.

(** Reading back what [pad] writes. *)
Lemma read_fixed_pad w : forall k n rest acc,
  0 <= n < 10 ^ Z.of_nat w ->
  read_fixed (w + k) (Date.pad w n rest) acc = read_fixed k rest (acc * 10 ^ Z.of_nat w + n).
Proof.
  induction w as [|w IH]; intros k n rest acc Hn.
  - simpl in Hn. replace n with 0 by lia. cbn [Date.pad Nat.add]. f_equal. simpl. lia.
  - rewrite Nat2Z.inj_succ, Z.pow_succ_r in Hn by lia.
    cbn [Date.pad]. replace (S w + k)%nat with (w + S k)%nat by lia.
    rewrite IH by (split; [apply Z.div_pos; lia | apply Z.div_lt_upper_bound; lia]).
    cbn [read_fixed]. unfold JS.radix_digit.
    rewrite digit_value_char by (apply Z.mod_pos_bound; lia).
    assert (Hlt : (n mod 10 <? 10) = true) by (apply Z.ltb_lt, Z.mod_pos_bound; lia).
    rewrite Hlt. f_equal.
    rewrite Nat2Z.inj_succ, Z.pow_succ_r by lia.
    pose proof (Z.div_mod n 10 ltac:(lia)). lia.
Qed.

Lemma read_fixed_pad_0 w n rest :
  0 <= n < 10 ^ Z.of_nat w -> read_fixed w (Date.pad w n rest) 0 = Some (n, rest).
Proof.
  intros Hn. replace w with (w + 0)%nat at 1 by lia. rewrite read_fixed_pad by exact Hn.
  reflexivity.
Qed.

Lemma spec_date_suffix z suffix :
  spec_date z +:+ suffix =
  let '(y, m, d) := Date.civil_from_days z in
  Date.pad 4 y (String "-" (Date.pad 2 m (String "-" (Date.pad 2 d suffix)))).
Proof.
  rewrite spec_date_acc. destruct (Date.civil_from_days z) as [[y m] d].
  rewrite (pad_app 4 y (String _ _)), (pad_app 2 m (String _ _)), (pad_app 2 d "").
  rewrite (pad_app 4 y (String "-" (Date.pad 2 m _))).
  rewrite (pad_app 2 m (String "-" (Date.pad 2 d suffix))), (pad_app 2 d suffix).
  rewrite !append_assoc, !append_cons, !append_assoc, !append_cons, !append_assoc.
  rewrite !append_nil. reflexivity.
Qed.

Lemma MakeDay_civil z :
  let '(y, m, d) := Date.civil_from_days z in Date.MakeDay y (m - 1) d = z.
Proof.
  pose proof (civil_from_days_spec z) as H.
  destruct (Date.civil_from_days z) as [[y m] d]. destruct H as (Hm & Hd & Heq & _).
  unfold Date.MakeDay. cbv zeta.
  rewrite (Z.div_small (m - 1) 12), (Z.mod_small (m - 1) 12) by lia.
  replace (y + 0) with y by lia. replace (m - 1 + 1) with m by lia. exact Heq.
Qed.

(** The date that [$dateToString] writes for a day is read back by
    [new Date(id + 'T00:00:00Z')] as the midnight of that day. *)
Lemma Date_of_string_spec_date z : day_min <= z <= day_max ->
  Date_of_string (spec_date z +:+ "T00:00:00Z") = Date.Time (z * Date.msPerDay).
Proof.
  intros Hz. unfold Date_of_string, parse_date_time. rewrite spec_date_suffix.
  pose proof (civil_from_days_spec z) as H. pose proof (MakeDay_civil z) as Hday.
  destruct (Date.civil_from_days z) as [[y m] d] eqn:Ec.
  destruct H as (Hm & Hd & _ & Hy). specialize (Hy Hz).
  rewrite (read_fixed_pad_0 4 y) by (simpl; lia). cbn [mbind option_bind expect Ascii.eqb Bool.eqb].
  rewrite (read_fixed_pad_0 2 m) by (simpl; lia). cbn [mbind option_bind expect Ascii.eqb Bool.eqb].
  rewrite (read_fixed_pad_0 2 d) by (simpl; lia). cbn [mbind option_bind expect Ascii.eqb Bool.eqb].
  change (read_fixed 2 "00:00:00Z" 0) with (Some (0, ":00:00Z")).
  cbn [mbind option_bind expect Ascii.eqb Bool.eqb].
  change (read_fixed 2 "00:00Z" 0) with (Some (0, ":00Z")).
  cbn [mbind option_bind expect Ascii.eqb Bool.eqb].
  change (read_fixed 2 "00Z" 0) with (Some (0, "Z")).
  cbn [mbind option_bind expect Ascii.eqb Bool.eqb].
  rewrite Hday, Ec.
  assert (Hc : (String.eqb "" "" && (1 <=? m) && (m <=? 12) && (y =? y) && (m =? m) && (d =? d)
                && (0 <=? 23) && (0 <=? 59) && (0 <=? 59)) = true).
  { rewrite !Z.eqb_refl. replace (1 <=? m) with true by (symmetry; apply Z.leb_le; lia).
    replace (m <=? 12) with true by (symmetry; apply Z.leb_le; lia). reflexivity. }
  rewrite Hc. unfold Date.MakeDate, MakeTime.
  replace (z * Date.msPerDay + (0 * 3600000 + 0 * 60000 + 0 * 1000 + 0))
    with (z * Date.msPerDay) by lia.
  apply TimeClip_valid, in_range_valid. rewrite Day_of_midnight. exact Hz.
Qed.

(** X19. The number of days that the script computes for a day of the
    results: the identifier [YYYY-MM-DD] written for the day number [z] is
    read back as the midnight of that day, and [diff_in_days] from today's
    midnight is the difference of the day numbers. *)
Theorem diff_in_days_of_date_id now z :
  day_min <= Date.Day now <= day_max -> day_min <= z <= day_max ->
  Date_of_string (spec_date z +:+ "T00:00:00Z") = Date.Time (z * Date.msPerDay) /\
  Backfill.diff_in_days (setUTCHours (Date.current now) 0 0 0 0)
                        (Date_of_string (spec_date z +:+ "T00:00:00Z")) =
  JS.Int (Date.Day now - z).
Proof.
  intros Hn Hz. rewrite (Date_of_string_spec_date z Hz). split; [reflexivity|].
  unfold Date.current. rewrite TimeClip_valid by (apply in_range_valid; exact Hn).
  rewrite setUTCHours_midnight by exact Hn.
  unfold Backfill.diff_in_days, time_value, JS_sub, floor_div. cbv zeta. f_equal.
  change (24 * 60 * 60 * 1000) with Date.msPerDay.
  rewrite <- Z.mul_sub_distr_r. apply Z.div_mul. unfold Date.msPerDay. lia.
Qed.

Lemma diff_in_days_of_date_id_witness :
  Backfill.diff_in_days (setUTCHours (Date.current demo_now) 0 0 0 0)
                        (Date_of_string (spec_date 20403 +:+ "T00:00:00Z")) =
  JS.Int (Date.Day demo_now - 20403).
Proof.
  apply (diff_in_days_of_date_id demo_now 20403 demo_now_in_range).
  unfold day_min, day_max. lia.
Defined.

Lemma send_run c p :
  Backfill.send c p =
  (if hd false (Backfill.failures p) then Err StoreUnavailable else Ok tt, after_send c p).
Proof.
  unfold Backfill.send, after_send. simpl.
  destruct p as [db [|[] fs] sent console]; reflexivity.
Qed.

Lemma backfill_day_run now today day p :
  Backfill.backfill_day now today day p =
  let key := bucket_key (Backfill.id day) in
  let value := JS.string_of_Z (Backfill.count day) in
  let p1 := after_send (Backfill.SET key value) p in
  if hd false (Backfill.failures p) then (Err StoreUnavailable, p1) else
  let p2 := with_db (<[key := Redis.Entry value None]> (Backfill.db p)) p1 in
  match ttl_days today day with
  | JS.Int ttl =>
      if 0 <? ttl then
        let p3 := after_send (Backfill.EXPIRE key (ttl * 24 * 60 * 60)) p2 in
        if hd false (Backfill.failures p1) then (Err StoreUnavailable, p3) else
        (Ok tt,
         with_line (set_line today day)
           (with_db (<[key := Redis.Entry value (Some (now + ttl * 24 * 60 * 60 * 1000))]>
                       (Backfill.db p)) p3))
      else (Ok tt, with_line (set_line today day) p2)
  | JS.NaN => (Ok tt, with_line (set_line today day) p2)
  end.
Proof.
  unfold Backfill.backfill_day, Backfill.redis_set, Backfill.redis_expire, Backfill.and_then.
  cbv zeta. rewrite send_run.
  change (Backfill.KEY_PREFIX +:+ ":" +:+ Backfill.id day) with (bucket_key (Backfill.id day)).
  change (JS.to_string (JS.Num (JS.Int (Backfill.count day))))
    with (JS.string_of_Z (Backfill.count day)).
  fold (ttl_days today day).
  destruct (hd false (Backfill.failures p)); [reflexivity|].
  cbn [Backfill.write]. unfold Backfill.write at 1.
  destruct (ttl_days today day) as [|ttl] eqn:Ettl.
  - unfold Backfill.skip, Backfill.console_log, set_line. rewrite Ettl. reflexivity.
  - destruct (0 <? ttl).
    + rewrite send_run. cbn [Backfill.failures after_send].
      destruct (hd false (tl (Backfill.failures p))); [reflexivity|].
      unfold Backfill.write, Backfill.console_log, set_line, with_line, with_db.
      cbn [Backfill.db Backfill.failures Backfill.sent Backfill.console after_send].
      rewrite expire_fresh, Ettl. reflexivity.
    + unfold Backfill.skip, Backfill.console_log, set_line. rewrite Ettl. reflexivity.
Qed.

Lemma ttl_days_spec_date now z c :
  day_min <= Date.Day now <= day_max -> day_min <= z <= day_max ->
  ttl_days (setUTCHours (Date.current now) 0 0 0 0) (Backfill.DayCount (spec_date z) c) =
  JS.Int (35 - (Date.Day now - z)).
Proof.
  intros Hn Hz. unfold ttl_days. cbn [Backfill.id].
  rewrite (Date_of_string_spec_date z Hz).
  unfold Date.current. rewrite TimeClip_valid by (apply in_range_valid; exact Hn).
  rewrite setUTCHours_midnight by exact Hn.
  unfold Backfill.diff_in_days, time_value, JS_sub, floor_div. cbv zeta. do 2 f_equal.
  change (24 * 60 * 60 * 1000) with Date.msPerDay.
  rewrite <- Z.mul_sub_distr_r. apply Z.div_mul. unfold Date.msPerDay. lia.
Qed.

(** One day of the results, when the store answers. *)
Lemma backfill_day_ok now z c p :
  day_min <= Date.Day now <= day_max -> day_min <= z <= day_max ->
  hd false (Backfill.failures p) = false ->
  hd false (tl (Backfill.failures p)) = false ->
  let today := setUTCHours (Date.current now) 0 0 0 0 in
  let day := Backfill.DayCount (spec_date z) c in
  let key := spec_key z in
  let value := JS.string_of_Z c in
  let db' := <[key := Redis.Entry value (backfill_deadline now z)]> (Backfill.db p) in
  let p1 := after_send (Backfill.SET key value) p in
  let p2 := with_db (<[key := Redis.Entry value None]> (Backfill.db p)) p1 in
  Backfill.backfill_day now today day p =
  (Ok tt,
   with_line (set_line today day)
     (if Date.Day now - z <? 35
      then with_db db' (after_send (Backfill.EXPIRE key ((35 - (Date.Day now - z)) * 24 * 60 * 60)) p2)
      else p2)).
Proof.
  intros Hn Hz H1 H2. cbv zeta. rewrite backfill_day_run. cbv zeta.
  rewrite H1, (ttl_days_spec_date now z c Hn Hz). cbn [Backfill.id Backfill.count].
  rewrite bucket_key_spec_date. unfold backfill_deadline.
  destruct (Date.Day now - z <? 35) eqn:E.
  - apply Z.ltb_lt in E. replace (0 <? 35 - (Date.Day now - z)) with true
      by (symmetry; apply Z.ltb_lt; lia).
    change (Backfill.failures (after_send _ p)) with (tl (Backfill.failures p)). rewrite H2.
    assert (Hdl : now + (35 - (Date.Day now - z)) * 24 * 60 * 60 * 1000 =
                  now - (Date.Day now - z) * Date.msPerDay + retention_ms)
      by (unfold retention_ms, retention_seconds, Date.msPerDay; lia).
    rewrite Hdl. reflexivity.
  - apply Z.ltb_ge in E. replace (0 <? 35 - (Date.Day now - z)) with false
      by (symmetry; apply Z.ltb_ge; lia).
    reflexivity.
Qed.

(** X20. A day of the results less than 35 days old: the script writes
    its count and gives the bucket the deadline that [record_trade] would
    have given it for a first trade on that day at the present time of day:
    that instant plus 35 x 24 hours. *)
Theorem backfill_day_deadline now z c p :
  day_min <= Date.Day now <= day_max -> day_min <= z <= day_max ->
  Date.Day now - z < 35 ->
  hd false (Backfill.failures p) = false ->
  hd false (tl (Backfill.failures p)) = false ->
  let today := setUTCHours (Date.current now) 0 0 0 0 in
  let out := Backfill.backfill_day now today (Backfill.DayCount (spec_date z) c) p in
  let first := now - (Date.Day now - z) * Date.msPerDay in
  out.1 = Ok tt /\
  Backfill.db out.2 =
    <[spec_key z := Redis.Entry (JS.string_of_Z c) (Some (first + 35 * 24 * 60 * 60 * 1000))]>
      (Backfill.db p) /\
  Date.Day first = z /\
  Date.TimeWithinDay first = Date.TimeWithinDay now.
Proof.
  intros Hn Hz Hd H1 H2 today out first. subst out today.
  rewrite (backfill_day_ok now z c p Hn Hz H1 H2). cbv zeta. cbn [fst snd].
  unfold backfill_deadline. apply Z.ltb_lt in Hd. rewrite Hd.
  split; [reflexivity|]. split; [reflexivity|]. subst first.
  rewrite Day_shift, TimeWithinDay_shift. split; [lia | reflexivity].
Qed.

Lemma backfill_day_deadline_witness :
  Backfill.db
    (Backfill.backfill_day demo_now (setUTCHours (Date.current demo_now) 0 0 0 0)
       (Backfill.DayCount (spec_date 20437) 7) demo_process).2 =
  <[spec_key 20437 :=
      Redis.Entry (JS.string_of_Z 7)
        (Some (demo_now - (Date.Day demo_now - 20437) * Date.msPerDay
               + 35 * 24 * 60 * 60 * 1000))]> ∅.
Proof.
  apply (backfill_day_deadline demo_now 20437 7 demo_process demo_now_in_range).
  - unfold day_min, day_max. lia.
  - vm_compute. reflexivity.
  - reflexivity.
  - reflexivity.
Defined.

(** X21. A day of the results that is 35 days old or older, as the first
    day the aggregation takes in is: the script writes its count, sends no
    EXPIRE and leaves the bucket without deadline. *)
Theorem backfill_old_day_never_expires now z c p :
  day_min <= Date.Day now <= day_max -> day_min <= z <= day_max ->
  35 <= Date.Day now - z ->
  hd false (Backfill.failures p) = false ->
  let today := setUTCHours (Date.current now) 0 0 0 0 in
  let out := Backfill.backfill_day now today (Backfill.DayCount (spec_date z) c) p in
  out.1 = Ok tt /\
  Backfill.db out.2 = <[spec_key z := Redis.Entry (JS.string_of_Z c) None]> (Backfill.db p) /\
  Backfill.sent out.2 = Backfill.sent p ++ [Backfill.SET (spec_key z) (JS.string_of_Z c)] /\
  forall later, Redis.live later (Redis.Entry (JS.string_of_Z c) None) = true.
Proof.
  intros Hn Hz Hd H1 today out. subst out today.
  rewrite backfill_day_run. cbv zeta.
  rewrite H1, (ttl_days_spec_date now z c Hn Hz). cbn [Backfill.id Backfill.count].
  rewrite bucket_key_spec_date.
  replace (0 <? 35 - (Date.Day now - z)) with false by (symmetry; apply Z.ltb_ge; lia).
  cbn [fst snd]. repeat split.
Qed.

Lemma backfill_old_day_never_expires_witness :
  Backfill.db
    (Backfill.backfill_day demo_now (setUTCHours (Date.current demo_now) 0 0 0 0)
       (Backfill.DayCount (spec_date (Date.Day demo_now - 35)) 5) demo_process).2 =
  <[spec_key (Date.Day demo_now - 35) := Redis.Entry (JS.string_of_Z 5) None]> ∅.
Proof.
  apply (backfill_old_day_never_expires demo_now (Date.Day demo_now - 35) 5 demo_process
           demo_now_in_range).
  - vm_compute. split; discriminate.
  - vm_compute. discriminate.
  - reflexivity.
Defined.

Lemma and_then_run {A B} (m : Backfill.run A) (k : A -> Backfill.run B) p :
  Backfill.and_then m k p =
  match m p with
  | (Ok a, p') => k a p'
  | (Err e, p') => (Err e, p')
  end.
Proof. reflexivity. Qed.

Lemma backfill_day_store_ok now today day p :
  0 <= Backfill.count day <= Redis.LLONG_MAX ->
  store_ok (Backfill.db p) ->
  store_ok (Backfill.db (Backfill.backfill_day now today day p).2).
Proof.
  intros Hc Hok. rewrite backfill_day_run. cbv zeta.
  assert (Hv : forall dl, bucket_ok (Redis.Entry (JS.string_of_Z (Backfill.count day)) dl) = true).
  { intros dl. unfold bucket_ok. cbn [Redis.val]. rewrite string2ll_string_of_Z by exact Hc.
    apply Z.leb_le. lia. }
  destruct (hd false (Backfill.failures p)); [exact Hok|].
  destruct (ttl_days today day) as [|ttl].
  - cbn [snd]. apply store_ok_insert; auto.
  - destruct (0 <? ttl).
    + destruct (hd false _); cbn [snd]; apply store_ok_insert; auto.
    + cbn [snd]. apply store_ok_insert; auto.
Qed.

Lemma for_of_store_ok now today : forall results p,
  Forall (fun day => 0 <= Backfill.count day <= Redis.LLONG_MAX) results ->
  store_ok (Backfill.db p) ->
  store_ok (Backfill.db (Backfill.for_of (Backfill.backfill_day now today) results p).2).
Proof.
  induction results as [|day rest IH]; intros p Hall Hok; [exact Hok|].
  inversion Hall as [|? ? Hc Hrest]; subst.
  cbn [Backfill.for_of]. rewrite and_then_run.
  pose proof (backfill_day_store_ok now today day p Hc Hok) as H1.
  destruct (Backfill.backfill_day now today day p) as [[[]|e] p1]; cbn [snd] in H1.
  - apply IH; assumption.
  - exact H1.
Qed.

Lemma backfill_run now results p :
  Backfill.backfill now results p =
  let today := setUTCHours (Date.current now) 0 0 0 0 in
  let p1 := after_send Backfill.CONNECT p in
  if hd false (Backfill.failures p) then (Err StoreUnavailable, p1) else
  let p2 := with_line ("Found " +:+ JS.string_of_Z (Z.of_nat (length results))
                       +:+ " days with trades")
              (with_line "Starting backfill of trade counts..." p1) in
  match Backfill.for_of (Backfill.backfill_day now today) results p2 with
  | (Ok _, p3) =>
      let p4 := with_line "Backfill complete!" p3 in
      (if hd false (Backfill.failures p4) then Err StoreUnavailable else Ok tt,
       after_send Backfill.DISCONNECT p4)
  | (Err e, p3) => (Err e, p3)
  end.
Proof.
  unfold Backfill.backfill. rewrite and_then_run, send_run. cbv zeta.
  destruct (hd false (Backfill.failures p)); [reflexivity|].
  rewrite and_then_run. unfold Backfill.console_log at 1.
  rewrite and_then_run. unfold Backfill.console_log at 1.
  rewrite and_then_run. fold (with_line "Starting backfill of trade counts..."
                                (after_send Backfill.CONNECT p)).
  match goal with |- context [Backfill.for_of ?b results ?q] =>
    change q with (with_line ("Found " +:+ JS.string_of_Z (Z.of_nat (length results))
                              +:+ " days with trades")
                     (with_line "Starting backfill of trade counts..."
                        (after_send Backfill.CONNECT p)));
    destruct (Backfill.for_of b results _) as [[[]|e] p3] end; [|reflexivity].
  rewrite and_then_run. unfold Backfill.console_log at 1. rewrite send_run. reflexivity.
Qed.

(** X22. The script keeps the data model, whatever fails on the way:
    when the counts of the results are non-negative 64-bit integers and every
    bucket of the store holds a non-negative integer before the run, so it is
    after the run.  To the reads, a bucket written by the script is a bucket
    like those that [record_trade] writes. *)
Theorem backfill_preserves_store_ok now results p :
  Forall (fun day => 0 <= Backfill.count day <= Redis.LLONG_MAX) results ->
  store_ok (Backfill.db p) ->
  store_ok (Backfill.db (Backfill.main now results p).2).
Proof.
  intros Hall Hok. unfold Backfill.main.
  assert (H : store_ok (Backfill.db (Backfill.backfill now results p).2)).
  { rewrite backfill_run. cbv zeta.
    destruct (hd false (Backfill.failures p)); [exact Hok|].
    match goal with |- context [Backfill.for_of (Backfill.backfill_day now ?t) results ?q] =>
      pose proof (for_of_store_ok now t results q Hall Hok) as Hfor;
      destruct (Backfill.for_of (Backfill.backfill_day now t) results q) as [[[]|e] p3]
    end; exact Hfor. }
  destruct (Backfill.backfill now results p) as [[[]|e] p']; exact H.
Qed.

Lemma backfill_preserves_store_ok_witness :
  store_ok (Backfill.db (Backfill.main demo_now
              [Backfill.DayCount "2025-11-11" 5; Backfill.DayCount "2025-12-15" 7]
              demo_process).2).
Proof.
  apply (backfill_preserves_store_ok demo_now).
  - repeat constructor; cbn [Backfill.count]; unfold Redis.LLONG_MAX; lia.
  - intros k e _ H. cbn [Backfill.db demo_process] in H. rewrite lookup_empty in H. discriminate.
Defined.

Lemma for_of_ok now : forall days p,
  day_min <= Date.Day now <= day_max ->
  Forall (fun day => day_min <= day.1 <= day_max) days ->
  Backfill.failures p = [] ->
  exists p',
    Backfill.for_of (Backfill.backfill_day now (setUTCHours (Date.current now) 0 0 0 0))
      (results_of days) p = (Ok tt, p') /\
    Backfill.failures p' = [] /\
    Backfill.db p' = foldl (backfill_step now) (Backfill.db p) days.
Proof.
  induction days as [|[z c] rest IH]; intros p Hn Hall Hf.
  - exists p. repeat split. exact Hf.
  - inversion Hall as [|? ? Hz Hrest]; subst. cbn [fst] in Hz.
    cbn [results_of map Backfill.for_of fst snd]. rewrite and_then_run.
    rewrite (backfill_day_ok now z c p Hn Hz) by (rewrite Hf; reflexivity). cbv zeta.
    match goal with |- context [Backfill.for_of _ _ ?q] => set (p1 := q) end.
    assert (H1 : Backfill.failures p1 = [] /\
                 Backfill.db p1 = backfill_step now (Backfill.db p) (z, c)).
    { subst p1. unfold backfill_step, backfill_deadline. cbn [fst snd].
      destruct (Date.Day now - z <? 35); cbn; rewrite Hf; split; reflexivity. }
    destruct H1 as [Hf1 Hdb1].
    destruct (IH p1 Hn Hrest Hf1) as (p' & Hrun & Hf' & Hdb').
    exists p'. fold (results_of rest). rewrite Hrun. split; [reflexivity|].
    split; [exact Hf'|]. rewrite Hdb', Hdb1. reflexivity.
Qed.

Lemma spec_key_inj a b :
  day_min <= a <= day_max -> day_min <= b <= day_max -> spec_key a = spec_key b -> a = b.
Proof.
  intros Ha Hb H. rewrite <- !bucket_key_spec_date in H. apply bucket_key_inj in H.
  exact (spec_date_inj a b Ha Hb H).
Qed.

Lemma backfill_steps_lookup now : forall days db z,
  NoDup (map fst days) ->
  Forall (fun day => day_min <= day.1 <= day_max) days ->
  day_min <= z <= day_max ->
  foldl (backfill_step now) db days !! spec_key z =
  match (list_to_map days : gmap Z Z) !! z with
  | Some c => Some (Redis.Entry (JS.string_of_Z c) (backfill_deadline now z))
  | None => db !! spec_key z
  end.
Proof.
  induction days as [|[z0 c0] rest IH]; intros db z Hnd Hall Hz.
  - cbn [foldl list_to_map foldr]. rewrite lookup_empty. reflexivity.
  - inversion Hall as [|? ? Hz0 Hrest]; subst. cbn [fst] in Hz0.
    cbn [map fst] in Hnd. apply NoDup_cons in Hnd as [Hnotin Hnd].
    cbn [foldl]. rewrite (IH _ z Hnd Hrest Hz).
    rewrite list_to_map_cons. unfold backfill_step. cbn [fst snd].
    destruct (decide (z0 = z)) as [->|Hne].
    + rewrite !lookup_insert_eq.
      rewrite (not_elem_of_list_to_map_1 rest z) by exact Hnotin. reflexivity.
    + assert (Hk : spec_key z0 <> spec_key z)
        by (intros Heq; apply Hne; exact (spec_key_inj z0 z Hz0 Hz Heq)).
      rewrite (lookup_insert_ne _ z0 z c0 Hne).
      destruct (list_to_map rest !! z); [reflexivity|]. apply lookup_insert_ne. exact Hk.
Qed.

Lemma backfill_steps_store_ok now : forall days db,
  Forall (fun day => 0 <= day.2 <= Redis.LLONG_MAX) days ->
  store_ok db -> store_ok (foldl (backfill_step now) db days).
Proof.
  induction days as [|[z c] rest IH]; intros db Hall Hok; [exact Hok|].
  inversion Hall as [|? ? Hc Hrest]; subst. cbn [snd] in Hc.
  cbn [foldl]. apply IH; [exact Hrest|]. unfold backfill_step. cbn [fst snd].
  apply store_ok_insert; [exact Hok|]. intros _. unfold bucket_ok. cbn [Redis.val].
  rewrite string2ll_string_of_Z by exact Hc. apply Z.leb_le. lia.
Qed.

Lemma spec_sum_ext f g today n :
  (forall i, 0 <= i < n -> f (today - i) = g (today - i)) ->
  spec_sum f today n = spec_sum g today n.
Proof.
  intros H. unfold spec_sum. f_equal. apply map_ext_in. intros i Hi.
  apply H. apply list_elem_of_In, elem_of_seqZ in Hi. lia.
Qed.

Lemma get_widget_stats_spec now w :
  window_in_range now 30 -> store_ok (store w) -> no_fault 2 w ->
  (trade_stats.get_widget_stats now w).1 = Ok (spec_widget_stats (store w) now).
Proof.
  intros Hr Hok Hf. rewrite (get_widget_stats_ok now w Hr Hf). cbn [fst]. f_equal.
  unfold spec_widget_stats, spec_sum.
  rewrite (window_counts_spec now (store w) (Date.Day now) 30 Hok).
  rewrite <- !sum_numbers_Int. reflexivity.
Qed.

(** X23. The script and the widget together: after a run of the script
    into an empty store that answers, over results with one document per
    day, [get_widget_stats] returns the sums of the counts of the results
    over the last 7 and the last 30 days; a day without document counts as
    0. *)
Theorem widget_reads_backfilled_counts now days w :
  window_in_range now 30 ->
  NoDup (map fst days) ->
  Forall (fun day => day_min <= day.1 <= day_max) days ->
  Forall (fun day => 0 <= day.2 <= Redis.LLONG_MAX) days ->
  let script := Backfill.main now (results_of days) (Backfill.Process ∅ [] [] []) in
  store w = Backfill.db script.2 -> no_fault 2 w ->
  script.1 = 0 /\
  (trade_stats.get_widget_stats now w).1 =
    Ok (MkStats (JS.Int (spec_sum (count_in days) (Date.Day now) 7))
                (JS.Int (spec_sum (count_in days) (Date.Day now) 30))
                (spec_timestamp now)).
Proof.
  intros Hr Hnd Hdays Hcounts script Hst Hf.
  assert (Hn : day_min <= Date.Day now <= day_max) by (unfold window_in_range in Hr; lia).
  assert (Hscript : script.1 = 0 /\
                    Backfill.db script.2 = foldl (backfill_step now) ∅ days).
  { subst script. unfold Backfill.main. rewrite backfill_run. cbv zeta.
    cbn [Backfill.failures hd].
    match goal with |- context [Backfill.for_of _ _ ?q] =>
      destruct (for_of_ok now days q Hn Hdays eq_refl) as (p' & -> & Hf' & Hdb') end.
    cbn [Backfill.failures with_line]. rewrite Hf'. cbn [hd fst snd].
    split; [reflexivity|]. exact Hdb'. }
  destruct Hscript as [Hcode Hdb]. split; [exact Hcode|].
  rewrite Hdb in Hst.
  assert (Hok : store_ok (store w)).
  { rewrite Hst. apply backfill_steps_store_ok; [exact Hcounts|].
    intros k e _ H. rewrite lookup_empty in H. discriminate. }
  rewrite (get_widget_stats_spec now w Hr Hok Hf). f_equal. unfold spec_widget_stats.
  assert (Hcount : forall n, 1 <= n <= 30 -> forall i, 0 <= i < n ->
            spec_count (store w) now (Date.Day now - i) = count_in days (Date.Day now - i)).
  { intros n Hn30 i Hi. unfold spec_count, count_in, Redis.lookup.
    assert (Hz : day_min <= Date.Day now - i <= day_max)
      by (unfold window_in_range in Hr; lia).
    rewrite Hst, (backfill_steps_lookup now days ∅ _ Hnd Hdays Hz).
    destruct (list_to_map days !! (Date.Day now - i)) as [c|] eqn:Ec.
    - assert (Hc : 0 <= c <= Redis.LLONG_MAX).
      { apply elem_of_list_to_map_2 in Ec.
        rewrite Forall_forall in Hcounts. exact (Hcounts _ Ec). }
      assert (Hlive : Redis.live now (Redis.Entry (JS.string_of_Z c)
                         (backfill_deadline now (Date.Day now - i))) = true).
      { unfold Redis.live, backfill_deadline. cbn [Redis.deadline].
        destruct (_ <? 35); [|reflexivity]. apply Z.ltb_lt.
        unfold retention_ms, retention_seconds, Date.msPerDay. lia. }
      rewrite Hlive. cbn [Redis.val default]. rewrite string2ll_string_of_Z by exact Hc.
      reflexivity.
    - rewrite lookup_empty. reflexivity. }
  rewrite (spec_sum_ext _ (count_in days) (Date.Day now) 7 (Hcount 7 ltac:(lia))).
  rewrite (spec_sum_ext _ (count_in days) (Date.Day now) 30 (Hcount 30 ltac:(lia))).
  reflexivity.
Qed.

Lemma widget_reads_backfilled_counts_witness :
  (trade_stats.get_widget_stats demo_now demo_backfilled).1 =
  Ok (MkStats (JS.Int (spec_sum (count_in demo_days) (Date.Day demo_now) 7))
              (JS.Int (spec_sum (count_in demo_days) (Date.Day demo_now) 30))
              (spec_timestamp demo_now)).
Proof.
  apply (widget_reads_backfilled_counts demo_now demo_days demo_backfilled
           (demo_in_range 30 ltac:(lia))).
  - repeat constructor; cbn; rewrite ?elem_of_cons, ?elem_of_nil; lia.
  - repeat constructor; cbn [fst]; unfold day_min, day_max; lia.
  - repeat constructor; cbn [snd]; unfold Redis.LLONG_MAX; lia.
  - reflexivity.
  - apply Forall_nil_2.
Defined.

(** ** The pages *)

(** X24. [LiveStats]: a fetch that fails, a response that is not ok (the
    rejection of the limiter, the error response) and a body without success
    or data leave the state as it is, so the numbers shown stay; no response
    takes a loaded component back to loading; and the numbers held after a
    fetch are never NaN when they were not before. *)
Theorem LiveStats_keeps_numbers f s :
  (match f with
   | FetchFailed _ => True
   | Received r => response_ok r = false \/ success (body r) = false \/ data (body r) = None
   end -> LiveStats.fetchStats f s = s) /\
  (LiveStats.isLoading s = false -> LiveStats.isLoading (LiveStats.fetchStats f s) = false) /\
  (LiveStats.trades7d s <> Some JS.NaN -> LiveStats.trades30d s <> Some JS.NaN ->
   LiveStats.currentValue (LiveStats.fetchStats f s) <> JS.NaN).
Proof.
  assert (Hz : forall n, json_or_zero n <> JS.NaN).
  { intros [|z]; cbn; [discriminate|]. destruct (z =? 0); discriminate. }
  split; [|split].
  - destruct f as [msg|r]; cbn; [reflexivity|].
    intros [-> | [H | H]]; [reflexivity| |]; destruct (response_ok r); try reflexivity.
    + rewrite H. reflexivity.
    + rewrite H. destruct (success (body r)); reflexivity.
  - destruct f as [msg|r]; cbn; [auto|]. intros Hl.
    destruct (response_ok r); [|exact Hl].
    destruct (success (body r)); [|exact Hl].
    destruct (data (body r)); [reflexivity | exact Hl].
  - intros H7 H30.
    assert (Hs : LiveStats.currentValue s <> JS.NaN).
    { unfold LiveStats.currentValue. destruct (LiveStats.period s).
      - destruct (LiveStats.trades7d s) as [[|z]|]; cbn; congruence.
      - destruct (LiveStats.trades30d s) as [[|z]|]; cbn; congruence. }
    destruct f as [msg|r]; cbn; [exact Hs|].
    destruct (response_ok r); [|exact Hs].
    destruct (success (body r)); [|exact Hs].
    destruct (data (body r)) as [d|]; [|exact Hs].
    unfold LiveStats.currentValue. cbn. destruct (LiveStats.period s); cbn; apply Hz.
Qed.

Lemma or_zero_Int z : or_zero (JS.Int z) = JS.Int z.
Proof. cbn. destruct (z =? 0) eqn:E; [|reflexivity]. apply Z.eqb_eq in E. subst. reflexivity. Qed.

Lemma fetchStats_success res stats msg s :
  LiveStats.fetchStats (Received (Response 200 res (Envelope true (Some stats) msg))) s =
  LiveStats.State (LiveStats.period s) (LiveStats.showTooltip s)
                  (Some (json_or_zero (number_to_json (trades_7d stats))))
                  (Some (json_or_zero (number_to_json (trades_30d stats)))).
Proof. reflexivity. Qed.

(** X25. From the store to [LiveStats]: for a client that the limiter
    lets through, a store of non-negative integer buckets that add up, over
    the window, to a safe integer, and that answers, the response of the
    route, given to [fetchStats], leaves the component loaded with the totals
    of the reference algorithm, and the number shown for 7 days is at most
    the number shown for 30 days. *)
Theorem LiveStats_shows_totals client now w s :
  window_in_range now 30 -> store_ok (store w) -> window_safe (store w) now 30 ->
  no_fault 2 w ->
  hits w !! client = None ->
  exists r,
    (public_routes client now w).1 = Ok r /\
    let s' := LiveStats.fetchStats (Received r) s in
    LiveStats.trades7d s' = Some (trades_7d (spec_widget_stats (store w) now)) /\
    LiveStats.trades30d s' = Some (trades_30d (spec_widget_stats (store w) now)) /\
    LiveStats.isLoading s' = false /\
    JS.le (LiveStats.currentValue (LiveStats.setPeriod LiveStats.P7d s'))
          (LiveStats.currentValue (LiveStats.setPeriod LiveStats.P30d s')) = true.
Proof.
  intros Hr Hok _ Hf Hhits. rewrite public_routes_run. cbv zeta. rewrite Hhits.
  cbn [default]. rewrite filter_nil. cbn [app length].
  change (Z.of_nat 1 <=? 120) with true. cbv iota.
  set (w1 := with_hits _ w).
  assert (Hrun : trade_stats.get_widget_stats now w1 =
                 (Ok (spec_widget_stats (store w) now), (trade_stats.get_widget_stats now w1).2)).
  { rewrite (surjective_pairing (trade_stats.get_widget_stats now w1)) at 1.
    rewrite (get_widget_stats_spec now w1 Hr Hok Hf). reflexivity. }
  rewrite Hrun. cbn [fst]. eexists. split; [reflexivity|].
  cbv zeta. rewrite fetchStats_success. unfold spec_widget_stats.
  cbn [trades_7d trades_30d LiveStats.trades7d LiveStats.trades30d LiveStats.isLoading
       LiveStats.setPeriod LiveStats.currentValue LiveStats.period default
       number_to_json json_or_zero].
  rewrite !or_zero_Int. do 3 (split; [reflexivity|]). cbn [JS.le].
  unfold spec_sum.
  set (zs := map (fun i => spec_count (store w) now (Date.Day now - i)) (seqZ 0 30)).
  assert (Hzs : Forall (fun z => 0 <= z) zs).
  { apply Forall_forall. intros z Hz.
    apply (list_elem_of_fmap (fun i => spec_count (store w) now (Date.Day now - i))) in Hz
      as (i & -> & _).
    apply spec_count_nonneg. exact Hok. }
  change (seqZ 0 7) with (take 7 (seqZ 0 30)). rewrite <- firstn_map. fold zs.
  apply Z.leb_le. apply (foldr_add_take zs Hzs).
Qed.

Lemma LiveStats_shows_totals_witness :
  exists r,
    (public_routes "203.0.113.7" demo_now demo_world).1 = Ok r /\
    LiveStats.isLoading (LiveStats.fetchStats (Received r) LiveStats.initial) = false.
Proof.
  destruct (LiveStats_shows_totals "203.0.113.7" demo_now demo_world LiveStats.initial
              (demo_in_range 30 ltac:(lia)) demo_store_ok (demo_safe 30 ltac:(lia))
              (demo_no_fault 2) eq_refl)
    as (r & Hr & _ & _ & Hl & _).
  exists r. split; assumption.
Defined.

(** Over a store of non-negative integer buckets the totals are numbers. *)
Lemma get_widget_stats_numbers now w stats w' :
  store_ok (store w) ->
  trade_stats.get_widget_stats now w = (Ok stats, w') ->
  exists n7d n30d, trades_7d stats = JS.Int n7d /\ trades_30d stats = JS.Int n30d.
Proof.
  intros Hok H. apply get_widget_stats_inv in H as (ds & _ & -> & ->).
  destruct (window_counts_nonneg now (store w) ds Hok) as (zs & _ & ->).
  rewrite firstn_map, !sum_numbers_Int. eauto.
Qed.

(** X26. From the server to [TradeCountWidget], over a store whose
    buckets hold non-negative integers: whatever fails, the route answers,
    and the hook given its response ends loading; the widget shows the error
    box, the statistics kept, when the request was rejected by the limiter or
    the read failed, and the totals that [get_widget_stats] returned
    otherwise; it does not throw. *)
Theorem TradeCountWidget_shows_totals_or_error client now w s :
  store_ok (store w) ->
  exists r,
    (public_routes client now w).1 = Ok r /\
    let s' := use_trade_stats.fetch_stats (Received r) s in
    use_trade_stats.loading s' = false /\
    (use_trade_stats.TradeCountWidget s' = use_trade_stats.Unable_to_load /\
     use_trade_stats.stats s' = use_trade_stats.stats s /\
     success (body r) = false
     \/
     exists w1 stats,
       store w1 = store w /\
       (trade_stats.get_widget_stats now w1).1 = Ok stats /\
       use_trade_stats.TradeCountWidget s' =
         use_trade_stats.Values (trades_7d stats) (trades_30d stats)).
Proof.
  intros Hok. rewrite public_routes_run. cbv zeta.
  destruct (Z.of_nat _ <=? 120).
  - set (w1 := with_hits _ w).
    destruct (trade_stats.get_widget_stats now w1) as [[stats|e] w2] eqn:E; cbn [fst].
    + destruct (get_widget_stats_numbers now w1 stats w2 Hok E) as (n7d & n30d & H7 & H30).
      eexists. split; [reflexivity|]. cbv zeta. split; [reflexivity|]. right.
      exists w1, stats. rewrite E. split; [reflexivity|]. split; [reflexivity|].
      cbn. rewrite H7, H30. reflexivity.
    + eexists. split; [reflexivity|]. cbv zeta. split; [reflexivity|]. left. repeat split.
  - cbn [fst]. eexists. split; [reflexivity|]. cbv zeta. split; [reflexivity|].
    left. repeat split.
Qed.

Lemma TradeCountWidget_shows_totals_or_error_witness :
  exists r,
    (public_routes "203.0.113.7" demo_now demo_world).1 = Ok r /\
    use_trade_stats.loading
      (use_trade_stats.fetch_stats (Received r) use_trade_stats.initial) = false.
Proof.
  destruct (TradeCountWidget_shows_totals_or_error "203.0.113.7" demo_now demo_world
              use_trade_stats.initial demo_store_ok) as (r & Hr & Hl & _).
  exists r. split; assumption.
Defined.

Lemma sum_numbers_NaN l : JS.NaN ∈ l -> sum_numbers l = JS.NaN.
Proof.
  intros Hin. unfold sum_numbers. generalize (JS.Int 0).
  induction l as [|x l IH]; intros a; [inversion Hin|].
  cbn [foldl]. apply elem_of_cons in Hin as [<- | Hin].
  - assert (Ha : JS.add a JS.NaN = JS.NaN) by (destruct a; reflexivity).
    rewrite Ha. clear. induction l as [|y l IH]; [reflexivity | exact IH].
  - apply IH. exact Hin.
Qed.

(** X27. A bucket of the last 7 days whose value does not read as a
    number reaches the pages as [null]: the route answers 200 with both
    totals NaN, which JSON writes as [null]; [TradeCountWidget] then throws a
    TypeError on [stats.trades_7d.toLocaleString()], while [LiveStats] holds
    and shows 0. *)
Theorem non_number_bucket_breaks_widget client now w i e s ls :
  window_in_range now 30 -> no_fault 2 w -> 0 <= i < 7 ->
  Redis.lookup now (store w) (spec_key (Date.Day now - i)) = Some e ->
  count_of (Some (Redis.val e)) = JS.NaN ->
  hits w !! client = None ->
  exists r,
    (public_routes client now w).1 = Ok r /\
    status r = 200 /\
    json_data (response_json r) =
      Some (JsonStats JSON_null JSON_null (spec_timestamp now)) /\
    use_trade_stats.TradeCountWidget (use_trade_stats.fetch_stats (Received r) s) =
      use_trade_stats.TypeError /\
    LiveStats.currentValue (LiveStats.fetchStats (Received r) ls) = JS.Int 0.
Proof.
  intros Hr Hf Hi Hlook Hnan Hhits. rewrite public_routes_run. cbv zeta. rewrite Hhits.
  cbn [default]. rewrite filter_nil. cbn [app length].
  change (Z.of_nat 1 <=? 120) with true. cbv iota.
  set (w1 := with_hits _ w).
  rewrite (get_widget_stats_ok now w1 Hr Hf).
  change (store w1) with (store w).
  set (counts := window_counts now (store w) (spec_window_keys (Date.Day now) 30)).
  assert (Hc : counts !! Z.to_nat i = Some JS.NaN).
  { unfold counts. rewrite window_counts_lookup by lia. rewrite Hlook.
    cbn [fmap option_fmap option_map]. rewrite Hnan. reflexivity. }
  assert (H30 : sum_numbers counts = JS.NaN).
  { apply sum_numbers_NaN. exact (list_elem_of_lookup_2 _ _ _ Hc). }
  assert (H7 : sum_numbers (take 7 counts) = JS.NaN).
  { apply sum_numbers_NaN. apply (list_elem_of_lookup_2 _ (Z.to_nat i)).
    rewrite lookup_take_lt by lia. exact Hc. }
  rewrite H7, H30. eexists. split; [reflexivity|]. split; [reflexivity|].
  split; [reflexivity|]. split; [reflexivity|].
  rewrite fetchStats_success. unfold LiveStats.currentValue.
  cbn [LiveStats.period LiveStats.trades7d LiveStats.trades30d trades_7d trades_30d
       number_to_json json_or_zero default].
  destruct (LiveStats.period ls); reflexivity.
Qed.

Lemma non_number_bucket_breaks_widget_witness :
  exists r,
    (public_routes "203.0.113.7" demo_now demo_garbled).1 = Ok r /\
    use_trade_stats.TradeCountWidget
      (use_trade_stats.fetch_stats (Received r) use_trade_stats.initial) =
    use_trade_stats.TypeError.
Proof.
  destruct (non_number_bucket_breaks_widget "203.0.113.7" demo_now demo_garbled 0
              (Redis.Entry "n/a" None) use_trade_stats.initial LiveStats.initial
              (demo_in_range 30 ltac:(lia)) (Forall_nil_2 _) ltac:(lia))
    as (r & Hr & _ & _ & Hw & _).
  - vm_compute. reflexivity.
  - vm_compute. reflexivity.
  - reflexivity.
  - exists r. split; assumption.
Defined.
